(** * Connection resilience and message delivery of the bingo client

    A shallow embedding of the three WebSocket modules of the repository
    (src/websocket.js, src/unnamed/part_000 and src/admin.js) and the
    properties of their reconnection, heartbeat, queueing and dispatch code.

    The modules keep their state in file-level variables and react to
    events of the browser (socket events, timers, calls of the page).  Each
    module becomes a record of its variables together with the part of the
    browser it talks to (clock, pending timeouts, a trace of the calls made
    on the socket, the timers and the notification area), and each function
    becomes a computation in a state-and-exception monad over that record.

    What is left out: the [console.log] and [console.warn] lines, the page
    elements, [localStorage], the optional hooks [onConnected],
    [onDisconnected] and [onError] of [initWebSocket] (taken at their
    default [null]), and the handlers of the game messages, but for the
    four of part_000 that keep the called numbers and the players of the
    room.  A message object is a value: a caller is taken to pass a fresh
    object to each [sendMessage], as every function of the modules does.
    In the model of the connection code a subscriber returns or raises and
    does not call back into the module while it is being dispatched to.
    The event system is modelled a second time on its own ([Listeners],
    [WebsocketJsEvents], [Part000Events]), with arrays as objects and
    subscribers that register and remove listeners while they run; a
    subscriber makes no other call into the module.  [Date.now()] gives
    the same value throughout one handler.  [close] is taken to accept the
    code it is given. *)

From Stdlib Require Import ZArith Lia Bool List.
From stdpp Require Import base gmap strings list pretty.
Import ListNotations.

Local Open Scope string_scope.
Local Open Scope Z_scope.
Local Open Scope list_scope.

Set Warnings "-register-all".

(** ** JavaScript values, as far as messages need them *)

Module JS.

(** A message is an object literal; [JSON.stringify] raises a [TypeError]
    on a [BigInt] anywhere inside it. *)
Inductive jsval : Type :=
| JUndefined
| JNull
| JBool (b : bool)
| JNumber (z : Z)
| JString (s : string)
| JBigInt (z : Z)
| JObject (fields : list (string * jsval)).

(** [!v] is [negb (truthy v)]. *)
Definition truthy (v : jsval) : bool :=
  match v with
  | JUndefined | JNull => false
  | JBool b => b
  | JNumber z => negb (z =? 0)
  | JString s => negb (String.eqb s "")
  | JBigInt z => negb (z =? 0)
  | JObject _ => true
  end.

(** [typeof v === 'object'] *)
Definition typeof_object (v : jsval) : bool :=
  match v with
  | JNull | JObject _ => true
  | _ => false
  end.

Fixpoint assoc (k : string) (fs : list (string * jsval)) : jsval :=
  match fs with
  | [] => JUndefined
  | (k', v) :: r => if String.eqb k k' then v else assoc k r
  end.

(** [v.k]; reading a property of a primitive gives [undefined] (the callers
    below only read properties after a null check). *)
Definition get_field (k : string) (v : jsval) : jsval :=
  match v with
  | JObject fs => assoc k fs
  | _ => JUndefined
  end.

Fixpoint assoc_set (k : string) (x : jsval) (fs : list (string * jsval))
  : list (string * jsval) :=
  match fs with
  | [] => [(k, x)]
  | (k', v) :: r =>
      if String.eqb k k' then (k, x) :: r else (k', v) :: assoc_set k x r
  end.

(** [v.k = x] on an object. *)
Definition set_field (k : string) (x : jsval) (v : jsval) : jsval :=
  match v with
  | JObject fs => JObject (assoc_set k x fs)
  | _ => v
  end.

Fixpoint assoc_remove (k : string) (fs : list (string * jsval))
  : list (string * jsval) :=
  match fs with
  | [] => []
  | (k', v) :: r =>
      if String.eqb k k' then assoc_remove k r else (k', v) :: assoc_remove k r
  end.

(** The rest of a destructuring that takes [k] out. *)
Definition without_field (k : string) (v : jsval) : jsval :=
  match v with
  | JObject fs => JObject (assoc_remove k fs)
  | _ => v
  end.

(** [JSON.stringify v] returns (as opposed to raising). *)
Fixpoint serializable (v : jsval) : bool :=
  match v with
  | JBigInt _ => false
  | JObject fs =>
      (fix all (l : list (string * jsval)) : bool :=
         match l with
         | [] => true
         | (_, x) :: r => serializable x && all r
         end) fs
  | _ => true
  end.

(** *** Exceptions and the monad of the embedding *)

Inductive exn : Type :=
| TypeError
| SyntaxError
| InvalidStateError
| OutOfFuel
| Raised (by_callback : nat).

Inductive completion (A : Type) : Type :=
| Normal (a : A)
| Abrupt (e : exn).
Arguments Normal {A} a.
Arguments Abrupt {A} e.

Definition M (S A : Type) : Type := S -> completion A * S.

Definition ret {S A} (a : A) : M S A := fun s => (Normal a, s).

Definition bind {S A B} (m : M S A) (k : A -> M S B) : M S B :=
  fun s =>
    match m s with
    | (Normal a, s') => k a s'
    | (Abrupt e, s') => (Abrupt e, s')
    end.

Definition throw {S A} (e : exn) : M S A := fun s => (Abrupt e, s).

(** [try { body } catch (e) { handler e }]: what [body] did to the state
    before raising stays done. *)
Definition try_catch {S A} (body : M S A) (handler : exn -> M S A) : M S A :=
  fun s =>
    match body s with
    | (Normal a, s') => (Normal a, s')
    | (Abrupt e, s') => handler e s'
    end.

Definition get {S} : M S S := fun s => (Normal s, s).
Definition gets {S A} (f : S -> A) : M S A := fun s => (Normal (f s), s).
Definition modify {S} (f : S -> S) : M S unit := fun s => (Normal tt, f s).

Definition when {S} (b : bool) (m : M S unit) : M S unit :=
  if b then m else ret tt.

(** [l.forEach(f)] on an array that [f] leaves alone: the elements in
    index order, a raise of [f] ends the loop and propagates. *)
Fixpoint forEach {S A} (f : A -> M S unit) (l : list A) : M S unit :=
  match l with
  | [] => ret tt
  | x :: r => bind (f x) (fun _ => forEach f r)
  end.

Definition exec {S A} (m : M S A) (s : S) : S := snd (m s).
Definition result {S A} (m : M S A) (s : S) : completion A := fst (m s).

End JS.
Import JS.

Notation "'let*' x ':=' m 'in' k" := (bind m (fun x => k))
  (at level 10, x name, m at level 100, k at level 200).
Notation "m ;; k" := (bind m (fun _ => k))
  (at level 100, k at level 200, right associativity).

(** ** The browser side shared by the three modules *)

(** [WebSocket.readyState] *)
Inductive ready_state : Type := CONNECTING | OPEN | CLOSING | CLOSED.

(** [socket && socket.readyState === WebSocket.OPEN] *)
Definition is_open (sock : option ready_state) : bool :=
  match sock with
  | Some OPEN => true
  | _ => false
  end.

(** A subscriber.  Callbacks are compared by reference ([indexOf], [!==]),
    here by [cb_id]; what a callback does with the event is its own
    business, the dispatcher only sees it return or raise. *)
Record callback : Type := Callback {
  cb_id : nat;
  cb_raises : jsval -> bool
}.

Inductive notice : Type :=
| N_connected
| N_disconnected (isError : bool)
| N_cannot_reconnect
| N_reconnecting (seconds : Z)
| N_failed_to_connect
| N_connection_error
| N_connection_lost
| N_not_connected
| N_failed_to_send.

(** What the module does to the outside, in program order. *)
Inductive effect : Type :=
| WsNew
| WsSend (frame : jsval)
| WsClose (code : option Z)
| SetTimeout (delay : Z)
| SetInterval (period : Z)
| ClearInterval
| Notify (n : notice)
| Invoke (cb : nat) (event : string) (data : jsval)
| ConsoleError (event : string) (e : exn).

(** The frames handed to the transport, oldest first. *)
Fixpoint frames (t : list effect) : list jsval :=
  match t with
  | [] => []
  | WsSend f :: r => f :: frames r
  | _ :: r => frames r
  end.

(** The codes of the [close] calls made on the transport. *)
Fixpoint closes (t : list effect) : list (option Z) :=
  match t with
  | [] => []
  | WsClose c :: r => c :: closes r
  | _ :: r => closes r
  end.

(** The calls of [setInterval] and [clearInterval], oldest first. *)
Fixpoint interval_calls (t : list effect) : list effect :=
  match t with
  | [] => []
  | SetInterval p :: r => SetInterval p :: interval_calls r
  | ClearInterval :: r => ClearInterval :: interval_calls r
  | _ :: r => interval_calls r
  end.

(** The callbacks entered for [event], oldest first. *)
Fixpoint invoked (event : string) (t : list effect) : list nat :=
  match t with
  | [] => []
  | Invoke c ev _ :: r =>
      if String.eqb ev event then c :: invoked event r else invoked event r
  | _ :: r => invoked event r
  end.

(** An entry of the outbound queue: the message object with the two
    fields [_timestamp] and [_retryCount] the queue adds to it. *)
Record queued : Type := Queued {
  q_msg : jsval;
  q_timestamp : Z;
  q_retryCount : Z
}.

Definition bump (q : queued) : queued :=
  Queued (q_msg q) (q_timestamp q) (q_retryCount q + 1).

(** [{ _timestamp, _retryCount, ...message } = queuedMessage] *)
Definition strip_meta (m : jsval) : jsval :=
  without_field "_retryCount" (without_field "_timestamp" m).

(** The queued object itself, the two fields included. *)
Definition with_meta (q : queued) : jsval :=
  set_field "_retryCount" (JNumber (q_retryCount q))
    (set_field "_timestamp" (JNumber (q_timestamp q)) (q_msg q)).

(** The two checks at the top of [sendMessage]: an object, with a truthy
    [type]. *)
Definition well_formed (message : jsval) : bool :=
  truthy message && typeof_object message && truthy (get_field "type" message).

(** What the page reports about itself in the hello message
    ([navigator], [window.screen]). *)
Record device_info : Type := DeviceInfo {
  userAgent : string;
  platform : string;
  language : string;
  screen_width : Z;
  screen_height : Z
}.

(** The options a connection is made with; the handlers of a socket keep
    the ones of the call that created it. *)
Record options : Type := Options {
  o_playerId : jsval;
  o_isAdmin : jsval;
  o_adminToken : jsval
}.

Record WebSocket : Type := Socket {
  readyState : ready_state;
  sock_options : options
}.

Definition sock_open (s : option WebSocket) : bool := is_open (readyState <$> s).

(** What a pending [setTimeout] will run. *)
Inductive timer_callback : Type :=
| ReconnectTimer                   (* connect again, identity read when it fires *)
| BackupTimer (o : options).       (* connectWebSocket(options) *)

Record timer : Type := Timer {
  timer_delay : Z;
  timer_callback_of : timer_callback
}.

(** The browser as the modules see it.  [now] is what [Date.now()] returns;
    it stands still while a handler runs and moves between handlers. *)
Record browser : Type := Browser {
  now : Z;
  device : device_info;
  url_valid : bool;             (* [new WebSocket(url)] accepts the URL *)
  timeouts : list timer;        (* pending [setTimeout]s, oldest first *)
  trace : list effect
}.

Definition set_timeouts (v : list timer) (b : browser) : browser :=
  {| now := now b; device := device b; url_valid := url_valid b;
     timeouts := v; trace := trace b |}.

Definition set_trace (v : list effect) (b : browser) : browser :=
  {| now := now b; device := device b; url_valid := url_valid b;
     timeouts := timeouts b; trace := v |}.

Definition set_now (v : Z) (b : browser) : browser :=
  {| now := v; device := device b; url_valid := url_valid b;
     timeouts := timeouts b; trace := trace b |}.

Definition emit (e : effect) (b : browser) : browser :=
  set_trace (trace b ++ [e]) b.

Definition schedule (t : timer) (b : browser) : browser :=
  emit (SetTimeout (timer_delay t)) (set_timeouts (timeouts b ++ [t]) b).

Definition deviceInfo (d : device_info) : jsval :=
  JObject [("userAgent", JString (userAgent d));
           ("platform", JString (platform d));
           ("language", JString (language d));
           ("screen", JObject [("width", JNumber (screen_width d));
                               ("height", JNumber (screen_height d))])].

(** [Math.ceil(ms / 1000)] for [ms >= 0]. *)
Definition ceil_seconds (ms : Z) : Z := (ms + 999) / 1000.

(** ** Dispatch to subscribers (the same loop in websocket.js and part_000)

    [callback(data)]: the call is entered, then returns or raises. *)
Definition call (cb : callback) (event : string) (data : jsval)
  : M browser unit :=
  modify (emit (Invoke (cb_id cb) event data)) ;;
  if cb_raises cb data then throw (Raised (cb_id cb)) else ret tt.

(** [listeners.forEach(callback => { try { callback(data); }
      catch (error) { console.error(..., error); } })] *)
Definition dispatch (event : string) (data : jsval) (cbs : list callback)
  : M browser unit :=
  forEach
    (fun cb =>
       try_catch (call cb event data)
                 (fun e => modify (emit (ConsoleError event e))))
    cbs.

(** ** src/websocket.js

    Lines 5-14 (variables), 59-196 ([initWebSocket] and the handlers of
    the socket), 199-220 ([attemptReconnection]), 223-250 (heartbeat),
    253-306 ([sendMessage]), 309-340 ([processMessageQueue]), 414-428
    ([handlePing], [handlePong]), 530-557 (event system), 561-576, 607-620
    and 638-665 (four calls of the game) and 781-822 (connection
    management). *)

Module WebsocketJs.

Definition MAX_RECONNECT_ATTEMPTS : Z := 5.
Definition RECONNECT_DELAY : Z := 3000.
Definition PING_INTERVAL : Z := 30000.

(** The variables of the module, and the browser. *)
Record state : Type := State {
  ws : option WebSocket;
  reconnectAttempts : Z;
  pingInterval : bool;          (* an interval handle is held *)
  lastPong : Z;
  messageQueue : list queued;
  connected : bool;             (* connectionStatus.connected *)
  playerId : jsval;             (* connectionStatus.playerId *)
  isAdmin : jsval;              (* connectionStatus.isAdmin *)
  pingLatency : jsval;          (* connectionStatus.pingLatency *)
  eventListeners : gmap string (list callback);
  env : browser
}.

Definition set_ws (v : option WebSocket) (st : state) : state :=
  {| ws := v; reconnectAttempts := reconnectAttempts st;
     pingInterval := pingInterval st; lastPong := lastPong st;
     messageQueue := messageQueue st; connected := connected st;
     playerId := playerId st; isAdmin := isAdmin st;
     pingLatency := pingLatency st; eventListeners := eventListeners st;
     env := env st |}.

Definition set_reconnectAttempts (v : Z) (st : state) : state :=
  {| ws := ws st; reconnectAttempts := v; pingInterval := pingInterval st;
     lastPong := lastPong st; messageQueue := messageQueue st;
     connected := connected st; playerId := playerId st;
     isAdmin := isAdmin st; pingLatency := pingLatency st;
     eventListeners := eventListeners st; env := env st |}.

Definition set_pingInterval (v : bool) (st : state) : state :=
  {| ws := ws st; reconnectAttempts := reconnectAttempts st;
     pingInterval := v; lastPong := lastPong st;
     messageQueue := messageQueue st; connected := connected st;
     playerId := playerId st; isAdmin := isAdmin st;
     pingLatency := pingLatency st; eventListeners := eventListeners st;
     env := env st |}.

Definition set_lastPong (v : Z) (st : state) : state :=
  {| ws := ws st; reconnectAttempts := reconnectAttempts st;
     pingInterval := pingInterval st; lastPong := v;
     messageQueue := messageQueue st; connected := connected st;
     playerId := playerId st; isAdmin := isAdmin st;
     pingLatency := pingLatency st; eventListeners := eventListeners st;
     env := env st |}.

Definition set_messageQueue (v : list queued) (st : state) : state :=
  {| ws := ws st; reconnectAttempts := reconnectAttempts st;
     pingInterval := pingInterval st; lastPong := lastPong st;
     messageQueue := v; connected := connected st; playerId := playerId st;
     isAdmin := isAdmin st; pingLatency := pingLatency st;
     eventListeners := eventListeners st; env := env st |}.

Definition set_connected (v : bool) (st : state) : state :=
  {| ws := ws st; reconnectAttempts := reconnectAttempts st;
     pingInterval := pingInterval st; lastPong := lastPong st;
     messageQueue := messageQueue st; connected := v;
     playerId := playerId st; isAdmin := isAdmin st;
     pingLatency := pingLatency st; eventListeners := eventListeners st;
     env := env st |}.

Definition set_playerId (v : jsval) (st : state) : state :=
  {| ws := ws st; reconnectAttempts := reconnectAttempts st;
     pingInterval := pingInterval st; lastPong := lastPong st;
     messageQueue := messageQueue st; connected := connected st;
     playerId := v; isAdmin := isAdmin st; pingLatency := pingLatency st;
     eventListeners := eventListeners st; env := env st |}.

Definition set_isAdmin (v : jsval) (st : state) : state :=
  {| ws := ws st; reconnectAttempts := reconnectAttempts st;
     pingInterval := pingInterval st; lastPong := lastPong st;
     messageQueue := messageQueue st; connected := connected st;
     playerId := playerId st; isAdmin := v; pingLatency := pingLatency st;
     eventListeners := eventListeners st; env := env st |}.

Definition set_pingLatency (v : jsval) (st : state) : state :=
  {| ws := ws st; reconnectAttempts := reconnectAttempts st;
     pingInterval := pingInterval st; lastPong := lastPong st;
     messageQueue := messageQueue st; connected := connected st;
     playerId := playerId st; isAdmin := isAdmin st; pingLatency := v;
     eventListeners := eventListeners st; env := env st |}.

Definition set_eventListeners (v : gmap string (list callback)) (st : state) : state :=
  {| ws := ws st; reconnectAttempts := reconnectAttempts st;
     pingInterval := pingInterval st; lastPong := lastPong st;
     messageQueue := messageQueue st; connected := connected st;
     playerId := playerId st; isAdmin := isAdmin st;
     pingLatency := pingLatency st; eventListeners := v; env := env st |}.

Definition set_env (v : browser) (st : state) : state :=
  {| ws := ws st; reconnectAttempts := reconnectAttempts st;
     pingInterval := pingInterval st; lastPong := lastPong st;
     messageQueue := messageQueue st; connected := connected st;
     playerId := playerId st; isAdmin := isAdmin st;
     pingLatency := pingLatency st; eventListeners := eventListeners st;
     env := v |}.

Definition on_env {A} (m : M browser A) : M state A :=
  fun st => let (r, b) := m (env st) in (r, set_env b st).

Definition log (e : effect) : M state unit := on_env (modify (emit e)).
Definition showNotification (n : notice) : M state unit := log (Notify n).
Definition Date_now : M state Z := gets (fun st => now (env st)).
Definition setTimeout (cb : timer_callback) (delay : Z) : M state unit :=
  on_env (modify (schedule (Timer delay cb))).

(** *** Event system

    As far as the connection code needs it: the subscribers leave the
    listeners alone while they run.  [WebsocketJsEvents] below has the
    event system with subscribers that call back. *)

Definition addEventListener (event : string) (cb : callback) : M state unit :=
  modify (fun st =>
    let ls := eventListeners st in
    let ls := if bool_decide (is_Some (ls !! event)) then ls
              else <[event := []]> ls in
    set_eventListeners (alter (fun l => l ++ [cb]) event ls) st).

(** [listeners.splice(listeners.indexOf(callback), 1)] *)
Fixpoint remove_first (id : nat) (l : list callback) : list callback :=
  match l with
  | [] => []
  | c :: r => if Nat.eqb (cb_id c) id then r else c :: remove_first id r
  end.

Definition removeEventListener (event : string) (cb : callback)
  : M state unit :=
  modify (fun st =>
    set_eventListeners
      (alter (remove_first (cb_id cb)) event (eventListeners st)) st).

Definition triggerEvent (event : string) (data : jsval) : M state unit :=
  let* ls := gets eventListeners in
  match ls !! event with
  | Some cbs => on_env (dispatch event data cbs)
  | None => ret tt
  end.

(** *** Reconnection *)

(** [Math.pow(2, reconnectAttempts - 1)]; the counter is at least 1 here,
    it has just been incremented from a value that is never negative. *)
Definition backoff (attempts : Z) : Z := RECONNECT_DELAY * 2 ^ (attempts - 1).

Definition attemptReconnection : M state unit :=
  modify (fun st => set_reconnectAttempts (reconnectAttempts st + 1) st) ;;
  let* n := gets reconnectAttempts in
  if n >? MAX_RECONNECT_ATTEMPTS then
    showNotification N_cannot_reconnect
  else
    let delay := backoff n in
    showNotification (N_reconnecting (ceil_seconds delay)) ;;
    setTimeout ReconnectTimer delay.

(** *** Sending *)

(** [messageQueue.push({ ...message, _timestamp: Date.now(), _retryCount: 0 })] *)
Definition enqueue (message : jsval) : M state unit :=
  let* t := Date_now in
  modify (fun st =>
    set_messageQueue (messageQueue st ++ [Queued message t 0]) st).

Definition JSON_stringify (message : jsval) : M state unit :=
  if serializable message then ret tt else throw TypeError.

(** [ws.send(text)]: raises while the socket is still connecting, drops
    the frame once the socket is closing or closed. *)
Definition ws_send (frame : jsval) : M state unit :=
  let* sock := gets ws in
  match sock with
  | None => throw TypeError
  | Some s =>
      match readyState s with
      | CONNECTING => throw InvalidStateError
      | OPEN => log (WsSend frame)
      | CLOSING | CLOSED => ret tt
      end
  end.

Definition sendMessage (message : jsval) (queueIfOffline : bool)
  : M state bool :=
  if negb (truthy message) || negb (typeof_object message) then ret false
  else if negb (truthy (get_field "type" message)) then ret false
  else
    let* sock := gets ws in
    if negb (sock_open sock) then
      when queueIfOffline (enqueue message) ;;
      let* c := gets connected in
      let* n := gets reconnectAttempts in
      when (negb c && (n =? 0)) attemptReconnection ;;
      ret false
    else
      try_catch
        (JSON_stringify message ;;
         ws_send message ;;
         ret true)
        (fun _ =>
           showNotification N_failed_to_send ;;
           when queueIfOffline (enqueue message) ;;
           ret false).

(** *** Draining the queue *)

Definition maxAge : Z := 5 * 60 * 1000.

(** [messageQueue.splice(i, 1)] *)
Definition splice (i : nat) : M state unit :=
  modify (fun st => set_messageQueue (delete i (messageQueue st)) st).

(** The body of the [for] loop at index [i]. *)
Definition drain_at (t0 : Z) (i : nat) : M state unit :=
  let* q := gets messageQueue in
  match q !! i with
  | None => throw TypeError
  | Some queuedMessage =>
      if t0 - q_timestamp queuedMessage >? maxAge then splice i
      else
        let message := strip_meta (q_msg queuedMessage) in
        let* sent := sendMessage message false in
        if (sent : bool) then splice i
        else
          modify (fun st =>
            set_messageQueue (<[i := bump queuedMessage]> (messageQueue st)) st) ;;
          when (q_retryCount queuedMessage + 1 >? 3) (splice i)
  end.

(** [for (let i = k - 1; i >= 0; i--)] *)
Fixpoint drain_from (t0 : Z) (k : nat) : M state unit :=
  match k with
  | O => ret tt
  | S i => drain_at t0 i ;; drain_from t0 i
  end.

Definition processMessageQueue : M state unit :=
  let* t0 := Date_now in
  let* q := gets messageQueue in
  drain_from t0 (length q).

(** *** Heartbeat *)

Definition stopPingInterval : M state unit :=
  let* p := gets pingInterval in
  when p (log ClearInterval ;; modify (set_pingInterval false)).

(** [ws.close(code, reason)] *)
Definition ws_close (code : option Z) : M state unit :=
  log (WsClose code) ;;
  modify (fun st =>
    match ws st with
    | Some (Socket (CONNECTING | OPEN) o) => set_ws (Some (Socket CLOSING o)) st
    | _ => st
    end).

(** The function given to [setInterval]. *)
Definition pingTick : M state unit :=
  let* sock := gets ws in
  when (sock_open sock)
    (let* t := Date_now in
     modify (set_lastPong t) ;;
     let* t' := Date_now in
     sendMessage (JObject [("type", JString "ping"); ("timestamp", JNumber t')])
                 true ;;
     ret tt) ;;
  let* t := Date_now in
  let* lp := gets lastPong in
  when (t - lp >? PING_INTERVAL * 2)
    (let* sock := gets ws in
     match sock with
     | Some _ => ws_close (Some 1001)
     | None => ret tt
     end).

Definition startPingInterval : M state unit :=
  stopPingInterval ;;
  log (SetInterval PING_INTERVAL) ;;
  modify (set_pingInterval true).

(** *** Two of the message handlers *)

Definition handlePing (message : jsval) : M state unit :=
  sendMessage (JObject [("type", JString "pong");
                        ("timestamp", get_field "timestamp" message)]) true ;;
  ret tt.

(** [Date.now() - message.timestamp]; [JUndefined] stands for [NaN]. *)
Definition latency_of (t : Z) (message : jsval) : jsval :=
  match get_field "timestamp" message with
  | JNumber z => JNumber (t - z)
  | _ => JUndefined
  end.

Definition handlePong (message : jsval) : M state unit :=
  let* t := Date_now in
  let latency := latency_of t message in
  modify (set_pingLatency latency) ;;
  triggerEvent "pong" (set_field "latency" latency message).

(** *** Connecting; the handlers of a socket *)

Definition hello (o : options) (d : device_info) : jsval :=
  JObject [("type", JString "hello");
           ("playerId", o_playerId o);
           ("isAdmin", o_isAdmin o);
           ("token", o_adminToken o);
           ("deviceInfo", deviceInfo d)].

Definition open_event : jsval := JObject [("type", JString "open")].
Definition error_event : jsval := JObject [("type", JString "error")].
Definition close_event (code : Z) : jsval :=
  JObject [("type", JString "close"); ("code", JNumber code)].

(** [ws.onopen], for a socket created with options [o]. *)
Definition ws_onopen (o : options) : M state unit :=
  modify (set_connected true) ;;
  modify (set_reconnectAttempts 0) ;;
  startPingInterval ;;
  let* d := gets (fun st => device (env st)) in
  sendMessage (hello o d) true ;;
  showNotification N_connected ;;
  triggerEvent "connected" open_event ;;
  processMessageQueue.

(** [ws.onclose] *)
Definition ws_onclose (code : Z) : M state unit :=
  modify (set_connected false) ;;
  stopPingInterval ;;
  modify (set_ws None) ;;
  let* n := gets reconnectAttempts in
  when (negb (code =? 1000) && negb (code =? 1001)
        && (n <? MAX_RECONNECT_ATTEMPTS))
       attemptReconnection ;;
  showNotification (N_disconnected true) ;;
  triggerEvent "disconnected" (close_event code).

(** [ws.onerror] *)
Definition ws_onerror : M state unit :=
  modify (set_connected false) ;;
  showNotification N_connection_error ;;
  triggerEvent "error" error_event.

(** [ws = new WebSocket(WS_URL)] and the assignment of the handlers. *)
Definition newWebSocket (o : options) : M state unit :=
  let* ok := gets (fun st => url_valid (env st)) in
  if (ok : bool) then
    log WsNew ;; modify (set_ws (Some (Socket CONNECTING o)))
  else throw SyntaxError.

Definition initWebSocket (o : options) : M state bool :=
  let* sock := gets ws in
  if sock_open sock then ret true
  else
    match sock with
    | Some _ => ws_close None ;; modify (set_ws None)
    | None => ret tt
    end ;;
    modify (set_playerId (o_playerId o)) ;;
    modify (set_isAdmin (o_isAdmin o)) ;;
    try_catch
      (newWebSocket o ;; ret true)
      (fun _ =>
         showNotification N_failed_to_connect ;;
         let* n := gets reconnectAttempts in
         when (n <? MAX_RECONNECT_ATTEMPTS) attemptReconnection ;;
         ret false).

(** The options of the calls that name only the identity:
    [{ playerId: connectionStatus.playerId, isAdmin: connectionStatus.isAdmin }] *)
Definition stored_options (st : state) : options :=
  Options (playerId st) (isAdmin st) JNull.

(** *** Connection management *)

Definition disconnect : M state unit :=
  stopPingInterval ;;
  let* sock := gets ws in
  match sock with
  | Some _ => ws_close (Some 1000) ;; modify (set_ws None)
  | None => ret tt
  end ;;
  modify (set_connected false) ;;
  modify (set_reconnectAttempts 0) ;;
  showNotification (N_disconnected false).

Definition reconnect : M state bool :=
  let* c := gets connected in
  if (c : bool) then ret true
  else
    modify (set_reconnectAttempts 0) ;;
    let* st := get in
    initWebSocket (stored_options st).

Definition getMessageQueueLength : M state nat :=
  gets (fun st => length (messageQueue st)).

Definition clearMessageQueue : M state unit :=
  modify (set_messageQueue []).

(** *** Calls of the game (lines 561-576, 607-620 and 638-665) *)






(** *** What the browser does to the module *)

(** The pending timeout number [i] fires. *)
Definition timer_fires (i : nat) : M state unit :=
  let* ts := gets (fun st => timeouts (env st)) in
  match ts !! i with
  | None => ret tt
  | Some t =>
      on_env (modify (set_timeouts (delete i ts))) ;;
      let* st := get in
      match timer_callback_of t with
      | ReconnectTimer => initWebSocket (stored_options st) ;; ret tt
      | BackupTimer o => initWebSocket o ;; ret tt
      end
  end.

(** The socket held in [ws] opens, or closes with [code]. *)
Definition socket_opens : M state unit :=
  let* sock := gets ws in
  match sock with
  | Some (Socket _ o) => modify (set_ws (Some (Socket OPEN o))) ;; ws_onopen o
  | None => ret tt
  end.

Definition socket_closes (code : Z) : M state unit :=
  let* sock := gets ws in
  match sock with
  | Some (Socket _ o) =>
      modify (set_ws (Some (Socket CLOSED o))) ;; ws_onclose code
  | None => ws_onclose code
  end.

End WebsocketJs.

(** ** src/unnamed/part_000

    Lines 14-31 (variables), 54-176 ([connectWebSocket], the handlers of
    the socket, [sendHelloMessage]), 462-539 ([sendMessage],
    [processMessageQueue]), 781-839 ([attemptReconnect], heartbeat,
    [updateConnectionStatus]), 854-877 (event system) and 893-918
    ([disconnect], [reconnect]). *)

Module Part000.

Definition MAX_RECONNECT_ATTEMPTS : Z := 5.
Definition PING_INTERVAL : Z := 30000.

(** [WS_BACKUP_URLS.length]: the list holds the primary URL only. *)
Definition WS_BACKUP_URLS_length : Z := 1.

(** The values [connectionStatus] takes. *)
Inductive status : Type := disconnected | connecting | connected | error.

Definition status_name (s : status) : string :=
  match s with
  | disconnected => "disconnected"
  | connecting => "connecting"
  | connected => "connected"
  | error => "error"
  end.

Definition is_connecting (s : status) : bool :=
  match s with connecting => true | _ => false end.

Definition is_connected (s : status) : bool :=
  match s with connected => true | _ => false end.

Record state : Type := State {
  socket : option WebSocket;
  connectionStatus : status;
  reconnectAttempts : Z;
  currentWSIndex : Z;
  pingInterval : bool;
  messageQueue : list queued;
  eventListeners : gmap string (list callback);
  isConnected : bool;           (* gameState.isConnected *)
  playerId : jsval;             (* gameState.playerId *)
  isAdmin : jsval;              (* gameState.isAdmin *)
  fresh_player_id : string;     (* what generatePlayerId() returns *)
  env : browser
}.

Definition set_socket (v : option WebSocket) (st : state) : state :=
  {| socket := v; connectionStatus := connectionStatus st;
     reconnectAttempts := reconnectAttempts st;
     currentWSIndex := currentWSIndex st; pingInterval := pingInterval st;
     messageQueue := messageQueue st; eventListeners := eventListeners st;
     isConnected := isConnected st; playerId := playerId st;
     isAdmin := isAdmin st; fresh_player_id := fresh_player_id st;
     env := env st |}.

Definition set_connectionStatus (v : status) (st : state) : state :=
  {| socket := socket st; connectionStatus := v;
     reconnectAttempts := reconnectAttempts st;
     currentWSIndex := currentWSIndex st; pingInterval := pingInterval st;
     messageQueue := messageQueue st; eventListeners := eventListeners st;
     isConnected := isConnected st; playerId := playerId st;
     isAdmin := isAdmin st; fresh_player_id := fresh_player_id st;
     env := env st |}.

Definition set_reconnectAttempts (v : Z) (st : state) : state :=
  {| socket := socket st; connectionStatus := connectionStatus st;
     reconnectAttempts := v; currentWSIndex := currentWSIndex st;
     pingInterval := pingInterval st; messageQueue := messageQueue st;
     eventListeners := eventListeners st; isConnected := isConnected st;
     playerId := playerId st; isAdmin := isAdmin st;
     fresh_player_id := fresh_player_id st; env := env st |}.

Definition set_currentWSIndex (v : Z) (st : state) : state :=
  {| socket := socket st; connectionStatus := connectionStatus st;
     reconnectAttempts := reconnectAttempts st; currentWSIndex := v;
     pingInterval := pingInterval st; messageQueue := messageQueue st;
     eventListeners := eventListeners st; isConnected := isConnected st;
     playerId := playerId st; isAdmin := isAdmin st;
     fresh_player_id := fresh_player_id st; env := env st |}.

Definition set_pingInterval (v : bool) (st : state) : state :=
  {| socket := socket st; connectionStatus := connectionStatus st;
     reconnectAttempts := reconnectAttempts st;
     currentWSIndex := currentWSIndex st; pingInterval := v;
     messageQueue := messageQueue st; eventListeners := eventListeners st;
     isConnected := isConnected st; playerId := playerId st;
     isAdmin := isAdmin st; fresh_player_id := fresh_player_id st;
     env := env st |}.

Definition set_messageQueue (v : list queued) (st : state) : state :=
  {| socket := socket st; connectionStatus := connectionStatus st;
     reconnectAttempts := reconnectAttempts st;
     currentWSIndex := currentWSIndex st; pingInterval := pingInterval st;
     messageQueue := v; eventListeners := eventListeners st;
     isConnected := isConnected st; playerId := playerId st;
     isAdmin := isAdmin st; fresh_player_id := fresh_player_id st;
     env := env st |}.

Definition set_eventListeners (v : gmap string (list callback)) (st : state) : state :=
  {| socket := socket st; connectionStatus := connectionStatus st;
     reconnectAttempts := reconnectAttempts st;
     currentWSIndex := currentWSIndex st; pingInterval := pingInterval st;
     messageQueue := messageQueue st; eventListeners := v;
     isConnected := isConnected st; playerId := playerId st;
     isAdmin := isAdmin st; fresh_player_id := fresh_player_id st;
     env := env st |}.

Definition set_isConnected (v : bool) (st : state) : state :=
  {| socket := socket st; connectionStatus := connectionStatus st;
     reconnectAttempts := reconnectAttempts st;
     currentWSIndex := currentWSIndex st; pingInterval := pingInterval st;
     messageQueue := messageQueue st; eventListeners := eventListeners st;
     isConnected := v; playerId := playerId st; isAdmin := isAdmin st;
     fresh_player_id := fresh_player_id st; env := env st |}.

Definition set_playerId (v : jsval) (st : state) : state :=
  {| socket := socket st; connectionStatus := connectionStatus st;
     reconnectAttempts := reconnectAttempts st;
     currentWSIndex := currentWSIndex st; pingInterval := pingInterval st;
     messageQueue := messageQueue st; eventListeners := eventListeners st;
     isConnected := isConnected st; playerId := v; isAdmin := isAdmin st;
     fresh_player_id := fresh_player_id st; env := env st |}.

Definition set_isAdmin (v : jsval) (st : state) : state :=
  {| socket := socket st; connectionStatus := connectionStatus st;
     reconnectAttempts := reconnectAttempts st;
     currentWSIndex := currentWSIndex st; pingInterval := pingInterval st;
     messageQueue := messageQueue st; eventListeners := eventListeners st;
     isConnected := isConnected st; playerId := playerId st; isAdmin := v;
     fresh_player_id := fresh_player_id st; env := env st |}.

Definition set_env (v : browser) (st : state) : state :=
  {| socket := socket st; connectionStatus := connectionStatus st;
     reconnectAttempts := reconnectAttempts st;
     currentWSIndex := currentWSIndex st; pingInterval := pingInterval st;
     messageQueue := messageQueue st; eventListeners := eventListeners st;
     isConnected := isConnected st; playerId := playerId st;
     isAdmin := isAdmin st; fresh_player_id := fresh_player_id st;
     env := v |}.

Definition on_env {A} (m : M browser A) : M state A :=
  fun st => let (r, b) := m (env st) in (r, set_env b st).

Definition log (e : effect) : M state unit := on_env (modify (emit e)).
Definition showNotification (n : notice) : M state unit := log (Notify n).
Definition Date_now : M state Z := gets (fun st => now (env st)).
Definition setTimeout (cb : timer_callback) (delay : Z) : M state unit :=
  on_env (modify (schedule (Timer delay cb))).

(** *** Event system

    As far as the connection code needs it: the subscribers leave the
    listeners alone while they run, and the events are those the module
    dispatches itself, none of them a name that objects inherit.
    [Part000Events] below has the event system with subscribers that call
    back and with the inherited names. *)

(** The object literal the module starts with. *)
Definition initial_listeners : gmap string (list callback) :=
  <["onopen" := []]> (<["onclose" := []]> (<["onerror" := []]>
    (<["onmessage" := []]> ∅))).

Definition addEventListener (event : string) (cb : callback) : M state unit :=
  modify (fun st =>
    let ls := eventListeners st in
    let ls := if bool_decide (is_Some (ls !! event)) then ls
              else <[event := []]> ls in
    set_eventListeners (alter (fun l => l ++ [cb]) event ls) st).

(** [eventListeners[event].filter(cb => cb !== callback)] *)
Definition removeEventListener (event : string) (cb : callback)
  : M state unit :=
  modify (fun st =>
    set_eventListeners
      (alter (List.filter (fun c => negb (Nat.eqb (cb_id c) (cb_id cb))))
             event (eventListeners st)) st).

Definition triggerEvent (event : string) (data : jsval) : M state unit :=
  let* ls := gets eventListeners in
  match ls !! event with
  | Some cbs => on_env (dispatch event data cbs)
  | None => ret tt
  end.

(** The page element that shows the status is left out. *)
Definition updateConnectionStatus (s : status) (message : string)
  : M state unit :=
  modify (set_connectionStatus s) ;;
  triggerEvent "connection_status"
    (JObject [("status", JString (status_name s));
              ("message", JString message)]).

(** *** Reconnection *)

(** [Math.min(1000 * Math.pow(2, reconnectAttempts), 30000)] *)
Definition backoff (attempts : Z) : Z := Z.min (1000 * 2 ^ attempts) 30000.

Definition attemptReconnect : M state unit :=
  let* n := gets reconnectAttempts in
  if n >=? MAX_RECONNECT_ATTEMPTS then
    showNotification N_cannot_reconnect
  else
    modify (fun st => set_reconnectAttempts (reconnectAttempts st + 1) st) ;;
    let* n := gets reconnectAttempts in
    let delay := backoff n in
    updateConnectionStatus connecting
      ("Reconnecting in " +:+ pretty (delay / 1000) +:+ "s...") ;;
    setTimeout ReconnectTimer delay.

(** *** Sending *)

(** [message._timestamp = Date.now(); message._retryCount = 0;
     messageQueue.push(message)] *)
Definition enqueue (message : jsval) : M state unit :=
  let* t := Date_now in
  modify (fun st =>
    set_messageQueue (messageQueue st ++ [Queued message t 0]) st).

Definition JSON_stringify (message : jsval) : M state unit :=
  if serializable message then ret tt else throw TypeError.

Definition socket_send (frame : jsval) : M state unit :=
  let* sock := gets socket in
  match sock with
  | None => throw TypeError
  | Some s =>
      match readyState s with
      | CONNECTING => throw InvalidStateError
      | OPEN => log (WsSend frame)
      | CLOSING | CLOSED => ret tt
      end
  end.

Definition sendMessage (message : jsval) (queueIfOffline : bool)
  : M state bool :=
  if negb (truthy message) || negb (typeof_object message) then ret false
  else if negb (truthy (get_field "type" message)) then ret false
  else
    let* sock := gets socket in
    if negb (sock_open sock) then
      when queueIfOffline (enqueue message) ;;
      let* s := gets connectionStatus in
      when (negb (is_connecting s)) attemptReconnect ;;
      ret false
    else
      try_catch
        (JSON_stringify message ;;
         socket_send message ;;
         ret true)
        (fun _ =>
           showNotification N_failed_to_send ;;
           when queueIfOffline (enqueue message) ;;
           ret false).

(** *** Draining the queue *)

(** One turn of the [while] loop; the result tells whether the loop goes
    on ([continue]) or is left ([break], or the queue is empty). *)
Definition drain_head : M state bool :=
  let* q := gets messageQueue in
  match q with
  | [] => ret false
  | message :: rest =>
      modify (set_messageQueue rest) ;;
      if q_retryCount message >? 3 then ret true
      else
        let* t := Date_now in
        if t - q_timestamp message >? 300000 then ret true
        else
          let* sent := sendMessage (with_meta message) false in
          if (sent : bool) then ret true
          else
            modify (fun st =>
              set_messageQueue (bump message :: messageQueue st) st) ;;
            ret false
  end.

(** The [while] loop, with a bound on the number of turns. *)
Fixpoint drain (fuel : nat) : M state unit :=
  match fuel with
  | O => throw OutOfFuel
  | S n =>
      let* again := drain_head in
      if (again : bool) then drain n else ret tt
  end.

(** A turn that goes on has taken one message off the queue, so one turn
    more than there are messages is enough ([processMessageQueue_returns]). *)
Definition processMessageQueue : M state unit :=
  let* q := gets messageQueue in
  drain (S (length q)).

(** *** Heartbeat *)

Definition stopPingInterval : M state unit :=
  let* p := gets pingInterval in
  when p (log ClearInterval ;; modify (set_pingInterval false)).

Definition pingTick : M state unit :=
  let* sock := gets socket in
  when (sock_open sock)
    (let* t := Date_now in
     sendMessage (JObject [("type", JString "ping"); ("timestamp", JNumber t)])
                 false ;;
     ret tt).

Definition startPingInterval : M state unit :=
  stopPingInterval ;;
  log (SetInterval PING_INTERVAL) ;;
  modify (set_pingInterval true).

(** The [pong] and [ping] cases of [handleWebSocketMessage]. *)
Definition on_pong : M state unit := ret tt.

Definition on_ping : M state unit :=
  let* t := Date_now in
  sendMessage (JObject [("type", JString "pong"); ("timestamp", JNumber t)])
              true ;;
  ret tt.

(** *** Connecting; the handlers of a socket *)

Definition socket_close (code : option Z) : M state unit :=
  log (WsClose code) ;;
  modify (fun st =>
    match socket st with
    | Some (Socket (CONNECTING | OPEN) o) =>
        set_socket (Some (Socket CLOSING o)) st
    | _ => st
    end).

Definition sendHelloMessage (o : options) : M state unit :=
  let* st := get in
  let pid := if truthy (o_playerId o) then o_playerId o
             else JString (fresh_player_id st) in
  let message :=
    JObject [("type", JString "hello");
             ("playerId", pid);
             ("isAdmin", o_isAdmin o);
             ("deviceInfo", deviceInfo (device (env st)))] in
  let message :=
    if truthy (o_isAdmin o) && truthy (o_adminToken o)
    then set_field "token" (o_adminToken o) message
    else message in
  sendMessage message true ;;
  ret tt.

Definition open_event : jsval := JObject [("type", JString "open")].
Definition error_event : jsval := JObject [("type", JString "error")].
Definition close_event (code : Z) : jsval :=
  JObject [("type", JString "close"); ("code", JNumber code)].

Definition socket_onopen (o : options) : M state unit :=
  modify (set_connectionStatus connected) ;;
  modify (set_reconnectAttempts 0) ;;
  modify (set_isConnected true) ;;
  updateConnectionStatus connected "Connected" ;;
  triggerEvent "onopen" open_event ;;
  startPingInterval ;;
  sendHelloMessage o ;;
  processMessageQueue.

Definition socket_onclose (code : Z) : M state unit :=
  modify (set_connectionStatus disconnected) ;;
  modify (set_isConnected false) ;;
  updateConnectionStatus disconnected "Disconnected" ;;
  triggerEvent "onclose" (close_event code) ;;
  stopPingInterval ;;
  let* n := gets reconnectAttempts in
  when (negb (code =? 1000) && (n <? MAX_RECONNECT_ATTEMPTS))
       attemptReconnect.

(** [if (currentWSIndex < WS_BACKUP_URLS.length - 1) { currentWSIndex++;
      setTimeout(() => connectWebSocket(options), 2000); }] *)
Definition try_backup (o : options) : M state unit :=
  let* i := gets currentWSIndex in
  when (i <? WS_BACKUP_URLS_length - 1)
    (modify (set_currentWSIndex (i + 1)) ;;
     setTimeout (BackupTimer o) 2000).

Definition socket_onerror (o : options) : M state unit :=
  modify (set_connectionStatus error) ;;
  updateConnectionStatus error "Connection error" ;;
  triggerEvent "onerror" error_event ;;
  try_backup o.

Definition newWebSocket (o : options) : M state unit :=
  let* ok := gets (fun st => url_valid (env st)) in
  if (ok : bool) then
    log WsNew ;; modify (set_socket (Some (Socket CONNECTING o)))
  else throw SyntaxError.

Definition connectWebSocket (o : options) : M state bool :=
  let* sock := gets socket in
  when (sock_open sock) (socket_close None) ;;
  try_catch
    (updateConnectionStatus connecting "Connecting to server..." ;;
     newWebSocket o ;;
     ret true)
    (fun _ =>
       updateConnectionStatus error "Connection failed" ;;
       try_backup o ;;
       ret false).

(** [{ isAdmin: gameState.isAdmin, playerId: gameState.playerId }] *)
Definition stored_options (st : state) : options :=
  Options (playerId st) (isAdmin st) JNull.

(** *** Public API *)

Definition disconnect : M state unit :=
  stopPingInterval ;;
  let* sock := gets socket in
  match sock with
  | Some _ => socket_close (Some 1000) ;; modify (set_socket None)
  | None => ret tt
  end ;;
  modify (set_connectionStatus disconnected) ;;
  modify (set_isConnected false) ;;
  updateConnectionStatus disconnected "Disconnected".

Definition reconnect : M state bool :=
  let* s := gets connectionStatus in
  if is_connected s then ret true
  else
    modify (set_reconnectAttempts 0) ;;
    modify (set_currentWSIndex 0) ;;
    let* st := get in
    connectWebSocket (stored_options st).

(** *** What the browser does to the module *)

Definition timer_fires (i : nat) : M state unit :=
  let* ts := gets (fun st => timeouts (env st)) in
  match ts !! i with
  | None => ret tt
  | Some t =>
      on_env (modify (set_timeouts (delete i ts))) ;;
      let* st := get in
      match timer_callback_of t with
      | ReconnectTimer => connectWebSocket (stored_options st) ;; ret tt
      | BackupTimer o => connectWebSocket o ;; ret tt
      end
  end.

Definition socket_opens : M state unit :=
  let* sock := gets socket in
  match sock with
  | Some (Socket _ o) =>
      modify (set_socket (Some (Socket OPEN o))) ;; socket_onopen o
  | None => ret tt
  end.

Definition socket_closes (code : Z) : M state unit :=
  let* sock := gets socket in
  match sock with
  | Some (Socket _ o) =>
      modify (set_socket (Some (Socket CLOSED o))) ;; socket_onclose code
  | None => socket_onclose code
  end.

End Part000.

(** ** src/admin.js

    Lines 4-7 (variables), 25-73 ([connectWebSocket]), 139-176 (close and
    error handlers, [attemptReconnect], heartbeat) and 435-451
    ([sendMessage]). *)

Module AdminJs.

(** [const reconnectAttempts = 0;]: a constant of the module, no statement
    assigns it. *)
Definition reconnectAttempts : Z := 0.
Definition MAX_RECONNECT_ATTEMPTS : Z := 5.

Inductive status : Type := disconnected | connected | error.

Record state : Type := State {
  socket : option WebSocket;
  connectionStatus : status;
  pingInterval : nat;           (* intervals running; none is ever cleared *)
  env : browser
}.

Definition set_socket (v : option WebSocket) (st : state) : state :=
  {| socket := v; connectionStatus := connectionStatus st;
     pingInterval := pingInterval st; env := env st |}.

Definition set_connectionStatus (v : status) (st : state) : state :=
  {| socket := socket st; connectionStatus := v;
     pingInterval := pingInterval st; env := env st |}.

Definition set_pingInterval (v : nat) (st : state) : state :=
  {| socket := socket st; connectionStatus := connectionStatus st;
     pingInterval := v; env := env st |}.

Definition set_env (v : browser) (st : state) : state :=
  {| socket := socket st; connectionStatus := connectionStatus st;
     pingInterval := pingInterval st; env := v |}.

Definition on_env {A} (m : M browser A) : M state A :=
  fun st => let (r, b) := m (env st) in (r, set_env b st).

Definition log (e : effect) : M state unit := on_env (modify (emit e)).
Definition showNotification (n : notice) : M state unit := log (Notify n).
Definition Date_now : M state Z := gets (fun st => now (env st)).
Definition setTimeout (cb : timer_callback) (delay : Z) : M state unit :=
  on_env (modify (schedule (Timer delay cb))).

(** The page element that shows the status is left out. *)
Definition updateConnectionStatus (s : status) : M state unit :=
  modify (set_connectionStatus s).

Definition JSON_stringify (message : jsval) : M state unit :=
  if serializable message then ret tt else throw TypeError.

Definition socket_send (frame : jsval) : M state unit :=
  let* sock := gets socket in
  match sock with
  | None => throw TypeError
  | Some s =>
      match readyState s with
      | CONNECTING => throw InvalidStateError
      | OPEN => log (WsSend frame)
      | CLOSING | CLOSED => ret tt
      end
  end.

(** [message.type], read for the log line that follows the send: reading
    a property of [null] or [undefined] raises. *)
Definition read_type (message : jsval) : M state unit :=
  match message with
  | JUndefined | JNull => throw TypeError
  | _ => ret tt
  end.

Definition sendMessage (message : jsval) : M state bool :=
  let* sock := gets socket in
  if negb (sock_open sock) then
    showNotification N_not_connected ;;
    ret false
  else
    try_catch
      (JSON_stringify message ;;
       socket_send message ;;
       read_type message ;;
       ret true)
      (fun _ =>
         showNotification N_failed_to_send ;;
         ret false).

Definition pingTick : M state unit :=
  let* sock := gets socket in
  when (sock_open sock)
    (let* t := Date_now in
     sendMessage (JObject [("type", JString "ping"); ("timestamp", JNumber t)]) ;;
     ret tt).

Definition startPingInterval : M state unit :=
  log (SetInterval 30000) ;;
  modify (fun st => set_pingInterval (S (pingInterval st)) st).

Definition socket_close (code : option Z) : M state unit :=
  log (WsClose code) ;;
  modify (fun st =>
    match socket st with
    | Some (Socket (CONNECTING | OPEN) o) =>
        set_socket (Some (Socket CLOSING o)) st
    | _ => st
    end).

Definition newWebSocket (o : options) : M state unit :=
  let* ok := gets (fun st => url_valid (env st)) in
  if (ok : bool) then
    log WsNew ;; modify (set_socket (Some (Socket CONNECTING o)))
  else throw SyntaxError.

(** [connectWebSocket(adminToken)]; only the token of the options is used. *)
Definition connectWebSocket (adminToken : jsval) : M state bool :=
  try_catch
    (let* sock := gets socket in
     when (sock_open sock) (socket_close None) ;;
     newWebSocket (Options JUndefined (JBool true) adminToken) ;;
     ret true)
    (fun _ =>
       showNotification N_failed_to_connect ;;
       ret false).

Definition socket_onopen (adminToken : jsval) : M state unit :=
  modify (set_connectionStatus connected) ;;
  updateConnectionStatus connected ;;
  when (truthy adminToken)
    (let* st := get in
     let b := env st in
     sendMessage
       (JObject [("type", JString "hello");
                 ("playerId", JString ("admin_" +:+ pretty (now b)));
                 ("isAdmin", JBool true);
                 ("token", adminToken);
                 ("deviceInfo",
                  JObject [("userAgent", JString (userAgent (device b)));
                           ("platform", JString (platform (device b)))])]) ;;
     ret tt) ;;
  startPingInterval.

Definition attemptReconnect : M state unit :=
  if reconnectAttempts >=? MAX_RECONNECT_ATTEMPTS then
    showNotification N_cannot_reconnect
  else
    setTimeout ReconnectTimer 3000.

Definition handleWebSocketClose (code : Z) : M state unit :=
  modify (set_connectionStatus disconnected) ;;
  updateConnectionStatus disconnected ;;
  when (negb (code =? 1000))
    (showNotification N_connection_lost ;;
     attemptReconnect).

Definition handleWebSocketError : M state unit :=
  modify (set_connectionStatus error) ;;
  updateConnectionStatus error.

(** *** What the browser does to the module *)

(** A pending timeout fires: [connectWebSocket()], the token at its
    default [null]. *)
Definition timer_fires (i : nat) : M state unit :=
  let* ts := gets (fun st => timeouts (env st)) in
  match ts !! i with
  | None => ret tt
  | Some t =>
      on_env (modify (set_timeouts (delete i ts))) ;;
      connectWebSocket JNull ;;
      ret tt
  end.

Definition socket_opens : M state unit :=
  let* sock := gets socket in
  match sock with
  | Some (Socket _ o) =>
      modify (set_socket (Some (Socket OPEN o))) ;;
      socket_onopen (o_adminToken o)
  | None => ret tt
  end.

Definition socket_closes (code : Z) : M state unit :=
  let* sock := gets socket in
  match sock with
  | Some (Socket _ o) =>
      modify (set_socket (Some (Socket CLOSED o))) ;;
      handleWebSocketClose code
  | None => handleWebSocketClose code
  end.

End AdminJs.

(** ** Rules of the specification in its own words

    For the comparison with what the code does.  The drain pass of section
    4.4: examine the head; older than [MAX_AGE]: discard without sending;
    else attempt a send; on success pop and continue; on failure increment
    [retryCount], and if it now exceeds [MAX_RETRIES] discard and continue,
    else stop.  [drain] gives the messages sent, in order, and the queue
    that is left. *)

Module Spec.

Definition MAX_AGE : Z := 5 * 60 * 1000.
Definition MAX_RETRIES : Z := 3.
Definition DELAY_CAP : Z := 30000.

Fixpoint drain (send : queued -> bool) (t : Z) (q : list queued)
  : list queued * list queued :=
  match q with
  | [] => ([], [])
  | m :: r =>
      if t - q_timestamp m >? MAX_AGE then drain send t r
      else if send m then
        let (sent, left) := drain send t r in (m :: sent, left)
      else if q_retryCount (bump m) >? MAX_RETRIES then drain send t r
      else ([], bump m :: r)
  end.

(** Section 4.3: [min(BASE_DELAY * 2^n, DELAY_CAP)]. *)
Definition delay (base n : Z) : Z := Z.min (base * 2 ^ n) DELAY_CAP.

(** Section 4.1: close code 1000 suppresses automatic reconnection; any
    other code is a candidate for reconnection. *)
Definition reconnects_on (code : Z) : bool := negb (code =? 1000).

(** Section 4.2: the link is dead when [now - lastConfirmationAt] exceeds
    twice the probe interval. *)
Definition link_dead (interval lastConfirmationAt t : Z) : bool :=
  t - lastConfirmationAt >? 2 * interval.

End Spec.

(** ** Observations on a trace *)

(** The delays of the timeouts set, oldest first. *)
Fixpoint delays (t : list effect) : list Z :=
  match t with
  | [] => []
  | SetTimeout d :: r => d :: delays r
  | _ :: r => delays r
  end.

(** The notices shown, oldest first. *)
Fixpoint notices (t : list effect) : list notice :=
  match t with
  | [] => []
  | Notify n :: r => n :: notices r
  | _ :: r => notices r
  end.

(** What one dispatch adds to the trace. *)
Definition dispatch_trace (event : string) (data : jsval) (cbs : list callback)
  : list effect :=
  flat_map
    (fun cb =>
       Invoke (cb_id cb) event data ::
       (if cb_raises cb data then [ConsoleError event (Raised (cb_id cb))]
        else []))
    cbs.

(** What [triggerEvent] adds to the trace, from the listener table. *)
Definition listeners_trace (ls : gmap string (list callback))
    (event : string) (data : jsval) : list effect :=
  match ls !! event with
  | Some cbs => dispatch_trace event data cbs
  | None => []
  end.

(** The listeners of an event, none when the table has no entry. *)
Definition listeners_of (ls : gmap string (list callback)) (event : string)
  : list callback :=
  default [] (ls !! event).

(** [n] times [m], one after the other. *)
Fixpoint repeat_m {S} (n : nat) (m : M S unit) : M S unit :=
  match n with
  | O => ret tt
  | S k => m ;; repeat_m k m
  end.

(** ** States the functions of src/websocket.js lead to *)

(** After [attemptReconnection]. *)
Definition wsjs_reconnecting (st : WebsocketJs.state) : WebsocketJs.state :=
  let n := WebsocketJs.reconnectAttempts st + 1 in
  let st1 := WebsocketJs.set_reconnectAttempts n st in
  if n >? WebsocketJs.MAX_RECONNECT_ATTEMPTS then
    WebsocketJs.set_env
      (emit (Notify N_cannot_reconnect) (WebsocketJs.env st)) st1
  else
    WebsocketJs.set_env
      (schedule (Timer (WebsocketJs.backoff n) ReconnectTimer)
         (emit (Notify (N_reconnecting (ceil_seconds (WebsocketJs.backoff n))))
               (WebsocketJs.env st)))
      st1.

(** After the push of [message] on the queue. *)
Definition wsjs_enqueued (message : jsval) (st : WebsocketJs.state)
  : WebsocketJs.state :=
  WebsocketJs.set_messageQueue
    (WebsocketJs.messageQueue st
     ++ [Queued message (now (WebsocketJs.env st)) 0]) st.

(** After one more effect on the trace. *)
Definition wsjs_emitted (e : effect) (st : WebsocketJs.state)
  : WebsocketJs.state :=
  WebsocketJs.set_env (emit e (WebsocketJs.env st)) st.

(** [sendMessage] hands [message] to the transport when the socket is
    [sock]: the message passes the two checks, the socket is open and the
    message can be serialized. *)
Definition can_send (sock : option WebSocket) (message : jsval) : bool :=
  well_formed message && sock_open sock && serializable message.

(** ** The drain pass of src/websocket.js, message by message *)

(** The frame a queue entry is sent as. *)
Definition wsjs_frame (x : queued) : jsval := strip_meta (q_msg x).

Definition wsjs_expired (t : Z) (x : queued) : bool :=
  t - q_timestamp x >? WebsocketJs.maxAge.

(** The entry is handed to the transport by the pass. *)
Definition wsjs_sent (t : Z) (sock : option WebSocket) (x : queued) : bool :=
  negb (wsjs_expired t x) && can_send sock (wsjs_frame x).

(** The entry is still in the queue after the pass. *)
Definition wsjs_stays (t : Z) (sock : option WebSocket) (x : queued) : bool :=
  negb (wsjs_expired t x) && negb (can_send sock (wsjs_frame x))
  && negb (q_retryCount x + 1 >? 3).

(** ** States the functions of src/unnamed/part_000 lead to *)

Definition p000_emitted (e : effect) (st : Part000.state) : Part000.state :=
  Part000.set_env (emit e (Part000.env st)) st.

Definition p000_enqueued (message : jsval) (st : Part000.state)
  : Part000.state :=
  Part000.set_messageQueue
    (Part000.messageQueue st ++ [Queued message (now (Part000.env st)) 0]) st.

Definition p000_status_event (s : Part000.status) (message : string) : jsval :=
  JObject [("status", JString (Part000.status_name s));
           ("message", JString message)].

(** After [updateConnectionStatus]. *)
Definition p000_status_set (s : Part000.status) (message : string)
    (st : Part000.state) : Part000.state :=
  Part000.set_env
    (set_trace
       (trace (Part000.env st)
        ++ listeners_trace (Part000.eventListeners st) "connection_status"
             (p000_status_event s message))
       (Part000.env st))
    (Part000.set_connectionStatus s st).

Definition p000_reconnect_text (delay : Z) : string :=
  "Reconnecting in " +:+ pretty (delay / 1000) +:+ "s...".

(** After [attemptReconnect]. *)
Definition p000_reconnecting (st : Part000.state) : Part000.state :=
  let n := Part000.reconnectAttempts st in
  if n >=? Part000.MAX_RECONNECT_ATTEMPTS then
    p000_emitted (Notify N_cannot_reconnect) st
  else
    let delay := Part000.backoff (n + 1) in
    let st1 :=
      p000_status_set Part000.connecting (p000_reconnect_text delay)
        (Part000.set_reconnectAttempts (n + 1) st) in
    Part000.set_env
      (schedule (Timer delay ReconnectTimer) (Part000.env st1)) st1.

(** ** The drain pass of src/unnamed/part_000, message by message *)

(** The entry is neither over its retries nor too old when the pass
    reaches it. *)
Definition p000_live (t : Z) (x : queued) : bool :=
  negb (q_retryCount x >? 3) && negb (t - q_timestamp x >? 300000).

(** The outcome of a pass over the queue [q] at time [t] on socket [sock]:
    the pass goes through a prefix [pre] of the queue, whose live entries
    are all sent, in queue order, and whose other entries are dropped; it
    ends at the end of the queue, or at the first live entry [h] whose send
    fails, which stays at the head with one more retry counted, before the
    entries [r] that the pass has not looked at. *)
Definition p000_pass (t : Z) (sock : option WebSocket) (q : list queued)
    (sent : list jsval) (left : list queued) : Prop :=
  exists pre post,
    q = pre ++ post
    /\ Forall (fun x => p000_live t x = true ->
                        can_send sock (with_meta x) = true) pre
    /\ sent = map with_meta (List.filter (p000_live t) pre)
    /\ ((post = [] /\ left = [])
        \/ exists h r,
             post = h :: r
             /\ p000_live t h = true
             /\ can_send sock (with_meta h) = false
             /\ left = bump h :: r).

(** ** Sample states and messages *)

Definition sample_device : device_info :=
  DeviceInfo "Mozilla/5.0" "Linux x86_64" "en-US" 1280 720.

(** A browser at time [t], nothing pending, nothing done yet. *)
Definition browser_at (t : Z) : browser := Browser t sample_device true [] [].

Definition player_options : options :=
  Options (JString "player_1") (JBool false) JNull.

(** src/websocket.js as the module is loaded at time [t]. *)
Definition wsjs_loaded (t : Z) : WebsocketJs.state :=
  WebsocketJs.State None 0 false t [] false JNull (JBool false) (JNumber 0)
    ∅ (browser_at t).

(** src/websocket.js with an open connection at time [t], the last
    confirmation recorded at [last]. *)
Definition wsjs_open (last t : Z) (queue : list queued) : WebsocketJs.state :=
  WebsocketJs.State (Some (Socket OPEN player_options)) 0 true last queue true
    (JString "player_1") (JBool false) (JNumber 0) ∅ (browser_at t).

(** src/unnamed/part_000 as the module is loaded at time [t]. *)
Definition p000_loaded (t : Z) : Part000.state :=
  Part000.State None Part000.disconnected 0 0 false []
    Part000.initial_listeners false JNull (JBool false) "player_x"
    (browser_at t).

(** src/unnamed/part_000 with an open connection at time [t]. *)
Definition p000_open (t : Z) (queue : list queued) : Part000.state :=
  Part000.State (Some (Socket OPEN player_options)) Part000.connected 0 0 true
    queue Part000.initial_listeners true (JString "player_1") (JBool false)
    "player_x" (browser_at t).

(** src/unnamed/part_000 while the first connection is being made. *)
Definition p000_connecting (t : Z) : Part000.state :=
  Part000.State (Some (Socket CONNECTING player_options)) Part000.connecting
    0 0 false [] Part000.initial_listeners false (JString "player_1")
    (JBool false) "player_x" (browser_at t).

(** src/admin.js with a connection that is about to be lost. *)
Definition admin_open (t : Z) : AdminJs.state :=
  AdminJs.State (Some (Socket OPEN (Options JUndefined (JBool true) JNull)))
    AdminJs.connected 1 (browser_at t).

Definition msg_chat : jsval :=
  JObject [("type", JString "chat"); ("text", JString "hello")].

Definition msg_mark : jsval :=
  JObject [("type", JString "mark"); ("number", JNumber 42)].

(** A message [JSON.stringify] raises on. *)
Definition msg_win : jsval :=
  JObject [("type", JString "win"); ("amount", JBigInt 500)].

(** ** Consecutive unplanned closures *)

(** The connection is lost with [code], and the timeout the close handler
    has set (if it has set one) fires. *)
Definition wsjs_lost_and_retried (code : Z) : M WebsocketJs.state unit :=
  WebsocketJs.socket_closes code ;; WebsocketJs.timer_fires 0.

Definition p000_lost_and_retried (code : Z) : M Part000.state unit :=
  Part000.socket_closes code ;; Part000.timer_fires 0.

Definition admin_lost_and_retried (code : Z) : M AdminJs.state unit :=
  AdminJs.socket_closes code ;; AdminJs.timer_fires 0.

(** [f (a + 1); f (a + 2); ...; f (a + k)] *)
Fixpoint ramp (f : Z -> Z) (a : Z) (k : nat) : list Z :=
  match k with
  | O => []
  | S k' => f (a + 1) :: ramp f (a + 1) k'
  end.

(** ** The heartbeat timer over time *)

(** The clock of the browser moves to [t]. *)
Definition wsjs_clock (t : Z) (st : WebsocketJs.state) : WebsocketJs.state :=
  WebsocketJs.set_env (set_now t (WebsocketJs.env st)) st.

(** The interval fires at time [t]. *)
Definition wsjs_tick_at (t : Z) : M WebsocketJs.state unit :=
  modify (wsjs_clock t) ;; WebsocketJs.pingTick.

(** The probe the heartbeat sends at time [t]. *)
Definition ping_at (t : Z) : jsval :=
  JObject [("type", JString "ping"); ("timestamp", JNumber t)].

(** src/websocket.js while the first connection is being made. *)
Definition wsjs_connecting (t : Z) : WebsocketJs.state :=
  WebsocketJs.State (Some (Socket CONNECTING player_options)) 0 false t []
    false (JString "player_1") (JBool false) (JNumber 0) ∅ (browser_at t).

(** The modules loaded in a browser that rejects the URL of the server. *)
Definition browser_refusing (t : Z) : browser :=
  Browser t sample_device false [] [].

Definition wsjs_refusing (t : Z) : WebsocketJs.state :=
  WebsocketJs.State None 0 false t [] false JNull (JBool false) (JNumber 0)
    ∅ (browser_refusing t).

Definition p000_refusing (t : Z) : Part000.state :=
  Part000.State None Part000.disconnected 0 0 false []
    Part000.initial_listeners false JNull (JBool false) "player_x"
    (browser_refusing t).


(** ** Invariants of computations *)

(** [m] keeps [I]: from a state where [I] holds, [m] leads to a state where
    [I] holds, whether it returns or raises. *)
Definition keeps {S A} (I : S -> Prop) (m : M S A) : Prop :=
  forall s, I s -> I (snd (m s)).

(** [m] returns: it never ends by raising. *)
Definition returns {S A} (m : M S A) : Prop :=
  forall s, exists a, fst (m s) = Normal a.

(** Intervals set and not cleared. *)
Fixpoint live_intervals (t : list effect) : Z :=
  match t with
  | [] => 0
  | SetInterval _ :: r => live_intervals r + 1
  | ClearInterval :: r => live_intervals r - 1
  | _ :: r => live_intervals r
  end.

(** ** The events src/websocket.js reacts to *)

(** A call of the page, an event of the socket held in [ws] or of a socket
    the module has let go of (its handlers stay attached), a timer, a
    message of the server, or the clock moving on. *)
Inductive wsjs_input : Type :=
| W_initWebSocket (o : options)
| W_sendMessage (message : jsval) (queueIfOffline : bool)
| W_disconnect
| W_reconnect
| W_clearMessageQueue
| W_addEventListener (event : string) (cb : callback)
| W_removeEventListener (event : string) (cb : callback)
| W_close                              (* [close()] on the exported socket *)
| W_socket_opens
| W_socket_closes (code : Z)
| W_socket_errors
| W_stale_onopen (o : options)
| W_stale_onclose (code : Z)
| W_timer_fires (i : nat)
| W_pingTick
| W_ping (message : jsval)
| W_pong (message : jsval)
| W_clock (t : Z).

Definition wsjs_handle (i : wsjs_input) : M WebsocketJs.state unit :=
  match i with
  | W_initWebSocket o => WebsocketJs.initWebSocket o ;; ret tt
  | W_sendMessage m q => WebsocketJs.sendMessage m q ;; ret tt
  | W_disconnect => WebsocketJs.disconnect
  | W_reconnect => WebsocketJs.reconnect ;; ret tt
  | W_clearMessageQueue => WebsocketJs.clearMessageQueue
  | W_addEventListener ev cb => WebsocketJs.addEventListener ev cb
  | W_removeEventListener ev cb => WebsocketJs.removeEventListener ev cb
  | W_close =>
      let* sock := gets WebsocketJs.ws in
      match sock with
      | Some _ => WebsocketJs.ws_close None
      | None => ret tt
      end
  | W_socket_opens => WebsocketJs.socket_opens
  | W_socket_closes code => WebsocketJs.socket_closes code
  | W_socket_errors => WebsocketJs.ws_onerror
  | W_stale_onopen o => WebsocketJs.ws_onopen o
  | W_stale_onclose code => WebsocketJs.ws_onclose code
  | W_timer_fires i => WebsocketJs.timer_fires i
  | W_pingTick => WebsocketJs.pingTick
  | W_ping m => WebsocketJs.handlePing m
  | W_pong m => WebsocketJs.handlePong m
  | W_clock t => modify (wsjs_clock t)
  end.

(** The delays [attemptReconnection] computes for the counter at 1 to 5. *)
Definition wsjs_delays : list Z := [3000; 6000; 12000; 24000; 48000].

Definition wsjs_timer_ok (t : timer) : Prop :=
  timer_callback_of t = ReconnectTimer /\ In (timer_delay t) wsjs_delays.

(** What the transport is handed: an object with a truthy [type] that
    [JSON.stringify] accepts. *)
Definition frame_ok (f : jsval) : Prop :=
  well_formed f = true /\ serializable f = true.

(** The counter stays within its ceiling, the give-up branch of
    [attemptReconnection] has not run, every timeout set or pending is a
    reconnection with one of the five delays, at most one heartbeat
    interval is running, held in [pingInterval], and every frame passed
    the checks of [sendMessage]. *)
Definition wsjs_inv (st : WebsocketJs.state) : Prop :=
  0 <= WebsocketJs.reconnectAttempts st <= 5
  /\ ~ In N_cannot_reconnect (notices (trace (WebsocketJs.env st)))
  /\ Forall wsjs_timer_ok (timeouts (WebsocketJs.env st))
  /\ Forall (fun d => In d wsjs_delays) (delays (trace (WebsocketJs.env st)))
  /\ live_intervals (trace (WebsocketJs.env st))
     = (if WebsocketJs.pingInterval st then 1 else 0)
  /\ Forall frame_ok (frames (trace (WebsocketJs.env st))).

(** Every queue entry is a message that passed the checks, with a retry
    count from 0 to 3. *)
Definition wsjs_queue_inv (st : WebsocketJs.state) : Prop :=
  Forall (fun x => 0 <= q_retryCount x <= 3 /\ well_formed (q_msg x) = true)
         (WebsocketJs.messageQueue st).

(** An effect that is none of the ones [wsjs_inv] speaks about. *)
Definition quiet (e : effect) : bool :=
  match e with
  | WsNew | WsClose _ | Invoke _ _ _ | ConsoleError _ _ => true
  | Notify n => match n with N_cannot_reconnect => false | _ => true end
  | WsSend _ | SetTimeout _ | SetInterval _ | ClearInterval => false
  end.

(** ** The events src/unnamed/part_000 reacts to

    The listeners are the ones registered before the events start: the
    table is a plain object, and a registration under a name every object
    inherits is not one the table above describes. *)

Inductive p000_input : Type :=
| P_connectWebSocket (o : options)
| P_sendMessage (message : jsval) (queueIfOffline : bool)
| P_disconnect
| P_reconnect
| P_socket_opens
| P_socket_closes (code : Z)
| P_socket_errors
| P_stale_onopen (o : options)
| P_stale_onclose (code : Z)
| P_stale_onerror (o : options)
| P_timer_fires (i : nat)
| P_pingTick
| P_ping
| P_pong
| P_clock (t : Z).

Definition p000_clock (t : Z) (st : Part000.state) : Part000.state :=
  Part000.set_env (set_now t (Part000.env st)) st.

Definition p000_handle (i : p000_input) : M Part000.state unit :=
  match i with
  | P_connectWebSocket o => Part000.connectWebSocket o ;; ret tt
  | P_sendMessage m q => Part000.sendMessage m q ;; ret tt
  | P_disconnect => Part000.disconnect
  | P_reconnect => Part000.reconnect ;; ret tt
  | P_socket_opens => Part000.socket_opens
  | P_socket_closes code => Part000.socket_closes code
  | P_socket_errors =>
      let* sock := gets Part000.socket in
      match sock with
      | Some s => Part000.socket_onerror (sock_options s)
      | None => ret tt
      end
  | P_stale_onopen o => Part000.socket_onopen o
  | P_stale_onclose code => Part000.socket_onclose code
  | P_stale_onerror o => Part000.socket_onerror o
  | P_timer_fires i => Part000.timer_fires i
  | P_pingTick => Part000.pingTick
  | P_ping => Part000.on_ping
  | P_pong => Part000.on_pong
  | P_clock t => modify (p000_clock t)
  end.

(** The delays [attemptReconnect] computes for the counter at 1 to 5. *)
Definition p000_delays : list Z := [2000; 4000; 8000; 16000; 30000].

Definition p000_timer_ok (t : timer) : Prop :=
  timer_callback_of t = ReconnectTimer /\ In (timer_delay t) p000_delays.

(** The counter stays within its ceiling, the index of the server in use
    stays at the primary one, every timeout set or pending is a
    reconnection with one of the five delays, at most one heartbeat
    interval is running, held in [pingInterval], and every frame passed
    the checks of [sendMessage]. *)
Definition p000_inv (st : Part000.state) : Prop :=
  0 <= Part000.reconnectAttempts st <= 5
  /\ Part000.currentWSIndex st = 0
  /\ Forall p000_timer_ok (timeouts (Part000.env st))
  /\ Forall (fun d => In d p000_delays) (delays (trace (Part000.env st)))
  /\ live_intervals (trace (Part000.env st))
     = (if Part000.pingInterval st then 1 else 0)
  /\ Forall frame_ok (frames (trace (Part000.env st))).

(** Every queue entry is a message that passed the checks, with a retry
    count from 0 to 4. *)
Definition p000_queue_inv (st : Part000.state) : Prop :=
  Forall (fun x => 0 <= q_retryCount x <= 4 /\ well_formed (q_msg x) = true)
         (Part000.messageQueue st).

(** An effect that is neither a frame, nor a timeout, nor an interval set
    or cleared. *)
Definition silent (e : effect) : bool :=
  match e with
  | WsNew | WsClose _ | Invoke _ _ _ | ConsoleError _ _ | Notify _ => true
  | WsSend _ | SetTimeout _ | SetInterval _ | ClearInterval => false
  end.

(** ** Reconnections of src/admin.js *)

(** The connection is lost with [code], the timeout of the close handler
    fires, and the socket it creates opens. *)
Definition admin_cycle (code : Z) : M AdminJs.state unit :=
  admin_lost_and_retried code ;; AdminJs.socket_opens.

(** Every interval that is running fires once. *)
Definition admin_period : M AdminJs.state unit :=
  let* n := gets AdminJs.pingInterval in
  repeat_m n AdminJs.pingTick.

(** The socket the timeout of [attemptReconnect] creates, once open:
    [connectWebSocket()] leaves the token at [null]. *)
Definition admin_reconnected : WebSocket :=
  Socket OPEN (Options JUndefined (JBool true) JNull).

(** After one [admin_cycle]. *)
Definition admin_cycled (st : AdminJs.state) : AdminJs.state :=
  AdminJs.State (Some admin_reconnected) AdminJs.connected
    (S (AdminJs.pingInterval st))
    (Browser (now (AdminJs.env st)) (device (AdminJs.env st)) true []
       (trace (AdminJs.env st)
        ++ [Notify N_connection_lost; SetTimeout 3000; WsNew;
            SetInterval 30000])).

(** The hello message [socket.onopen] sends for [token] at time [t]. *)
Definition admin_hello (token : jsval) (t : Z) (d : device_info) : jsval :=
  JObject [("type", JString "hello");
           ("playerId", JString ("admin_" +:+ pretty t));
           ("isAdmin", JBool true);
           ("token", token);
           ("deviceInfo",
            JObject [("userAgent", JString (userAgent d));
                     ("platform", JString (platform d))])].

(** ** Passes over a queue whose entries cannot be sent *)

(** The entry is still queued after [k] passes of src/websocket.js that
    could not send it: it has not expired and its retries, with the [k]
    new ones, are within the three allowed. *)
Definition wsjs_kept (t : Z) (k : nat) (x : queued) : bool :=
  negb (wsjs_expired t x) && (q_retryCount x + Z.of_nat k <=? 3).

(** ** Messages sent before the connection is open *)

(** The page sends the messages [ms], one call each. *)
Definition wsjs_sends (ms : list jsval) : M WebsocketJs.state unit :=
  forEach (fun m => WebsocketJs.sendMessage m true ;; ret tt) ms.

Definition p000_sends (ms : list jsval) : M Part000.state unit :=
  forEach (fun m => Part000.sendMessage m true ;; ret tt) ms.

(** [st] has the socket, the clock, the device and the queue of [st0], and
    its transport has been handed the frames [fs] since. *)
Definition wsjs_sent_more (st0 : WebsocketJs.state) (fs : list jsval)
    (st : WebsocketJs.state) : Prop :=
  WebsocketJs.ws st = WebsocketJs.ws st0
  /\ now (WebsocketJs.env st) = now (WebsocketJs.env st0)
  /\ device (WebsocketJs.env st) = device (WebsocketJs.env st0)
  /\ WebsocketJs.messageQueue st = WebsocketJs.messageQueue st0
  /\ frames (trace (WebsocketJs.env st))
     = frames (trace (WebsocketJs.env st0)) ++ fs.

Definition p000_sent_more (st0 : Part000.state) (fs : list jsval)
    (st : Part000.state) : Prop :=
  Part000.socket st = Part000.socket st0
  /\ now (Part000.env st) = now (Part000.env st0)
  /\ device (Part000.env st) = device (Part000.env st0)
  /\ Part000.fresh_player_id st = Part000.fresh_player_id st0
  /\ Part000.messageQueue st = Part000.messageQueue st0
  /\ frames (trace (Part000.env st))
     = frames (trace (Part000.env st0)) ++ fs.

(** The hello message of [sendHelloMessage] for the options [o]. *)
Definition p000_hello (o : options) (fresh : string) (d : device_info)
  : jsval :=
  let message :=
    JObject [("type", JString "hello");
             ("playerId", if truthy (o_playerId o) then o_playerId o
                          else JString fresh);
             ("isAdmin", o_isAdmin o);
             ("deviceInfo", deviceInfo d)] in
  if truthy (o_isAdmin o) && truthy (o_adminToken o)
  then set_field "token" (o_adminToken o) message
  else message.

(** ** The events src/admin.js reacts to *)

Inductive admin_input : Type :=
| A_connectWebSocket (adminToken : jsval)
| A_sendMessage (message : jsval)
| A_socket_opens
| A_socket_closes (code : Z)
| A_socket_errors
| A_stale_onopen (adminToken : jsval)
| A_stale_onclose (code : Z)
| A_timer_fires (i : nat)
| A_pingTick
| A_clock (t : Z).

Definition admin_clock (t : Z) (st : AdminJs.state) : AdminJs.state :=
  AdminJs.set_env (set_now t (AdminJs.env st)) st.

Definition admin_handle (i : admin_input) : M AdminJs.state unit :=
  match i with
  | A_connectWebSocket token => AdminJs.connectWebSocket token ;; ret tt
  | A_sendMessage m => AdminJs.sendMessage m ;; ret tt
  | A_socket_opens => AdminJs.socket_opens
  | A_socket_closes code => AdminJs.socket_closes code
  | A_socket_errors => AdminJs.handleWebSocketError
  | A_stale_onopen token => AdminJs.socket_onopen token
  | A_stale_onclose code => AdminJs.handleWebSocketClose code
  | A_timer_fires i => AdminJs.timer_fires i
  | A_pingTick => AdminJs.pingTick
  | A_clock t => modify (admin_clock t)
  end.

(** The give-up branch of [attemptReconnect] has not run, every timeout
    set or pending is a reconnection 3000 ms ahead, and no interval has
    been cleared. *)
Definition admin_inv (st : AdminJs.state) : Prop :=
  ~ In N_cannot_reconnect (notices (trace (AdminJs.env st)))
  /\ Forall (fun t => t = Timer 3000 ReconnectTimer) (timeouts (AdminJs.env st))
  /\ Forall (fun d => d = 3000) (delays (trace (AdminJs.env st)))
  /\ ~ In ClearInterval (trace (AdminJs.env st)).

(** An effect [admin_inv] does not speak about. *)
Definition admin_quiet (e : effect) : bool :=
  match e with
  | Notify N_cannot_reconnect | SetTimeout _ | ClearInterval => false
  | _ => true
  end.

(** ** A reconnection timeout that fires while the connection is open *)



(** ** src/unnamed/part_000: the game state (lines 34-50 and 323-372)

    The part of [gameState] that the handlers of [game_started],
    [number_called], [player_joined] and [player_left] write, as functions
    on that part.  The notification and the event each handler ends with
    are left out: they do not touch [gameState]. *)

Module Part000Game.

Record player : Type := Player {
  p_id : jsval;
  p_name : jsval;
  p_stake : jsval
}.

Record gameState : Type := GameState {
  gameActive : bool;
  calledNumbers : list jsval;
  playersInRoom : list player
}.

(** [a === b]: primitives by value, two objects never (each message is
    parsed into objects of its own). *)
Definition strict_eq (a b : jsval) : bool :=
  match a, b with
  | JUndefined, JUndefined => true
  | JNull, JNull => true
  | JBool x, JBool y => Bool.eqb x y
  | JNumber x, JNumber y => x =? y
  | JString x, JString y => String.eqb x y
  | JBigInt x, JBigInt y => x =? y
  | _, _ => false
  end.

Definition handleGameStarted (g : gameState) : gameState :=
  {| gameActive := true; calledNumbers := [];
     playersInRoom := playersInRoom g |}.

(** [push], then [shift] when more than 20 numbers are held. *)
Definition handleNumberCalled (message : jsval) (g : gameState) : gameState :=
  let pushed := calledNumbers g ++ [get_field "number" message] in
  {| gameActive := gameActive g;
     calledNumbers := if (20 <? length pushed)%nat then tl pushed else pushed;
     playersInRoom := playersInRoom g |}.

(** [if (!playersInRoom.find(p => p.id === message.playerId)) push(...)];
    [find] gives an entry, which is an object and so truthy, or
    [undefined]. *)
Definition handlePlayerJoined (message : jsval) (g : gameState) : gameState :=
  let pid := get_field "playerId" message in
  if existsb (fun p => strict_eq (p_id p) pid) (playersInRoom g) then g
  else
    {| gameActive := gameActive g; calledNumbers := calledNumbers g;
       playersInRoom :=
         playersInRoom g
         ++ [Player pid (get_field "name" message)
                    (get_field "stake" message)] |}.

(** [playersInRoom.filter(p => p.id !== message.playerId)] *)
Definition handlePlayerLeft (message : jsval) (g : gameState) : gameState :=
  let pid := get_field "playerId" message in
  {| gameActive := gameActive g; calledNumbers := calledNumbers g;
     playersInRoom :=
       List.filter (fun p => negb (strict_eq (p_id p) pid)) (playersInRoom g) |}.

(** The messages of the server these handlers react to. *)
Inductive game_message : Type :=
| game_started
| number_called (message : jsval)
| player_joined (message : jsval)
| player_left (message : jsval).

Definition handle (g : gameState) (m : game_message) : gameState :=
  match m with
  | game_started => handleGameStarted g
  | number_called message => handleNumberCalled message g
  | player_joined message => handlePlayerJoined message g
  | player_left message => handlePlayerLeft message g
  end.

End Part000Game.

(** The last [n] elements of a list. *)
Definition lastn {A} (n : nat) (l : list A) : list A :=
  skipn (length l - n) l.

(** The numbers called since the last [game_started] of a sequence of
    messages, given the ones called before the sequence. *)
Fixpoint called_since_start (before : list jsval)
    (ms : list Part000Game.game_message) : list jsval :=
  match ms with
  | [] => before
  | Part000Game.game_started :: r => called_since_start [] r
  | Part000Game.number_called message :: r =>
      called_since_start (before ++ [get_field "number" message]) r
  | _ :: r => called_since_start before r
  end.

(** No two entries of the list have ids that [===] holds of. *)
Definition distinct_ids (l : list Part000Game.player) : Prop :=
  ForallOrdPairs
    (fun p q => Part000Game.strict_eq (Part000Game.p_id p) (Part000Game.p_id q)
                = false) l.

(** ** The event system on its own, with subscribers that call back

    [addEventListener], [removeEventListener] and [triggerEvent] of
    src/websocket.js (530-557) and of src/unnamed/part_000 (854-877) once
    more, with the two things the connection model above leaves out.  A
    subscriber may call [addEventListener] and [removeEventListener] while
    it is being dispatched to.  And the listener table of part_000 is an
    object literal, which also answers for the names that every object
    inherits.

    An array of callbacks is an object: a table holds references to
    arrays, [push] and [splice] change the array they are called on,
    [filter] makes a new array, and [forEach] walks the array it was called
    on, whatever the table says by then.  A callback is a function, named
    here by a number ([indexOf] and [!==] compare references). *)

Module Listeners.

(** A call a subscriber makes on the event system while it runs. *)
Inductive listener_call : Type :=
| Add (event : string) (cb : nat)        (* addEventListener(event, cb) *)
| Remove (event : string) (cb : nat).    (* removeEventListener(event, cb) *)

(** What a subscriber does when it is called: the calls it makes, in
    order, and whether it then ends by raising. *)
Record reaction : Type := Reaction {
  calls : list listener_call;
  raises : bool
}.

Record store : Type := Store {
  arrays : list (list nat);      (* the arrays made so far; a reference is
                                    the position of the array in this list *)
  table : gmap string nat;       (* [eventListeners]: the array of an event *)
  history : list effect          (* the subscribers called and the errors
                                    logged, oldest first *)
}.

(** The functions that get registered: what the function named [cb] does
    when it is called with [data]; it may depend on all that has happened
    so far. *)
Definition subscribers : Type := nat -> jsval -> store -> reaction.

Definition set_arrays (v : list (list nat)) (s : store) : store :=
  {| arrays := v; table := table s; history := history s |}.

Definition set_table (v : gmap string nat) (s : store) : store :=
  {| arrays := arrays s; table := v; history := history s |}.

Definition record (e : effect) : M store unit :=
  modify (fun s =>
    {| arrays := arrays s; table := table s; history := history s ++ [e] |}).

(** The elements of the array [r]. *)
Definition array_at (r : nat) (s : store) : list nat :=
  default [] (arrays s !! r).

(** [[]] and the result of [filter]: a new array. *)
Definition new_array (l : list nat) : M store nat :=
  fun s => (Normal (length (arrays s)), set_arrays (arrays s ++ [l]) s).

(** [push] and [splice]: the array [r] itself changes. *)
Definition update_array (r : nat) (f : list nat -> list nat) : M store unit :=
  modify (fun s => set_arrays (alter f r (arrays s)) s).

(** [index = l.indexOf(cb); if (index > -1) l.splice(index, 1)] *)
Fixpoint remove_first (cb : nat) (l : list nat) : list nat :=
  match l with
  | [] => []
  | c :: r => if Nat.eqb c cb then r else c :: remove_first cb r
  end.

(** [array.forEach(f)] from index [k] on, [n] indices to go: the length is
    read once, when [forEach] is entered; an index is visited if the array
    has it when its turn comes. *)
Fixpoint forEach_from (f : nat -> M store unit) (r k n : nat) : M store unit :=
  match n with
  | O => ret tt
  | S n' =>
      let* a := gets (array_at r) in
      match a !! k with
      | Some cb => f cb
      | None => ret tt
      end ;;
      forEach_from f r (S k) n'
  end.

Definition array_forEach (f : nat -> M store unit) (r : nat) : M store unit :=
  let* a := gets (array_at r) in
  forEach_from f r 0 (length a).

Section Dispatch.

Variables addEventListener removeEventListener : string -> nat -> M store unit.
Variable subs : subscribers.

Definition run_call (c : listener_call) : M store unit :=
  match c with
  | Add event cb => addEventListener event cb
  | Remove event cb => removeEventListener event cb
  end.

(** The subscriber [cb] is entered with [data]: what it will do. *)
Definition enter (cb : nat) (event : string) (data : jsval)
  : M store reaction :=
  record (Invoke cb event data) ;;
  gets (subs cb data).

(** [callback(data)]: the subscriber is entered, makes its calls (one that
    raises ends it) and returns or raises. *)
Definition call (cb : nat) (event : string) (data : jsval) : M store unit :=
  let* r := enter cb event data in
  forEach run_call (calls r) ;;
  if raises r then throw (Raised cb) else ret tt.

(** [listeners.forEach(callback => { try { callback(data); }
      catch (error) { console.error(..., error); } })] *)
Definition dispatch (event : string) (data : jsval) (r : nat) : M store unit :=
  array_forEach
    (fun cb =>
       try_catch (call cb event data)
                 (fun e => record (ConsoleError event e)))
    r.

End Dispatch.

(** The array of [event], if the table has one. *)
Definition listeners (event : string) (s : store) : list nat :=
  match table s !! event with
  | Some r => array_at r s
  | None => []
  end.

(** The subscribers called, oldest first: which one, for which event and
    with which payload. *)
Fixpoint deliveries (t : list effect) : list (nat * string * jsval) :=
  match t with
  | [] => []
  | Invoke cb event data :: r => (cb, event, data) :: deliveries r
  | _ :: r => deliveries r
  end.

(** A call that removes a listener of [event]. *)
Definition removes (event : string) (c : listener_call) : bool :=
  match c with
  | Remove ev _ => String.eqb ev event
  | Add _ _ => false
  end.

End Listeners.

(** *** src/websocket.js 530-557: [eventListeners] is a [Map] *)

Module WebsocketJsEvents.
Import Listeners.

(** [new Map()] *)
Definition loaded : store := Store [] ∅ [].

Definition addEventListener (event : string) (cb : nat) : M store unit :=
  let* t := gets table in
  let* r :=
    match t !! event with
    | Some r => ret r
    | None =>
        let* r := new_array [] in
        modify (set_table (<[event := r]> t)) ;;
        ret r
    end in
  update_array r (fun l => l ++ [cb]).

Definition removeEventListener (event : string) (cb : nat) : M store unit :=
  let* t := gets table in
  match t !! event with
  | Some r => update_array r (remove_first cb)
  | None => ret tt
  end.

Definition triggerEvent (subs : subscribers) (event : string) (data : jsval)
  : M store unit :=
  let* t := gets table in
  match t !! event with
  | Some r => dispatch addEventListener removeEventListener subs event data r
  | None => ret tt
  end.

End WebsocketJsEvents.

(** *** src/unnamed/part_000 26-31 and 854-877: [eventListeners] is an
    object literal *)

Module Part000Events.
Import Listeners.

(** The names an object literal inherits from [Object.prototype]: eleven
    functions and the accessor [__proto__], none of them an array. *)
Definition inherited (event : string) : bool :=
  existsb (String.eqb event)
    ["constructor"; "hasOwnProperty"; "isPrototypeOf";
     "propertyIsEnumerable"; "toLocaleString"; "toString"; "valueOf";
     "__defineGetter__"; "__defineSetter__"; "__lookupGetter__";
     "__lookupSetter__"; "__proto__"].

(** What [eventListeners[event]] gives. *)
Inductive property : Type :=
| Own (r : nat)      (* an array of the table, truthy also when empty *)
| Inherited          (* truthy, without [push], [filter] or [forEach] *)
| Missing.           (* [undefined] *)

Definition lookup_property (event : string) (s : store) : property :=
  match table s !! event with
  | Some r => Own r
  | None => if inherited event then Inherited else Missing
  end.

(** [{ onopen: [], onclose: [], onerror: [], onmessage: [] }] *)
Definition loaded : store :=
  Store [[]; []; []; []]
        (<["onopen" := 0%nat]> (<["onclose" := 1%nat]> (<["onerror" := 2%nat]>
           (<["onmessage" := 3%nat]> ∅))))
        [].

Definition addEventListener (event : string) (cb : nat) : M store unit :=
  let* p := gets (lookup_property event) in
  let* r :=
    match p with
    | Own r => ret r
    | Inherited => throw TypeError
    | Missing =>
        let* r := new_array [] in
        modify (fun s => set_table (<[event := r]> (table s)) s) ;;
        ret r
    end in
  update_array r (fun l => l ++ [cb]).

Definition removeEventListener (event : string) (cb : nat) : M store unit :=
  let* p := gets (lookup_property event) in
  match p with
  | Own r =>
      let* a := gets (array_at r) in
      let* r' := new_array (List.filter (fun c => negb (Nat.eqb c cb)) a) in
      modify (fun s => set_table (<[event := r']> (table s)) s)
  | Inherited => throw TypeError
  | Missing => ret tt
  end.

Definition triggerEvent (subs : subscribers) (event : string) (data : jsval)
  : M store unit :=
  let* p := gets (lookup_property event) in
  match p with
  | Own r => dispatch addEventListener removeEventListener subs event data r
  | Inherited => throw TypeError
  | Missing => ret tt
  end.

End Part000Events.

(** A subscriber that takes itself off [event] when it is called, among
    subscribers that do nothing. *)
Definition once (cb : nat) (event : string) : Listeners.subscribers :=
  fun c _ _ =>
    if Nat.eqb c cb then Listeners.Reaction [Listeners.Remove event cb] false
    else Listeners.Reaction [] false.

(** What happens to an event system between two dispatches and during
    one: a call of [addEventListener] or [removeEventListener], by the page
    or by a subscriber, or a dispatch. *)
Inductive listener_input : Type :=
| L_call (c : Listeners.listener_call)
| L_triggerEvent (event : string) (data : jsval).

Definition wsjs_listener_handle (subs : Listeners.subscribers)
    (i : listener_input) : M Listeners.store unit :=
  match i with
  | L_call c =>
      Listeners.run_call WebsocketJsEvents.addEventListener
                         WebsocketJsEvents.removeEventListener c
  | L_triggerEvent event data => WebsocketJsEvents.triggerEvent subs event data
  end.

Definition p000_listener_handle (subs : Listeners.subscribers)
    (i : listener_input) : M Listeners.store unit :=
  match i with
  | L_call c =>
      Listeners.run_call Part000Events.addEventListener
                         Part000Events.removeEventListener c
  | L_triggerEvent event data => Part000Events.triggerEvent subs event data
  end.

(** The array [r] begins with the elements [l]. *)
Definition begins_with (r : nat) (l : list nat) (s : Listeners.store) : Prop :=
  exists more, Listeners.arrays s !! r = Some (l ++ more).

(** Every event of the table has its array, and no two events share one. *)
Definition tidy (s : Listeners.store) : Prop :=
  (forall ev r, Listeners.table s !! ev = Some r ->
                (r < length (Listeners.arrays s))%nat)
  /\ (forall ev1 ev2 r,
        Listeners.table s !! ev1 = Some r ->
        Listeners.table s !! ev2 = Some r -> ev1 = ev2).

(** What a dispatch of [event] with [data] to the subscribers [l] adds to
    [deliveries]. *)
Definition delivered (event : string) (data : jsval) (l : list nat)
  : list (nat * string * jsval) :=
  map (fun cb => (cb, event, data)) l.

(** * Properties *)

Lemma frames_app (t1 t2 : list effect) :
  frames (t1 ++ t2) = frames t1 ++ frames t2.
Proof.
  induction t1 as [|e t1 IH]; [reflexivity|].
  destruct e; simpl; rewrite ?IH; reflexivity.
Qed.

Lemma closes_app (t1 t2 : list effect) :
  closes (t1 ++ t2) = closes t1 ++ closes t2.
Proof.
  induction t1 as [|e t1 IH]; [reflexivity|].
  destruct e; simpl; rewrite ?IH; reflexivity.
Qed.

Lemma interval_calls_app (t1 t2 : list effect) :
  interval_calls (t1 ++ t2) = interval_calls t1 ++ interval_calls t2.
Proof.
  induction t1 as [|e t1 IH]; [reflexivity|].
  destruct e; simpl; rewrite ?IH; reflexivity.
Qed.

Lemma invoked_app (ev : string) (t1 t2 : list effect) :
  invoked ev (t1 ++ t2) = invoked ev t1 ++ invoked ev t2.
Proof.
  induction t1 as [|e t1 IH]; [reflexivity|].
  destruct e; simpl; rewrite ?IH; try reflexivity.
  destruct (String.eqb event ev); simpl; rewrite ?IH; reflexivity.
Qed.

Lemma delays_app (t1 t2 : list effect) :
  delays (t1 ++ t2) = delays t1 ++ delays t2.
Proof.
  induction t1 as [|e t1 IH]; [reflexivity|].
  destruct e; simpl; rewrite ?IH; reflexivity.
Qed.

Lemma notices_app (t1 t2 : list effect) :
  notices (t1 ++ t2) = notices t1 ++ notices t2.
Proof.
  induction t1 as [|e t1 IH]; [reflexivity|].
  destruct e; simpl; rewrite ?IH; reflexivity.
Qed.

(** ** The dispatch loop *)

Lemma dispatch_eq (event : string) (data : jsval) (cbs : list callback)
    (b : browser) :
  dispatch event data cbs b
  = (Normal tt, set_trace (trace b ++ dispatch_trace event data cbs) b).
Proof.
  revert b. induction cbs as [|cb cbs IH]; intros b.
  - cbn. unfold set_trace. rewrite app_nil_r. destruct b; reflexivity.
  - unfold dispatch in *. cbn [forEach].
    unfold bind at 1. unfold try_catch, call, bind, modify.
    destruct (cb_raises cb data) eqn:Hr.
    + cbn. rewrite IH. cbn. rewrite Hr. cbn.
      unfold set_trace. cbn. rewrite <- !app_assoc. reflexivity.
    + cbn. rewrite IH. cbn. rewrite Hr. cbn.
      unfold set_trace. cbn. rewrite <- !app_assoc. reflexivity.
Qed.

Lemma dispatch_trace_frames ev d cbs : frames (dispatch_trace ev d cbs) = [].
Proof.
  induction cbs as [|cb cbs IH]; [reflexivity|].
  cbn. destruct (cb_raises cb d); cbn; exact IH.
Qed.

Lemma dispatch_trace_closes ev d cbs : closes (dispatch_trace ev d cbs) = [].
Proof.
  induction cbs as [|cb cbs IH]; [reflexivity|].
  cbn. destruct (cb_raises cb d); cbn; exact IH.
Qed.

Lemma dispatch_trace_interval_calls ev d cbs :
  interval_calls (dispatch_trace ev d cbs) = [].
Proof.
  induction cbs as [|cb cbs IH]; [reflexivity|].
  cbn. destruct (cb_raises cb d); cbn; exact IH.
Qed.

Lemma dispatch_trace_delays ev d cbs : delays (dispatch_trace ev d cbs) = [].
Proof.
  induction cbs as [|cb cbs IH]; [reflexivity|].
  cbn. destruct (cb_raises cb d); cbn; exact IH.
Qed.

Lemma dispatch_trace_notices ev d cbs : notices (dispatch_trace ev d cbs) = [].
Proof.
  induction cbs as [|cb cbs IH]; [reflexivity|].
  cbn. destruct (cb_raises cb d); cbn; exact IH.
Qed.

Lemma dispatch_trace_invoked ev d cbs :
  invoked ev (dispatch_trace ev d cbs) = map cb_id cbs.
Proof.
  unfold dispatch_trace.
  induction cbs as [|cb cbs IH]; [reflexivity|].
  cbn. rewrite String.eqb_refl.
  destruct (cb_raises cb d); cbn; rewrite IH; reflexivity.
Qed.

Lemma listeners_trace_frames ls ev d : frames (listeners_trace ls ev d) = [].
Proof.
  unfold listeners_trace. destruct (ls !! ev); [apply dispatch_trace_frames|reflexivity].
Qed.

Lemma listeners_trace_closes ls ev d : closes (listeners_trace ls ev d) = [].
Proof.
  unfold listeners_trace. destruct (ls !! ev); [apply dispatch_trace_closes|reflexivity].
Qed.

Lemma listeners_trace_interval_calls ls ev d :
  interval_calls (listeners_trace ls ev d) = [].
Proof.
  unfold listeners_trace.
  destruct (ls !! ev); [apply dispatch_trace_interval_calls|reflexivity].
Qed.

Lemma listeners_trace_delays ls ev d : delays (listeners_trace ls ev d) = [].
Proof.
  unfold listeners_trace. destruct (ls !! ev); [apply dispatch_trace_delays|reflexivity].
Qed.

Lemma listeners_trace_notices ls ev d : notices (listeners_trace ls ev d) = [].
Proof.
  unfold listeners_trace. destruct (ls !! ev); [apply dispatch_trace_notices|reflexivity].
Qed.

Lemma listeners_trace_invoked ls ev d :
  invoked ev (listeners_trace ls ev d) = map cb_id (listeners_of ls ev).
Proof.
  unfold listeners_trace, listeners_of.
  destruct (ls !! ev); [apply dispatch_trace_invoked|reflexivity].
Qed.

Lemma well_formed_checks (m : jsval) :
  negb (truthy m) || negb (typeof_object m) = false ->
  negb (truthy (get_field "type" m)) = false ->
  well_formed m = true.
Proof.
  unfold well_formed. intros H1 H2.
  apply orb_false_elim in H1 as [Ha Hb].
  apply negb_false_iff in Ha, Hb, H2. rewrite Ha, Hb, H2. reflexivity.
Qed.

Lemma not_well_formed_checks (m : jsval) :
  well_formed m = false ->
  (if negb (truthy m) || negb (typeof_object m) then true
   else negb (truthy (get_field "type" m))) = true.
Proof.
  unfold well_formed.
  destruct (truthy m), (typeof_object m), (truthy (get_field "type" m));
    cbn; congruence.
Qed.

Lemma ramp_seq (f : Z -> Z) (k : nat) :
  forall a, ramp f a k = map (fun n => f (a + Z.of_nat n)) (seq 1 k).
Proof.
  induction k as [|k IH]; intros a; [reflexivity|].
  cbn [ramp seq map]. rewrite IH. f_equal.
  rewrite <- (seq_shift k 1), map_map. apply map_ext. intros n. f_equal. lia.
Qed.

Lemma ramp_step (f : Z -> Z) (a : Z) (k : nat) :
  a < 5 ->
  ramp f a (Nat.min (S k) (Z.to_nat (5 - a)))
  = f (a + 1) :: ramp f (a + 1) (Nat.min k (Z.to_nat (5 - (a + 1)))).
Proof.
  intros Ha.
  replace (Z.to_nat (5 - a)) with (S (Z.to_nat (5 - (a + 1)))) by lia.
  reflexivity.
Qed.

Lemma ramp_done (f : Z -> Z) (a : Z) (k : nat) :
  5 <= a -> ramp f a (Nat.min k (Z.to_nat (5 - a))) = [].
Proof.
  intros Ha. replace (Z.to_nat (5 - a)) with O by lia.
  rewrite Nat.min_0_r. reflexivity.
Qed.

(** Registration puts the callback at the end of the list of its event. *)
Lemma listeners_of_registered (ls : gmap string (list callback))
    (event : string) (cb : callback) :
  listeners_of
    (alter (fun l => l ++ [cb]) event
       (if bool_decide (is_Some (ls !! event)) then ls
        else <[event := []]> ls))
    event
  = listeners_of ls event ++ [cb].
Proof.
  unfold listeners_of. rewrite lookup_alter_eq.
  destruct (ls !! event) as [l|] eqn:E.
  - rewrite bool_decide_eq_true_2 by eauto.
    rewrite E. reflexivity.
  - rewrite bool_decide_eq_false_2 by (intros [? ?]; discriminate).
    rewrite lookup_insert_eq. reflexivity.
Qed.

(** ** Rules for [keeps] and [returns] *)

Section KeepsRules.
Context {S : Type} (I : S -> Prop).

Lemma keeps_ret {A} (a : A) : keeps I (ret a).
Proof. intros s H. exact H. Qed.

Lemma keeps_throw {A} (e : exn) : keeps I (@throw S A e).
Proof. intros s H. exact H. Qed.

Lemma keeps_gets {A} (f : S -> A) : keeps I (gets f).
Proof. intros s H. exact H. Qed.

Lemma keeps_get : keeps I (@get S).
Proof. intros s H. exact H. Qed.

Lemma keeps_bind {A B} (m : M S A) (k : A -> M S B) :
  keeps I m -> (forall a, keeps I (k a)) -> keeps I (bind m k).
Proof.
  intros Hm Hk s H. unfold bind. specialize (Hm s H).
  destruct (m s) as [[a|e] s']; cbn in *; [apply Hk; exact Hm | exact Hm].
Qed.

(** The value read is the one of the state the rest starts from. *)
Lemma keeps_bind_gets {A B} (f : S -> A) (k : A -> M S B) :
  (forall s, I s -> I (snd (k (f s) s))) -> keeps I (bind (gets f) k).
Proof. intros Hk s H. unfold bind, gets. apply Hk. exact H. Qed.

Lemma keeps_when (b : bool) (m : M S unit) :
  keeps I m -> keeps I (when b m).
Proof. intros Hm. destruct b; [exact Hm | apply keeps_ret]. Qed.

Lemma keeps_try_catch {A} (body : M S A) (handler : exn -> M S A) :
  keeps I body -> (forall e, keeps I (handler e)) ->
  keeps I (try_catch body handler).
Proof.
  intros Hb Hh s H. unfold try_catch. specialize (Hb s H).
  destruct (body s) as [[a|e] s']; cbn in *; [exact Hb | apply Hh; exact Hb].
Qed.

Lemma keeps_forEach {A} (f : A -> M S unit) (l : list A) :
  (forall x, keeps I (f x)) -> keeps I (forEach f l).
Proof.
  intros Hf. induction l as [|x l IH]; [apply keeps_ret|].
  cbn [forEach]. apply keeps_bind; [apply Hf | intros _; exact IH].
Qed.

Lemma keeps_repeat_m (n : nat) (m : M S unit) :
  keeps I m -> keeps I (repeat_m n m).
Proof.
  intros Hm. induction n as [|n IH]; [apply keeps_ret|].
  cbn [repeat_m]. apply keeps_bind; [exact Hm | intros _; exact IH].
Qed.

Lemma keeps_modify (f : S -> S) :
  (forall s, I s -> I (f s)) -> keeps I (modify f).
Proof. intros Hf s H. apply Hf. exact H. Qed.

End KeepsRules.

Section ReturnsRules.
Context {S : Type}.

Lemma returns_ret {A} (a : A) : returns (@ret S A a).
Proof. intros s. exists a. reflexivity. Qed.

Lemma returns_gets {A} (f : S -> A) : returns (gets f).
Proof. intros s. eexists. reflexivity. Qed.

Lemma returns_get : returns (@get S).
Proof. intros s. eexists. reflexivity. Qed.

Lemma returns_modify (f : S -> S) : returns (modify f).
Proof. intros s. eexists. reflexivity. Qed.

Lemma returns_bind {A B} (m : M S A) (k : A -> M S B) :
  returns m -> (forall a, returns (k a)) -> returns (bind m k).
Proof.
  intros Hm Hk s. unfold bind. destruct (Hm s) as [a Ha].
  destruct (m s) as [r s']. cbn in Ha. subst r. apply Hk.
Qed.

Lemma returns_when (b : bool) (m : M S unit) :
  returns m -> returns (when b m).
Proof. intros Hm. destruct b; [exact Hm | apply returns_ret]. Qed.

(** A handler that returns makes the whole [try] return. *)
Lemma returns_try_catch {A} (body : M S A) (handler : exn -> M S A) :
  (forall e, returns (handler e)) -> returns (try_catch body handler).
Proof.
  intros Hh s. unfold try_catch.
  destruct (body s) as [[a|e] s']; [exists a; reflexivity | apply Hh].
Qed.

Lemma returns_forEach {A} (f : A -> M S unit) (l : list A) :
  (forall x, returns (f x)) -> returns (forEach f l).
Proof.
  intros Hf. induction l as [|x l IH]; [apply returns_ret|].
  cbn [forEach]. apply returns_bind; [apply Hf | intros _; exact IH].
Qed.

Lemma returns_repeat_m (n : nat) (m : M S unit) :
  returns m -> returns (repeat_m n m).
Proof.
  intros Hm. induction n as [|n IH]; [apply returns_ret|].
  cbn [repeat_m]. apply returns_bind; [exact Hm | intros _; exact IH].
Qed.

Lemma returns_run {A} (m : M S A) (s : S) :
  returns m -> exists a, m s = (Normal a, snd (m s)).
Proof.
  intros Hm. destruct (Hm s) as [a Ha]. exists a.
  destruct (m s) as [r s']. cbn in *. subst r. reflexivity.
Qed.

End ReturnsRules.

(** One structural step on a goal [keeps I m] or [returns m]. *)
Ltac keeps_step :=
  lazymatch goal with
  | |- keeps _ (bind _ _) => apply keeps_bind; [| intros ?]
  | |- keeps _ (ret _) => apply keeps_ret
  | |- keeps _ (throw _) => apply keeps_throw
  | |- keeps _ (gets _) => apply keeps_gets
  | |- keeps _ get => apply keeps_get
  | |- keeps _ (when _ _) => apply keeps_when
  | |- keeps _ (try_catch _ _) => apply keeps_try_catch; [| intros ?]
  | |- keeps _ (forEach _ _) => apply keeps_forEach; intros ?
  | |- keeps _ (if ?b then _ else _) => destruct b eqn:?
  | |- keeps _ (match ?x with _ => _ end) => destruct x eqn:?
  | |- returns (bind _ _) => apply returns_bind; [| intros ?]
  | |- returns (ret _) => apply returns_ret
  | |- returns (gets _) => apply returns_gets
  | |- returns get => apply returns_get
  | |- returns (modify _) => apply returns_modify
  | |- returns (when _ _) => apply returns_when
  | |- returns (try_catch _ _) => apply returns_try_catch; intros ?
  | |- returns (forEach _ _) => apply returns_forEach; intros ?
  | |- returns (if ?b then _ else _) => destruct b eqn:?
  | |- returns (match ?x with _ => _ end) => destruct x eqn:?
  end.

(** ** src/websocket.js: what each function does to the state *)

Section WebsocketJsFacts.
Import WebsocketJs.

Ltac munfold :=
  unfold showNotification, log, Date_now, setTimeout, on_env,
    bind, ret, gets, get, modify, when, throw, try_catch in *.

Lemma wsjs_triggerEvent_eq (event : string) (data : jsval) (st : state) :
  triggerEvent event data st
  = (Normal tt,
     set_env (set_trace (trace (env st)
                         ++ listeners_trace (eventListeners st) event data)
                        (env st)) st).
Proof.
  unfold triggerEvent, listeners_trace. munfold.
  destruct (eventListeners st !! event) as [cbs|].
  - rewrite dispatch_eq. reflexivity.
  - rewrite app_nil_r. destruct st as [? ? ? ? ? ? ? ? ? ? []]; reflexivity.
Qed.

Lemma wsjs_attemptReconnection_eq (st : state) :
  attemptReconnection st = (Normal tt, wsjs_reconnecting st).
Proof.
  unfold attemptReconnection, wsjs_reconnecting. munfold. cbn.
  destruct (reconnectAttempts st + 1 >? MAX_RECONNECT_ATTEMPTS); reflexivity.
Qed.

Lemma wsjs_sendMessage_eq (m : jsval) (q : bool) (st : state) :
  sendMessage m q st
  = if well_formed m then
      if sock_open (ws st) then
        if serializable m then (Normal true, wsjs_emitted (WsSend m) st)
        else
          (Normal false,
           let st1 := wsjs_emitted (Notify N_failed_to_send) st in
           if q then wsjs_enqueued m st1 else st1)
      else
        (Normal false,
         let st1 := if q then wsjs_enqueued m st else st in
         if negb (connected st1) && (reconnectAttempts st1 =? 0)
         then wsjs_reconnecting st1 else st1)
    else (Normal false, st).
Proof.
  unfold sendMessage.
  destruct (well_formed m) eqn:Hw.
  - unfold well_formed in Hw.
    apply andb_prop in Hw as [Hw Hty]. apply andb_prop in Hw as [Htr Hob].
    rewrite Htr, Hob, Hty. cbn [negb orb]. munfold.
    destruct (sock_open (ws st)) eqn:Ho; cbn [negb].
    + unfold JSON_stringify. destruct (serializable m); munfold.
      * unfold ws_send. munfold. unfold sock_open in Ho.
        destruct (ws st) as [[[] o]|]; try discriminate. reflexivity.
      * destruct q; reflexivity.
    + destruct q; cbn -[attemptReconnection];
        (destruct (negb (connected st) && (reconnectAttempts st =? 0));
         cbn -[attemptReconnection];
         [rewrite wsjs_attemptReconnection_eq|]; reflexivity).
  - apply not_well_formed_checks in Hw.
    destruct (negb (truthy m) || negb (typeof_object m)); [reflexivity|].
    rewrite Hw. reflexivity.
Qed.

(** A send that does not queue leaves the socket, the queue and the clock
    alone. *)
Lemma wsjs_sendMessage_false (m : jsval) (st : state) :
  exists st1,
    sendMessage m false st = (Normal (can_send (ws st) m), st1)
    /\ ws st1 = ws st
    /\ messageQueue st1 = messageQueue st
    /\ now (env st1) = now (env st)
    /\ frames (trace (env st1))
       = frames (trace (env st)) ++ (if can_send (ws st) m then [m] else []).
Proof.
  rewrite wsjs_sendMessage_eq. unfold can_send.
  destruct (well_formed m); cbn [andb].
  - destruct (sock_open (ws st)); cbn [andb].
    + destruct (serializable m); eexists; (split; [reflexivity|]); cbn;
        rewrite frames_app; cbn; rewrite ?app_nil_r; auto.
    + eexists; split; [reflexivity|].
      destruct (negb (connected st) && (reconnectAttempts st =? 0)).
      * unfold wsjs_reconnecting.
        destruct (reconnectAttempts st + 1 >? MAX_RECONNECT_ATTEMPTS); cbn;
          rewrite ?frames_app; cbn; rewrite ?app_nil_r; auto.
      * rewrite app_nil_r. auto.
  - eexists; split; [reflexivity|]. rewrite app_nil_r. auto.
Qed.

Lemma wsjs_drain_from (t0 : Z) (pre : list queued) :
  forall (post : list queued) (st : state),
    messageQueue st = pre ++ post ->
    exists st',
      drain_from t0 (length pre) st = (Normal tt, st')
      /\ ws st' = ws st
      /\ messageQueue st'
         = map bump (List.filter (wsjs_stays t0 (ws st)) pre) ++ post
      /\ frames (trace (env st'))
         = frames (trace (env st))
           ++ map wsjs_frame (rev (List.filter (wsjs_sent t0 (ws st)) pre)).
Proof.
  induction pre as [|x pre IH] using rev_ind; intros post st Hq.
  - eexists. split; [reflexivity|]. cbn. rewrite app_nil_r. auto.
  - rewrite length_app. cbn [length]. rewrite Nat.add_1_r.
    cbn [drain_from]. rewrite <- app_assoc in Hq. cbn [app] in Hq.
    unfold bind at 1. unfold drain_at. munfold.
    rewrite Hq, list_lookup_middle by reflexivity.
    rewrite !List.filter_app, !map_app, rev_app_distr. cbn [List.filter].
    fold (wsjs_expired t0 x). fold (wsjs_frame x).
    destruct (wsjs_expired t0 x) eqn:Hex.
    + assert (Hst : wsjs_stays t0 (ws st) x = false)
        by (unfold wsjs_stays; rewrite Hex; reflexivity).
      assert (Hse : wsjs_sent t0 (ws st) x = false)
        by (unfold wsjs_sent; rewrite Hex; reflexivity).
      rewrite Hst, Hse. cbn [map rev app].
      unfold splice. munfold. rewrite Hq, delete_middle.
      destruct (IH post (set_messageQueue (pre ++ post) st) eq_refl)
        as (st' & Hrun & Hws & Hmq & Hfr).
      exists st'. rewrite Hrun. cbn in Hws, Hmq, Hfr.
      rewrite !app_nil_r. auto.
    + destruct (wsjs_sendMessage_false (wsjs_frame x) st)
        as (st1 & Hs & Hws1 & Hmq1 & _ & Hfr1).
      rewrite Hs.
      destruct (can_send (ws st) (wsjs_frame x)) eqn:Hok.
      * assert (Hst : wsjs_stays t0 (ws st) x = false)
          by (unfold wsjs_stays; rewrite Hex, Hok; reflexivity).
        assert (Hse : wsjs_sent t0 (ws st) x = true)
          by (unfold wsjs_sent; rewrite Hex, Hok; reflexivity).
        rewrite Hst, Hse. cbn [map rev app].
        unfold splice. munfold. rewrite Hmq1, Hq, delete_middle.
        destruct (IH post (set_messageQueue (pre ++ post) st1) eq_refl)
          as (st' & Hrun & Hws & Hmq & Hfr).
        exists st'. rewrite Hrun. cbn in Hws, Hmq, Hfr. rewrite Hws1 in *.
        rewrite app_nil_r. rewrite Hfr, Hfr1, <- !app_assoc.
        auto.
      * assert (Hse : wsjs_sent t0 (ws st) x = false)
          by (unfold wsjs_sent; rewrite Hex, Hok; reflexivity).
        rewrite Hse. cbn [map rev app].
        rewrite Hmq1, Hq.
        rewrite insert_app_r_alt, Nat.sub_diag by reflexivity.
        cbn [insert list_insert].
        destruct (q_retryCount x + 1 >? 3) eqn:Hrc.
        -- assert (Hst : wsjs_stays t0 (ws st) x = false)
             by (unfold wsjs_stays; rewrite Hex, Hok, Hrc; reflexivity).
           rewrite Hst. cbn [map app].
           unfold splice. munfold. cbn [messageQueue set_messageQueue].
           rewrite delete_middle.
           destruct (IH post (set_messageQueue (pre ++ post)
                       (set_messageQueue (pre ++ bump x :: post) st1)) eq_refl)
             as (st' & Hrun & Hws & Hmq & Hfr).
           exists st'. rewrite Hrun. cbn in Hws, Hmq, Hfr. rewrite Hws1 in *.
           rewrite !app_nil_r. rewrite Hfr, Hfr1, app_nil_r. auto.
        -- assert (Hst : wsjs_stays t0 (ws st) x = true)
             by (unfold wsjs_stays; rewrite Hex, Hok, Hrc; reflexivity).
           rewrite Hst. cbn [map app when]. munfold.
           destruct (IH (bump x :: post)
                       (set_messageQueue (pre ++ bump x :: post) st1) eq_refl)
             as (st' & Hrun & Hws & Hmq & Hfr).
           exists st'. rewrite Hrun. cbn in Hws, Hmq, Hfr. rewrite Hws1 in *.
           rewrite Hfr, Hfr1, !app_nil_r, <- app_assoc. auto.
Qed.

(** The pass of [websocket.js] visits the newest message first: the frames
    go out in the reverse of the queue order, and a failed send does not
    end the pass. *)
Lemma wsjs_processMessageQueue_eq (st : state) :
  exists st',
    processMessageQueue st = (Normal tt, st')
    /\ ws st' = ws st
    /\ messageQueue st'
       = map bump (List.filter (wsjs_stays (now (env st)) (ws st))
                               (messageQueue st))
    /\ frames (trace (env st'))
       = frames (trace (env st))
         ++ map wsjs_frame
              (rev (List.filter (wsjs_sent (now (env st)) (ws st))
                                (messageQueue st))).
Proof.
  unfold processMessageQueue. munfold.
  destruct (wsjs_drain_from (now (env st)) (messageQueue st) [] st)
    as (st' & Hrun & Hws & Hmq & Hfr).
  { rewrite app_nil_r. reflexivity. }
  exists st'. rewrite Hrun, Hmq, app_nil_r. auto.
Qed.

Lemma wsjs_below_ceiling (n : Z) :
  (n <? MAX_RECONNECT_ATTEMPTS) = true ->
  (n + 1 >? MAX_RECONNECT_ATTEMPTS) = false.
Proof. unfold MAX_RECONNECT_ATTEMPTS. lia. Qed.

(** The close handler: whether a reconnection is scheduled, and what is
    left alone. *)
Lemma wsjs_ws_onclose_spec (code : Z) (st : state) :
  let retry := negb (code =? 1000) && negb (code =? 1001)
               && (reconnectAttempts st <? MAX_RECONNECT_ATTEMPTS) in
  exists st',
    ws_onclose code st = (Normal tt, st')
    /\ reconnectAttempts st'
       = (if retry then reconnectAttempts st + 1 else reconnectAttempts st)
    /\ timeouts (env st')
       = timeouts (env st)
         ++ (if retry
             then [Timer (backoff (reconnectAttempts st + 1)) ReconnectTimer]
             else [])
    /\ delays (trace (env st'))
       = delays (trace (env st))
         ++ (if retry then [backoff (reconnectAttempts st + 1)] else [])
    /\ ws st' = None
    /\ url_valid (env st') = url_valid (env st)
    /\ messageQueue st' = messageQueue st.
Proof.
  intros retry. subst retry.
  unfold ws_onclose, stopPingInterval. munfold.
  cbn -[attemptReconnection triggerEvent].
  destruct (pingInterval st); cbn -[attemptReconnection triggerEvent];
    (destruct (negb (code =? 1000) && negb (code =? 1001)
               && (reconnectAttempts st <? MAX_RECONNECT_ATTEMPTS)) eqn:Hretry;
     [ apply andb_prop in Hretry as [_ Hn]; apply wsjs_below_ceiling in Hn;
       rewrite wsjs_attemptReconnection_eq; unfold wsjs_reconnecting;
       cbn -[triggerEvent]; rewrite Hn; cbn -[triggerEvent]
     | cbn -[triggerEvent] ];
     rewrite wsjs_triggerEvent_eq; eexists; (split; [reflexivity|]);
     cbn; rewrite ?delays_app, ?listeners_trace_delays; cbn;
     rewrite ?app_nil_r, <- ?app_assoc; repeat split; reflexivity).
Qed.

Lemma wsjs_initWebSocket_fresh (o : options) (st : state) :
  ws st = None ->
  url_valid (env st) = true ->
  exists st',
    initWebSocket o st = (Normal true, st')
    /\ ws st' = Some (Socket CONNECTING o)
    /\ reconnectAttempts st' = reconnectAttempts st
    /\ timeouts (env st') = timeouts (env st)
    /\ trace (env st') = trace (env st) ++ [WsNew]
    /\ url_valid (env st') = true
    /\ messageQueue st' = messageQueue st.
Proof.
  intros Hws Hurl. unfold initWebSocket, newWebSocket. munfold.
  rewrite Hws. cbn. rewrite Hurl. cbn.
  eexists. split; [reflexivity|]. cbn. repeat split; auto.
Qed.

Lemma wsjs_lost_and_retried_spec (code : Z) (st : state) :
  code <> 1000 -> code <> 1001 ->
  timeouts (env st) = [] ->
  url_valid (env st) = true ->
  let retry := reconnectAttempts st <? MAX_RECONNECT_ATTEMPTS in
  exists st',
    wsjs_lost_and_retried code st = (Normal tt, st')
    /\ timeouts (env st') = []
    /\ url_valid (env st') = true
    /\ reconnectAttempts st'
       = (if retry then reconnectAttempts st + 1 else reconnectAttempts st)
    /\ delays (trace (env st'))
       = delays (trace (env st))
         ++ (if retry then [backoff (reconnectAttempts st + 1)] else []).
Proof.
  intros H1000 H1001 Hts Hurl retry. subst retry.
  apply Z.eqb_neq in H1000, H1001.
  unfold wsjs_lost_and_retried, socket_closes.
  assert (Hclose : forall s0 : state,
            reconnectAttempts s0 = reconnectAttempts st ->
            env s0 = env st ->
            exists st',
              (ws_onclose code ;; timer_fires 0) s0 = (Normal tt, st')
              /\ timeouts (env st') = []
              /\ url_valid (env st') = true
              /\ reconnectAttempts st'
                 = (if reconnectAttempts st <? MAX_RECONNECT_ATTEMPTS
                    then reconnectAttempts st + 1 else reconnectAttempts st)
              /\ delays (trace (env st'))
                 = delays (trace (env st))
                   ++ (if reconnectAttempts st <? MAX_RECONNECT_ATTEMPTS
                       then [backoff (reconnectAttempts st + 1)] else [])).
  { intros s0 Hn He.
    destruct (wsjs_ws_onclose_spec code s0)
      as (s1 & Hrun & Hn1 & Ht1 & Hd1 & Hws1 & Hu1 & _).
    rewrite H1000, H1001, Hn, He, Hts in *. cbn [negb andb app] in *.
    unfold bind at 1. rewrite Hrun.
    unfold timer_fires. munfold. rewrite Ht1.
    destruct (reconnectAttempts st <? MAX_RECONNECT_ATTEMPTS).
    - cbn -[initWebSocket].
      match goal with
      | |- context [initWebSocket ?o ?s] =>
          destruct (wsjs_initWebSocket_fresh o s) as (s2 & Hi & _ & Hn2 & Ht2 & Htr2 & Hu2 & _);
            [exact Hws1 | cbn; congruence | rewrite Hi]
      end.
      exists s2. split; [reflexivity|]. cbn in Hn2, Ht2, Htr2.
      rewrite Ht2, Hn2, Htr2, delays_app, Hd1. cbn.
      rewrite app_nil_r. auto.
    - cbn. exists s1. rewrite Ht1, Hu1, Hurl. auto. }
  munfold. destruct (ws st) as [[rs o]|].
  - apply Hclose; reflexivity.
  - apply Hclose; reflexivity.
Qed.

(** [k] consecutive losses: the delays the module waits. *)
Lemma wsjs_losses (code : Z) (k : nat) :
  code <> 1000 -> code <> 1001 ->
  forall st : state,
    timeouts (env st) = [] ->
    url_valid (env st) = true ->
    exists st',
      repeat_m k (wsjs_lost_and_retried code) st = (Normal tt, st')
      /\ delays (trace (env st'))
         = delays (trace (env st))
           ++ ramp backoff (reconnectAttempts st)
                (Nat.min k (Z.to_nat (5 - reconnectAttempts st))).
Proof.
  intros H1000 H1001.
  induction k as [|k IH]; intros st Hts Hurl.
  - exists st. cbn. rewrite app_nil_r. auto.
  - cbn [repeat_m]. unfold bind at 1.
    destruct (wsjs_lost_and_retried_spec code st H1000 H1001 Hts Hurl)
      as (s1 & Hrun & Ht1 & Hu1 & Hn1 & Hd1).
    rewrite Hrun.
    destruct (IH s1 Ht1 Hu1) as (s2 & Hrun2 & Hd2).
    exists s2. split; [exact Hrun2|]. rewrite Hd2, Hd1, Hn1.
    unfold MAX_RECONNECT_ATTEMPTS.
    destruct (reconnectAttempts st <? 5) eqn:Hlt.
    + rewrite ramp_step by lia. rewrite <- app_assoc. reflexivity.
    + rewrite !ramp_done by lia. rewrite app_nil_r. reflexivity.
Qed.

(** A heartbeat tick on an open socket: the probe goes out, the time of
    the tick is stored as the last confirmation, and the check that
    follows compares the time with itself. *)
Lemma wsjs_pingTick_open (st : state) :
  sock_open (ws st) = true ->
  pingTick st
  = (Normal tt,
     wsjs_emitted (WsSend (ping_at (now (env st))))
                  (set_lastPong (now (env st)) st)).
Proof.
  intros Ho. unfold pingTick.
  unfold bind at 1. unfold gets at 1. rewrite Ho. unfold when.
  unfold bind at 1. unfold bind at 1. unfold Date_now at 1. unfold gets at 1.
  unfold bind at 1. unfold modify at 1.
  unfold bind at 1. unfold Date_now at 1. unfold gets at 1.
  unfold bind at 1. rewrite wsjs_sendMessage_eq.
  change (ws (set_lastPong (now (env st)) st)) with (ws st). rewrite Ho.
  cbn -[Z.gtb Z.sub Z.mul]. rewrite Z.sub_diag. reflexivity.
Qed.

Lemma wsjs_handlePong_lastPong (m : jsval) (st : state) :
  exists st',
    handlePong m st = (Normal tt, st')
    /\ lastPong st' = lastPong st
    /\ closes (trace (env st')) = closes (trace (env st)).
Proof.
  unfold handlePong. munfold. rewrite wsjs_triggerEvent_eq.
  eexists. split; [reflexivity|]. cbn.
  rewrite closes_app, listeners_trace_closes, app_nil_r. auto.
Qed.

(** Ticks at any times on an open socket, no [pong] in between: the
    socket is never closed. *)
Lemma wsjs_ticks_never_close (times : list Z) :
  forall st : state,
    sock_open (ws st) = true ->
    exists st',
      forEach wsjs_tick_at times st = (Normal tt, st')
      /\ sock_open (ws st') = true
      /\ closes (trace (env st')) = closes (trace (env st))
      /\ frames (trace (env st'))
         = frames (trace (env st)) ++ map ping_at times.
Proof.
  induction times as [|t times IH]; intros st Ho.
  - exists st. cbn. rewrite app_nil_r. auto.
  - cbn [forEach]. unfold bind at 1. unfold wsjs_tick_at at 1.
    unfold bind at 1. unfold modify at 1.
    rewrite wsjs_pingTick_open by exact Ho.
    match goal with
    | |- context [forEach wsjs_tick_at times ?s] =>
        destruct (IH s) as (st' & Hrun & Ho' & Hc & Hf); [exact Ho|]
    end.
    exists st'. rewrite Hrun. cbn in Hc, Hf.
    rewrite closes_app in Hc. rewrite frames_app in Hf. cbn in Hc, Hf.
    rewrite app_nil_r in Hc. rewrite <- app_assoc in Hf. auto.
Qed.

Lemma wsjs_register_all (event : string) (cbs : list callback) :
  forall st : state,
    exists st',
      forEach (addEventListener event) cbs st = (Normal tt, st')
      /\ env st' = env st
      /\ listeners_of (eventListeners st') event
         = listeners_of (eventListeners st) event ++ cbs.
Proof.
  induction cbs as [|cb cbs IH]; intros st.
  - exists st. cbn. rewrite app_nil_r. auto.
  - cbn [forEach]. unfold bind at 1. unfold addEventListener at 1.
    unfold modify at 1.
    match goal with
    | |- context [forEach (addEventListener event) cbs ?s] =>
        destruct (IH s) as (st' & Hrun & He & Hl)
    end.
    exists st'. rewrite Hrun. split; [reflexivity|]. split; [exact He|].
    rewrite Hl. cbn [eventListeners set_eventListeners].
    rewrite listeners_of_registered, <- app_assoc. reflexivity.
Qed.

Lemma wsjs_disconnect_spec (st : state) :
  exists st',
    disconnect st = (Normal tt, st')
    /\ pingInterval st' = false
    /\ ws st' = None
    /\ messageQueue st' = messageQueue st
    /\ timeouts (env st') = timeouts (env st)
    /\ closes (trace (env st'))
       = closes (trace (env st))
         ++ (match ws st with Some _ => [Some 1000] | None => [] end).
Proof.
  unfold disconnect, stopPingInterval, ws_close. munfold. cbn.
  destruct (pingInterval st) eqn:Hp; cbn;
    destruct (ws st) as [[[] o]|] eqn:E; cbn; rewrite ?E; cbn;
    eexists; (split; [reflexivity|]); cbn;
    rewrite ?closes_app; cbn; rewrite ?app_nil_r; repeat split;
    rewrite ?E, ?Hp; reflexivity.
Qed.

(** [disconnect] calls [clearInterval] when an interval handle is held,
    and makes no other call on the intervals. *)
Lemma wsjs_disconnect_intervals (st : state) :
  interval_calls (trace (env (exec disconnect st)))
  = interval_calls (trace (env st))
    ++ (if pingInterval st then [ClearInterval] else []).
Proof.
  unfold exec, disconnect, stopPingInterval, ws_close. munfold. cbn.
  destruct (pingInterval st) eqn:Hp; cbn;
    destruct (ws st) as [[[] o]|] eqn:E; cbn; rewrite ?E; cbn;
    rewrite ?interval_calls_app; cbn; rewrite ?app_nil_r; reflexivity.
Qed.

End WebsocketJsFacts.

(** ** src/unnamed/part_000: what each function does to the state *)

Section Part000Facts.
Import Part000.

Ltac munfold :=
  unfold showNotification, log, Date_now, setTimeout, on_env,
    bind, ret, gets, get, modify, when, throw, try_catch in *.

Lemma p000_triggerEvent_eq (event : string) (data : jsval) (st : state) :
  triggerEvent event data st
  = (Normal tt,
     set_env (set_trace (trace (env st)
                         ++ listeners_trace (eventListeners st) event data)
                        (env st)) st).
Proof.
  unfold triggerEvent, listeners_trace. munfold.
  destruct (eventListeners st !! event) as [cbs|].
  - rewrite dispatch_eq. reflexivity.
  - rewrite app_nil_r. destruct st as [? ? ? ? ? ? ? ? ? ? ? []]; reflexivity.
Qed.

Lemma p000_updateConnectionStatus_eq (s : status) (message : string)
    (st : state) :
  updateConnectionStatus s message st
  = (Normal tt, p000_status_set s message st).
Proof.
  unfold updateConnectionStatus. unfold bind, modify.
  rewrite p000_triggerEvent_eq. reflexivity.
Qed.

Lemma p000_attemptReconnect_eq (st : state) :
  attemptReconnect st = (Normal tt, p000_reconnecting st).
Proof.
  unfold attemptReconnect, p000_reconnecting.
  unfold bind at 1. unfold gets at 1.
  destruct (reconnectAttempts st >=? MAX_RECONNECT_ATTEMPTS); [reflexivity|].
  unfold bind at 1. unfold modify at 1.
  unfold bind at 1. unfold gets at 1.
  unfold bind at 1. rewrite p000_updateConnectionStatus_eq.
  reflexivity.
Qed.

Lemma p000_sendMessage_eq (m : jsval) (q : bool) (st : state) :
  sendMessage m q st
  = if well_formed m then
      if sock_open (socket st) then
        if serializable m then (Normal true, p000_emitted (WsSend m) st)
        else
          (Normal false,
           let st1 := p000_emitted (Notify N_failed_to_send) st in
           if q then p000_enqueued m st1 else st1)
      else
        (Normal false,
         let st1 := if q then p000_enqueued m st else st in
         if negb (is_connecting (connectionStatus st1))
         then p000_reconnecting st1 else st1)
    else (Normal false, st).
Proof.
  unfold sendMessage.
  destruct (well_formed m) eqn:Hw.
  - unfold well_formed in Hw.
    apply andb_prop in Hw as [Hw Hty]. apply andb_prop in Hw as [Htr Hob].
    rewrite Htr, Hob, Hty. cbn [negb orb]. munfold.
    destruct (sock_open (socket st)) eqn:Ho; cbn [negb].
    + unfold JSON_stringify. destruct (serializable m); munfold.
      * unfold socket_send. munfold. unfold sock_open in Ho.
        destruct (socket st) as [[[] o]|]; try discriminate. reflexivity.
      * destruct q; reflexivity.
    + destruct q; cbn -[attemptReconnect];
        (destruct (negb (is_connecting (connectionStatus st)));
         cbn -[attemptReconnect];
         [rewrite p000_attemptReconnect_eq|]; reflexivity).
  - apply not_well_formed_checks in Hw.
    destruct (negb (truthy m) || negb (typeof_object m)); [reflexivity|].
    rewrite Hw. reflexivity.
Qed.

Lemma p000_sendMessage_false (m : jsval) (st : state) :
  exists st1,
    sendMessage m false st = (Normal (can_send (socket st) m), st1)
    /\ socket st1 = socket st
    /\ messageQueue st1 = messageQueue st
    /\ now (env st1) = now (env st)
    /\ frames (trace (env st1))
       = frames (trace (env st)) ++ (if can_send (socket st) m then [m] else []).
Proof.
  rewrite p000_sendMessage_eq. unfold can_send.
  destruct (well_formed m); cbn [andb].
  - destruct (sock_open (socket st)); cbn [andb].
    + destruct (serializable m); eexists; (split; [reflexivity|]); cbn;
        rewrite frames_app; cbn; rewrite ?app_nil_r; auto.
    + eexists; split; [reflexivity|].
      destruct (negb (is_connecting (connectionStatus st))).
      * unfold p000_reconnecting.
        destruct (reconnectAttempts st >=? MAX_RECONNECT_ATTEMPTS); cbn;
          rewrite ?frames_app, ?listeners_trace_frames; cbn;
          rewrite ?app_nil_r; auto.
      * rewrite app_nil_r. auto.
  - eexists; split; [reflexivity|]. rewrite app_nil_r. auto.
Qed.

Lemma p000_pass_skip t sock x q sent left :
  p000_live t x = false ->
  p000_pass t sock q sent left ->
  p000_pass t sock (x :: q) sent left.
Proof.
  intros Hx (pre & post & Hq & Hall & Hsent & Hend).
  exists (x :: pre), post. subst q. split; [reflexivity|].
  split; [constructor; [congruence|exact Hall]|].
  split; [cbn; rewrite Hx; exact Hsent|exact Hend].
Qed.

Lemma p000_pass_sent t sock x q sent left :
  p000_live t x = true ->
  can_send sock (with_meta x) = true ->
  p000_pass t sock q sent left ->
  p000_pass t sock (x :: q) (with_meta x :: sent) left.
Proof.
  intros Hx Hok (pre & post & Hq & Hall & Hsent & Hend).
  exists (x :: pre), post. subst q. split; [reflexivity|].
  split; [constructor; [intros _; exact Hok|exact Hall]|].
  split; [cbn; rewrite Hx; cbn; congruence|exact Hend].
Qed.

Lemma p000_pass_stop t sock x q :
  p000_live t x = true ->
  can_send sock (with_meta x) = false ->
  p000_pass t sock (x :: q) [] (bump x :: q).
Proof.
  intros Hx Hok. exists [], (x :: q).
  split; [reflexivity|]. split; [constructor|]. split; [reflexivity|].
  right. exists x, q. auto.
Qed.

Lemma p000_drain (q : list queued) :
  forall (fuel : nat) (st : state),
    messageQueue st = q ->
    (length q < fuel)%nat ->
    exists st' sent,
      drain fuel st = (Normal tt, st')
      /\ socket st' = socket st
      /\ now (env st') = now (env st)
      /\ frames (trace (env st')) = frames (trace (env st)) ++ sent
      /\ p000_pass (now (env st)) (socket st) q sent (messageQueue st').
Proof.
  induction q as [|x q IH]; intros fuel st Hq Hfuel.
  - destruct fuel as [|n]; [cbn in Hfuel; lia|].
    cbn [drain]. unfold bind at 1. unfold drain_head. munfold. rewrite Hq.
    exists st, []. rewrite app_nil_r. repeat split; auto.
    exists [], []. repeat split; auto.
  - destruct fuel as [|n]; [cbn in Hfuel; lia|].
    cbn [length] in Hfuel. apply Nat.succ_lt_mono in Hfuel.
    cbn [drain]. unfold bind at 1. unfold drain_head. munfold. rewrite Hq.
    cbn [messageQueue set_messageQueue env].
    destruct (q_retryCount x >? 3) eqn:Hrc.
    { destruct (IH n (set_messageQueue q st) eq_refl Hfuel)
        as (st' & sent & Hrun & Hs & Hn & Hf & Hp).
      exists st', sent. rewrite Hrun. cbn in Hs, Hn, Hf, Hp.
      repeat split; auto. apply p000_pass_skip; [|exact Hp].
      unfold p000_live. rewrite Hrc. reflexivity. }
    change (env (set_messageQueue q st)) with (env st).
    destruct (now (env st) - q_timestamp x >? 300000) eqn:Hage.
    { destruct (IH n (set_messageQueue q st) eq_refl Hfuel)
        as (st' & sent & Hrun & Hs & Hn & Hf & Hp).
      exists st', sent. rewrite Hrun. cbn in Hs, Hn, Hf, Hp.
      repeat split; auto. apply p000_pass_skip; [|exact Hp].
      unfold p000_live. rewrite Hrc, Hage. reflexivity. }
    assert (Hlive : p000_live (now (env st)) x = true)
      by (unfold p000_live; rewrite Hrc, Hage; reflexivity).
    destruct (p000_sendMessage_false (with_meta x) (set_messageQueue q st))
      as (st1 & Hsend & Hs1 & Hq1 & Hn1 & Hf1).
    rewrite Hsend. cbn in Hs1, Hq1, Hn1, Hf1. cbn [socket set_messageQueue].
    destruct (can_send (socket st) (with_meta x)) eqn:Hok.
    + destruct (IH n st1 Hq1 Hfuel) as (st' & sent & Hrun & Hs & Hn & Hf & Hp).
      exists st', (with_meta x :: sent). rewrite Hrun.
      rewrite Hs1, Hn1 in *. rewrite Hf, Hf1, <- app_assoc.
      repeat split; auto. apply p000_pass_sent; assumption.
    + eexists. exists []. split; [reflexivity|].
      cbn. rewrite Hq1, Hf1, !app_nil_r.
      repeat split; auto. apply p000_pass_stop; assumption.
Qed.

(** The pass returns: the bound on the turns of the loop is never met. *)
Lemma p000_processMessageQueue_eq (st : state) :
  exists st' sent,
    processMessageQueue st = (Normal tt, st')
    /\ socket st' = socket st
    /\ frames (trace (env st')) = frames (trace (env st)) ++ sent
    /\ p000_pass (now (env st)) (socket st) (messageQueue st) sent
                 (messageQueue st').
Proof.
  unfold processMessageQueue. munfold.
  destruct (p000_drain (messageQueue st) (S (length (messageQueue st))) st
              eq_refl (Nat.lt_succ_diag_r _))
    as (st' & sent & Hrun & Hs & _ & Hf & Hp).
  exists st', sent. rewrite Hrun. auto.
Qed.

Lemma p000_stopPingInterval_eq (st : state) :
  stopPingInterval st
  = (Normal tt,
     if pingInterval st
     then set_pingInterval false (p000_emitted ClearInterval st)
     else st).
Proof.
  unfold stopPingInterval. munfold. destruct (pingInterval st); reflexivity.
Qed.

(** The close handler: whether a reconnection is scheduled, and what is
    left alone. *)
Lemma p000_socket_onclose_spec (code : Z) (st : state) :
  let retry := negb (code =? 1000)
               && (reconnectAttempts st <? MAX_RECONNECT_ATTEMPTS) in
  exists st',
    socket_onclose code st = (Normal tt, st')
    /\ reconnectAttempts st'
       = (if retry then reconnectAttempts st + 1 else reconnectAttempts st)
    /\ timeouts (env st')
       = timeouts (env st)
         ++ (if retry
             then [Timer (backoff (reconnectAttempts st + 1)) ReconnectTimer]
             else [])
    /\ delays (trace (env st'))
       = delays (trace (env st))
         ++ (if retry then [backoff (reconnectAttempts st + 1)] else [])
    /\ socket st' = socket st
    /\ url_valid (env st') = url_valid (env st)
    /\ messageQueue st' = messageQueue st.
Proof.
  intros retry. subst retry.
  unfold socket_onclose.
  unfold bind at 1. unfold modify at 1.
  unfold bind at 1. unfold modify at 1.
  unfold bind at 1. rewrite p000_updateConnectionStatus_eq.
  unfold bind at 1. rewrite p000_triggerEvent_eq.
  unfold bind at 1. rewrite p000_stopPingInterval_eq.
  unfold bind at 1. unfold gets at 1.
  unfold when.
  match goal with
  | |- context [if negb (code =? 1000) && (reconnectAttempts ?s <? _)
                then _ else _] =>
      replace (reconnectAttempts s) with (reconnectAttempts st)
        by (cbn; destruct (pingInterval st); reflexivity)
  end.
  destruct (negb (code =? 1000)
            && (reconnectAttempts st <? MAX_RECONNECT_ATTEMPTS)) eqn:Hretry.
  - apply andb_prop in Hretry as [_ Hn].
    rewrite p000_attemptReconnect_eq. eexists. split; [reflexivity|].
    unfold p000_reconnecting.
    assert (Hge : (reconnectAttempts st >=? MAX_RECONNECT_ATTEMPTS) = false)
      by (unfold MAX_RECONNECT_ATTEMPTS in *; lia).
    cbn. destruct (pingInterval st); cbn; rewrite Hge; cbn;
      rewrite ?delays_app, ?listeners_trace_delays; cbn;
      rewrite ?app_nil_r; repeat split; reflexivity.
  - eexists. split; [reflexivity|].
    cbn. destruct (pingInterval st); cbn;
      rewrite ?delays_app, ?listeners_trace_delays; cbn;
      rewrite ?app_nil_r; repeat split; reflexivity.
Qed.

Lemma p000_connectWebSocket_closed (o : options) (st : state) :
  sock_open (socket st) = false ->
  url_valid (env st) = true ->
  exists st',
    connectWebSocket o st = (Normal true, st')
    /\ socket st' = Some (Socket CONNECTING o)
    /\ reconnectAttempts st' = reconnectAttempts st
    /\ timeouts (env st') = timeouts (env st)
    /\ delays (trace (env st')) = delays (trace (env st))
    /\ url_valid (env st') = true
    /\ messageQueue st' = messageQueue st.
Proof.
  intros Hso Hurl. unfold connectWebSocket.
  unfold bind at 1. unfold gets at 1. rewrite Hso.
  unfold when. unfold bind at 1. unfold ret at 1.
  unfold try_catch. unfold bind at 1.
  rewrite p000_updateConnectionStatus_eq.
  unfold newWebSocket. munfold. cbn. rewrite Hurl. cbn.
  eexists. split; [reflexivity|]. cbn.
  rewrite !delays_app, listeners_trace_delays. cbn. rewrite !app_nil_r.
  repeat split; auto.
Qed.

Lemma p000_lost_and_retried_spec (code : Z) (st : state) :
  code <> 1000 ->
  timeouts (env st) = [] ->
  url_valid (env st) = true ->
  let retry := reconnectAttempts st <? MAX_RECONNECT_ATTEMPTS in
  exists st',
    p000_lost_and_retried code st = (Normal tt, st')
    /\ timeouts (env st') = []
    /\ url_valid (env st') = true
    /\ reconnectAttempts st'
       = (if retry then reconnectAttempts st + 1 else reconnectAttempts st)
    /\ delays (trace (env st'))
       = delays (trace (env st))
         ++ (if retry then [backoff (reconnectAttempts st + 1)] else []).
Proof.
  intros H1000 Hts Hurl retry. subst retry.
  apply Z.eqb_neq in H1000.
  unfold p000_lost_and_retried, socket_closes.
  assert (Hclose : forall s0 : state,
            reconnectAttempts s0 = reconnectAttempts st ->
            env s0 = env st ->
            sock_open (socket s0) = false ->
            exists st',
              (socket_onclose code ;; timer_fires 0) s0 = (Normal tt, st')
              /\ timeouts (env st') = []
              /\ url_valid (env st') = true
              /\ reconnectAttempts st'
                 = (if reconnectAttempts st <? MAX_RECONNECT_ATTEMPTS
                    then reconnectAttempts st + 1 else reconnectAttempts st)
              /\ delays (trace (env st'))
                 = delays (trace (env st))
                   ++ (if reconnectAttempts st <? MAX_RECONNECT_ATTEMPTS
                       then [backoff (reconnectAttempts st + 1)] else [])).
  { intros s0 Hn He Hso.
    destruct (p000_socket_onclose_spec code s0)
      as (s1 & Hrun & Hn1 & Ht1 & Hd1 & Hs1 & Hu1 & _).
    rewrite H1000, Hn, He, Hts in *. cbn [negb andb app] in *.
    unfold bind at 1. rewrite Hrun.
    unfold timer_fires. munfold. rewrite Ht1.
    destruct (reconnectAttempts st <? MAX_RECONNECT_ATTEMPTS).
    - cbn -[connectWebSocket].
      match goal with
      | |- context [connectWebSocket ?o ?s] =>
          destruct (p000_connectWebSocket_closed o s)
            as (s2 & Hi & _ & Hn2 & Ht2 & Hd2 & Hu2 & _);
            [cbn; congruence | cbn; congruence | rewrite Hi]
      end.
      exists s2. split; [reflexivity|]. cbn in Hn2, Ht2, Hd2.
      rewrite Ht2, Hn2, Hd2, Hd1. auto.
    - cbn. exists s1. rewrite Ht1, Hu1, Hurl. auto. }
  munfold. destruct (socket st) as [[rs o]|] eqn:Hsock.
  - apply Hclose; reflexivity.
  - apply Hclose; [reflexivity|reflexivity|].
    rewrite Hsock. reflexivity.
Qed.

Lemma p000_losses (code : Z) (k : nat) :
  code <> 1000 ->
  forall st : state,
    timeouts (env st) = [] ->
    url_valid (env st) = true ->
    exists st',
      repeat_m k (p000_lost_and_retried code) st = (Normal tt, st')
      /\ delays (trace (env st'))
         = delays (trace (env st))
           ++ ramp backoff (reconnectAttempts st)
                (Nat.min k (Z.to_nat (5 - reconnectAttempts st))).
Proof.
  intros H1000.
  induction k as [|k IH]; intros st Hts Hurl.
  - exists st. cbn. rewrite app_nil_r. auto.
  - cbn [repeat_m]. unfold bind at 1.
    destruct (p000_lost_and_retried_spec code st H1000 Hts Hurl)
      as (s1 & Hrun & Ht1 & Hu1 & Hn1 & Hd1).
    rewrite Hrun.
    destruct (IH s1 Ht1 Hu1) as (s2 & Hrun2 & Hd2).
    exists s2. split; [exact Hrun2|]. rewrite Hd2, Hd1, Hn1.
    unfold MAX_RECONNECT_ATTEMPTS.
    destruct (reconnectAttempts st <? 5) eqn:Hlt.
    + rewrite ramp_step by lia. rewrite <- app_assoc. reflexivity.
    + rewrite !ramp_done by lia. rewrite app_nil_r. reflexivity.
Qed.

Lemma p000_register_all (event : string) (cbs : list callback) :
  forall st : state,
    exists st',
      forEach (addEventListener event) cbs st = (Normal tt, st')
      /\ env st' = env st
      /\ listeners_of (eventListeners st') event
         = listeners_of (eventListeners st) event ++ cbs.
Proof.
  induction cbs as [|cb cbs IH]; intros st.
  - exists st. cbn. rewrite app_nil_r. auto.
  - cbn [forEach]. unfold bind at 1. unfold addEventListener at 1.
    unfold modify at 1.
    match goal with
    | |- context [forEach (addEventListener event) cbs ?s] =>
        destruct (IH s) as (st' & Hrun & He & Hl)
    end.
    exists st'. rewrite Hrun. split; [reflexivity|]. split; [exact He|].
    rewrite Hl. cbn [eventListeners set_eventListeners].
    rewrite listeners_of_registered, <- app_assoc. reflexivity.
Qed.

Lemma p000_disconnect_spec (st : state) :
  exists st',
    disconnect st = (Normal tt, st')
    /\ pingInterval st' = false
    /\ socket st' = None
    /\ messageQueue st' = messageQueue st
    /\ timeouts (env st') = timeouts (env st)
    /\ reconnectAttempts st' = reconnectAttempts st
    /\ closes (trace (env st'))
       = closes (trace (env st))
         ++ (match socket st with Some _ => [Some 1000] | None => [] end).
Proof.
  unfold disconnect.
  unfold bind at 1. rewrite p000_stopPingInterval_eq.
  unfold bind at 1. unfold gets at 1.
  assert (Hs : socket (if pingInterval st
                       then set_pingInterval false (p000_emitted ClearInterval st)
                       else st) = socket st)
    by (destruct (pingInterval st); reflexivity).
  rewrite Hs. unfold socket_close. munfold.
  destruct (socket st) as [[[] o]|] eqn:E;
    destruct (pingInterval st) eqn:Hp; cbn -[updateConnectionStatus];
    rewrite ?E; cbn -[updateConnectionStatus];
    rewrite p000_updateConnectionStatus_eq;
    eexists; (split; [reflexivity|]); cbn;
    rewrite ?closes_app, ?listeners_trace_closes; cbn;
    rewrite ?app_nil_r; repeat split; rewrite ?E, ?Hp; reflexivity.
Qed.

(** [disconnect] calls [clearInterval] when an interval handle is held,
    and makes no other call on the intervals. *)
Lemma p000_disconnect_intervals (st : state) :
  interval_calls (trace (env (exec disconnect st)))
  = interval_calls (trace (env st))
    ++ (if pingInterval st then [ClearInterval] else []).
Proof.
  unfold exec, disconnect.
  unfold bind at 1. rewrite p000_stopPingInterval_eq.
  unfold bind at 1. unfold gets at 1.
  assert (Hs : socket (if pingInterval st
                       then set_pingInterval false (p000_emitted ClearInterval st)
                       else st) = socket st)
    by (destruct (pingInterval st); reflexivity).
  rewrite Hs. unfold socket_close. munfold.
  destruct (socket st) as [[[] o]|] eqn:E;
    destruct (pingInterval st) eqn:Hp; cbn -[updateConnectionStatus];
    rewrite ?E; cbn -[updateConnectionStatus];
    rewrite p000_updateConnectionStatus_eq; cbn;
    rewrite ?interval_calls_app, ?listeners_trace_interval_calls; cbn;
    rewrite ?app_nil_r; reflexivity.
Qed.

End Part000Facts.

(** ** src/admin.js: what each function does to the state *)

Section AdminJsFacts.
Import AdminJs.

Ltac munfold :=
  unfold showNotification, log, Date_now, setTimeout, on_env,
    bind, ret, gets, get, modify, when, throw, try_catch in *.

(** The guard of [attemptReconnect] compares a constant with the ceiling. *)
Lemma admin_attemptReconnect_eq (st : state) :
  attemptReconnect st
  = (Normal tt, set_env (schedule (Timer 3000 ReconnectTimer) (env st)) st).
Proof. reflexivity. Qed.

Lemma admin_handleWebSocketClose_spec (code : Z) (st : state) :
  code <> 1000 ->
  exists st',
    handleWebSocketClose code st = (Normal tt, st')
    /\ timeouts (env st') = timeouts (env st) ++ [Timer 3000 ReconnectTimer]
    /\ trace (env st')
       = trace (env st) ++ [Notify N_connection_lost; SetTimeout 3000]
    /\ socket st' = socket st.
Proof.
  intros Hc. apply Z.eqb_neq in Hc.
  unfold handleWebSocketClose, updateConnectionStatus. munfold.
  rewrite Hc. cbn. eexists. split; [reflexivity|]. cbn.
  rewrite <- app_assoc. auto.
Qed.

Lemma admin_connectWebSocket_spec (token : jsval) (st : state) :
  exists st' b extra,
    connectWebSocket token st = (Normal b, st')
    /\ timeouts (env st') = timeouts (env st)
    /\ trace (env st') = trace (env st) ++ extra
    /\ delays extra = []
    /\ ~ In N_cannot_reconnect (notices extra).
Proof.
  unfold connectWebSocket, socket_close, newWebSocket. munfold. cbn.
  destruct (socket st) as [[[] o]|] eqn:E; cbn; rewrite ?E; cbn;
    destruct (url_valid (env st)); cbn;
    eexists; eexists; eexists; (split; [reflexivity|]); cbn;
    (split; [reflexivity|]);
    (split; [rewrite <- ?app_assoc; reflexivity|]);
    (split; [reflexivity|]); cbn; intuition discriminate.
Qed.

Lemma admin_lost_and_retried_spec (code : Z) (st : state) :
  code <> 1000 ->
  timeouts (env st) = [] ->
  exists st' extra,
    admin_lost_and_retried code st = (Normal tt, st')
    /\ timeouts (env st') = []
    /\ trace (env st') = trace (env st) ++ extra
    /\ delays extra = [3000]
    /\ ~ In N_cannot_reconnect (notices extra).
Proof.
  intros Hc Hts.
  unfold admin_lost_and_retried, socket_closes.
  assert (Hclose : forall s0 : state,
            env s0 = env st ->
            exists st' extra,
              (handleWebSocketClose code ;; timer_fires 0) s0 = (Normal tt, st')
              /\ timeouts (env st') = []
              /\ trace (env st') = trace (env st) ++ extra
              /\ delays extra = [3000]
              /\ ~ In N_cannot_reconnect (notices extra)).
  { intros s0 He.
    destruct (admin_handleWebSocketClose_spec code s0 Hc)
      as (s1 & Hrun & Ht1 & Htr1 & _).
    rewrite He, Hts in *. cbn [app] in Ht1.
    unfold bind at 1. rewrite Hrun.
    unfold timer_fires. munfold. rewrite Ht1. cbn -[connectWebSocket].
    match goal with
    | |- context [connectWebSocket ?o ?s] =>
        destruct (admin_connectWebSocket_spec o s)
          as (s2 & b & extra & Hi & Ht2 & Htr2 & Hd2 & Hn2);
          rewrite Hi
    end.
    cbn in Ht2, Htr2. rewrite Htr1 in Htr2.
    exists s2, ([Notify N_connection_lost; SetTimeout 3000] ++ extra).
    split; [reflexivity|]. split; [exact Ht2|].
    split; [rewrite Htr2, <- app_assoc; reflexivity|].
    split; [rewrite delays_app, Hd2; reflexivity|].
    rewrite notices_app. cbn. intros [H|H]; [discriminate|auto]. }
  munfold. destruct (socket st) as [[rs o]|]; apply Hclose; reflexivity.
Qed.

End AdminJsFacts.

(** ** The statements of the specification, C1 to C10 *)

(** *** C1: the drain pass *)

(** C1 as stated, on the queue of part_000 with an open socket (the drain
    pass of section 4.4 next to the code): the head has failed three times
    and fails again, so the specification discards it and goes on to send
    the message behind it; the code counts the fourth failure, puts the
    head back and ends the pass with nothing sent. *)
Lemma C1_drain_stops_where_spec_continues :
  let st := p000_open 1000 [Queued msg_win 0 3; Queued msg_chat 0 0] in
  let st' := exec Part000.processMessageQueue st in
  let spec :=
    Spec.drain (fun x => can_send (Part000.socket st) (with_meta x))
               (now (Part000.env st)) (Part000.messageQueue st) in
  spec = ([Queued msg_chat 0 0], [])
  /\ frames (trace (Part000.env st')) = []
  /\ Part000.messageQueue st' = [Queued msg_win 0 4; Queued msg_chat 0 0]
  /\ (frames (trace (Part000.env st')), Part000.messageQueue st')
     <> (map with_meta (fst spec), snd spec).
Proof.
  vm_compute. repeat split; discriminate.
Qed.

(** C1 (as amended).  In part_000 the drain pass returns and works from
    the head of the queue: entries over their retries or too old are
    dropped unsent, entries whose send succeeds go to the transport in
    queue order, and the first live entry whose send fails ends the pass
    and stays at the head with one more retry, in front of the untouched
    rest.  So the transport sees the messages it is given in the order of
    the queue, and none of them ahead of a message that is still queued. *)
Theorem C1_drain_pass (st : Part000.state) :
  exists st' sent,
    Part000.processMessageQueue st = (Normal tt, st')
    /\ frames (trace (Part000.env st'))
       = frames (trace (Part000.env st)) ++ sent
    /\ p000_pass (now (Part000.env st)) (Part000.socket st)
                 (Part000.messageQueue st) sent (Part000.messageQueue st').
Proof.
  destruct (p000_processMessageQueue_eq st) as (st' & sent & H1 & _ & H2 & H3).
  exists st', sent. split; [exact H1|]. split; [exact H2 | exact H3].
Qed.

(** The pass of websocket.js on two fresh messages and an open socket:
    the newer one reaches the transport first. *)
Example wsjs_drain_newest_first :
  let st := wsjs_open 1000 1000 [Queued msg_chat 900 0; Queued msg_mark 950 0] in
  frames (trace (WebsocketJs.env (exec WebsocketJs.processMessageQueue st)))
  = [msg_mark; msg_chat].
Proof. vm_compute. reflexivity. Qed.

(** *** C2: the delays before the reconnection attempts *)

Lemma pow2_succ (n : Z) : 0 <= n -> 2 ^ (n + 1) = 2 * 2 ^ n /\ 0 < 2 ^ n.
Proof.
  intros Hn. split.
  - rewrite Z.pow_add_r by lia. lia.
  - apply Z.pow_pos_nonneg; lia.
Qed.

(** C2 as stated, on websocket.js.  Five losses in a row, none with a
    normal code: the fifth attempt is put off by 48 seconds, above the cap
    of 30. *)
Lemma C2_fifth_delay_exceeds_cap :
  let st' := exec (repeat_m 5 (wsjs_lost_and_retried 1006)) (wsjs_open 0 0 []) in
  delays (trace (WebsocketJs.env st')) = [3000; 6000; 12000; 24000; 48000]
  /\ ~ (forall d, In d (delays (trace (WebsocketJs.env st')))
                  -> d <= Spec.DELAY_CAP).
Proof.
  vm_compute. split; [reflexivity|].
  intros H. specialize (H 48000%Z). apply H; [|reflexivity].
  do 4 right. left. reflexivity.
Qed.

(** C2 (as amended).  Over [k] consecutive unplanned closures, each
    followed by the reconnection it schedules, part_000 waits
    [min(1000 * 2^n, 30000)] ms before the n-th attempt and websocket.js
    waits [3000 * 2^(n-1)] ms, for n from 1 to at most 5.  The delays of
    part_000 do not decrease and stay within 30 seconds; those of
    websocket.js do not decrease and have no cap, the fifth being 48
    seconds. *)
Theorem C2_backoff_delays (cp cw : Z) (k : nat)
    (sp : Part000.state) (sw : WebsocketJs.state) :
  cp <> 1000 ->
  cw <> 1000 -> cw <> 1001 ->
  Part000.reconnectAttempts sp = 0 ->
  timeouts (Part000.env sp) = [] ->
  url_valid (Part000.env sp) = true ->
  WebsocketJs.reconnectAttempts sw = 0 ->
  timeouts (WebsocketJs.env sw) = [] ->
  url_valid (WebsocketJs.env sw) = true ->
  (exists sp',
     repeat_m k (p000_lost_and_retried cp) sp = (Normal tt, sp')
     /\ delays (trace (Part000.env sp'))
        = delays (trace (Part000.env sp))
          ++ map (fun n => Spec.delay 1000 (Z.of_nat n)) (seq 1 (Nat.min k 5)))
  /\ (exists sw',
        repeat_m k (wsjs_lost_and_retried cw) sw = (Normal tt, sw')
        /\ delays (trace (WebsocketJs.env sw'))
           = delays (trace (WebsocketJs.env sw))
             ++ map (fun n => WebsocketJs.RECONNECT_DELAY * 2 ^ (Z.of_nat n - 1))
                    (seq 1 (Nat.min k 5)))
  /\ (forall n, 0 <= n ->
        Spec.delay 1000 n <= Spec.delay 1000 (n + 1) <= Spec.DELAY_CAP)
  /\ (forall n, 1 <= n -> 3000 * 2 ^ (n - 1) <= 3000 * 2 ^ n)
  /\ 3000 * 2 ^ (5 - 1) = 48000.
Proof.
  intros Hcp Hcw Hcw' Hnp Htp Hup Hnw Htw Huw.
  split; [|split; [|split; [|split]]].
  - destruct (p000_losses cp k Hcp sp Htp Hup) as (sp' & Hrun & Hd).
    exists sp'. split; [exact Hrun|]. rewrite Hd, Hnp, ramp_seq.
    reflexivity.
  - destruct (wsjs_losses cw k Hcw Hcw' sw Htw Huw) as (sw' & Hrun & Hd).
    exists sw'. split; [exact Hrun|]. rewrite Hd, Hnw, ramp_seq.
    reflexivity.
  - intros n Hn. unfold Spec.delay, Spec.DELAY_CAP.
    destruct (pow2_succ n Hn) as [He Hp]. rewrite He. lia.
  - intros n Hn. destruct (pow2_succ (n - 1)) as [He Hp]; [lia|].
    replace (n - 1 + 1) with n in He by lia. rewrite He. lia.
  - reflexivity.
Qed.

Lemma C2_backoff_delays_witness :
  (exists sp',
     repeat_m 5 (p000_lost_and_retried 1006) (p000_open 0 []) = (Normal tt, sp')
     /\ delays (trace (Part000.env sp'))
        = [2000; 4000; 8000; 16000; 30000])
  /\ (exists sw',
        repeat_m 5 (wsjs_lost_and_retried 1006) (wsjs_open 0 0 [])
        = (Normal tt, sw')
        /\ delays (trace (WebsocketJs.env sw'))
           = [3000; 6000; 12000; 24000; 48000]).
Proof.
  destruct (C2_backoff_delays 1006 1006 5 (p000_open 0 []) (wsjs_open 0 0 []))
    as (Hp & Hw & _); try reflexivity; try lia.
  split; [exact Hp | exact Hw].
Defined.

(** *** C3: the ceiling on the reconnection attempts *)

(** C3 on admin.js.  However many times in a row the connection is lost
    and the attempt to restore it fails, the module sets the next timeout
    of 3 seconds and never shows that it has given up: after [k] losses it
    has scheduled [k] attempts. *)
Theorem C3_admin_never_gives_up (code : Z) (k : nat) :
  code <> 1000 ->
  forall st : AdminJs.state,
    timeouts (AdminJs.env st) = [] ->
    exists st' extra,
      repeat_m k (admin_lost_and_retried code) st = (Normal tt, st')
      /\ trace (AdminJs.env st') = trace (AdminJs.env st) ++ extra
      /\ delays extra = repeat 3000 k
      /\ ~ In N_cannot_reconnect (notices extra).
Proof.
  intros Hc. induction k as [|k IH]; intros st Hts.
  - exists st, []. cbn. rewrite app_nil_r. auto.
  - cbn [repeat_m]. unfold bind at 1.
    destruct (admin_lost_and_retried_spec code st Hc Hts)
      as (s1 & e1 & Hrun & Ht1 & Htr1 & Hd1 & Hn1).
    rewrite Hrun.
    destruct (IH s1 Ht1) as (s2 & e2 & Hrun2 & Htr2 & Hd2 & Hn2).
    exists s2, (e1 ++ e2). split; [exact Hrun2|].
    split; [rewrite Htr2, Htr1, <- app_assoc; reflexivity|].
    split; [rewrite delays_app, Hd1, Hd2; reflexivity|].
    rewrite notices_app, in_app_iff. tauto.
Qed.

(** Six losses in a row: six attempts scheduled, the sixth past the
    ceiling of five. *)
Lemma C3_admin_never_gives_up_witness :
  exists st' extra,
    repeat_m 6 (admin_lost_and_retried 1006) (admin_open 0) = (Normal tt, st')
    /\ trace (AdminJs.env st') = trace (AdminJs.env (admin_open 0)) ++ extra
    /\ delays extra = [3000; 3000; 3000; 3000; 3000; 3000]
    /\ ~ In N_cannot_reconnect (notices extra).
Proof.
  apply (C3_admin_never_gives_up 1006 6); [lia | reflexivity].
Defined.

(** The two other modules do stop: in websocket.js an explicit
    [reconnect()] puts the counter back to 0 before it connects. *)
Lemma wsjs_reconnect_resets (st : WebsocketJs.state) :
  WebsocketJs.connected st = false ->
  WebsocketJs.ws st = None ->
  url_valid (WebsocketJs.env st) = true ->
  exists st',
    WebsocketJs.reconnect st = (Normal true, st')
    /\ WebsocketJs.reconnectAttempts st' = 0
    /\ WebsocketJs.ws st' = Some (Socket CONNECTING (WebsocketJs.stored_options st)).
Proof.
  intros Hc Hws Hurl. unfold WebsocketJs.reconnect.
  unfold bind at 1. unfold gets at 1. rewrite Hc.
  unfold bind at 1. unfold modify at 1.
  unfold bind at 1. unfold get at 1.
  destruct (wsjs_initWebSocket_fresh
              (WebsocketJs.stored_options (WebsocketJs.set_reconnectAttempts 0 st))
              (WebsocketJs.set_reconnectAttempts 0 st) Hws Hurl)
    as (st' & Hrun & Hs & Hn & _).
  exists st'. rewrite Hrun. auto.
Qed.

(** *** C4: the liveness rule *)

(** C4 on websocket.js.  With an open socket and no [pong] at all, the
    heartbeat may tick at any times: every tick returns, sends its probe
    and leaves the socket open, and no [close] is ever called on the
    transport, however long ago the last confirmation was; a [pong] that
    does arrive does not touch the time the check reads. *)
Theorem C4_heartbeat_never_times_out (times : list Z) (st : WebsocketJs.state) :
  sock_open (WebsocketJs.ws st) = true ->
  (exists st',
     forEach wsjs_tick_at times st = (Normal tt, st')
     /\ sock_open (WebsocketJs.ws st') = true
     /\ closes (trace (WebsocketJs.env st')) = closes (trace (WebsocketJs.env st))
     /\ frames (trace (WebsocketJs.env st'))
        = frames (trace (WebsocketJs.env st)) ++ map ping_at times)
  /\ (forall pong,
        WebsocketJs.lastPong (exec (WebsocketJs.handlePong pong) st)
        = WebsocketJs.lastPong st).
Proof.
  intros Ho. split.
  - apply wsjs_ticks_never_close. exact Ho.
  - intros pong. destruct (wsjs_handlePong_lastPong pong st) as (st' & Hrun & Hl & _).
    unfold exec. rewrite Hrun. exact Hl.
Qed.

(** The last confirmation is at time 0 and the link stays silent for four
    intervals, two minutes: by the rule of section 4.2 the link is dead
    from the third tick on, and the transport sees four probes and no
    [close]. *)
Lemma C4_heartbeat_never_times_out_witness :
  Spec.link_dead WebsocketJs.PING_INTERVAL 0 90000 = true
  /\ exists st',
       forEach wsjs_tick_at [30000; 60000; 90000; 120000] (wsjs_open 0 0 [])
       = (Normal tt, st')
       /\ closes (trace (WebsocketJs.env st')) = []
       /\ frames (trace (WebsocketJs.env st'))
          = [ping_at 30000; ping_at 60000; ping_at 90000; ping_at 120000].
Proof.
  split; [reflexivity|].
  destruct (C4_heartbeat_never_times_out
              [30000; 60000; 90000; 120000] (wsjs_open 0 0 []))
    as [(st' & Hrun & _ & Hc & Hf) _]; [reflexivity|].
  exists st'. split; [exact Hrun|]. split; [exact Hc | exact Hf].
Defined.

(** *** C5: which close codes lead to a reconnection *)

(** C5 as stated, on websocket.js.  A closure with code 1001, the counter
    at 0: nothing is scheduled, where section 4.1 makes every code but
    1000 reconnect. *)
Lemma C5_code_1001_does_not_reconnect :
  let st := wsjs_open 0 0 [] in
  let st' := exec (WebsocketJs.socket_closes 1001) st in
  WebsocketJs.reconnectAttempts st < WebsocketJs.MAX_RECONNECT_ATTEMPTS
  /\ Spec.reconnects_on 1001 = true
  /\ timeouts (WebsocketJs.env st') = []
  /\ ~ (Spec.reconnects_on 1001 = true -> timeouts (WebsocketJs.env st') <> []).
Proof.
  vm_compute. repeat split; try reflexivity.
  intros H. apply H; reflexivity.
Qed.

(** C5 (as amended).  With the attempt counter below the ceiling, the
    close handler of websocket.js schedules a reconnection exactly for the
    codes other than 1000 and 1001, and the close handler of part_000
    exactly for the codes other than 1000 (1001 included). *)
Theorem C5_close_code_policy (code : Z)
    (sw : WebsocketJs.state) (sp : Part000.state) :
  WebsocketJs.reconnectAttempts sw < WebsocketJs.MAX_RECONNECT_ATTEMPTS ->
  Part000.reconnectAttempts sp < Part000.MAX_RECONNECT_ATTEMPTS ->
  (exists sw',
     WebsocketJs.ws_onclose code sw = (Normal tt, sw')
     /\ timeouts (WebsocketJs.env sw')
        = timeouts (WebsocketJs.env sw)
          ++ (if (code =? 1000) || (code =? 1001) then []
              else [Timer (WebsocketJs.backoff
                             (WebsocketJs.reconnectAttempts sw + 1))
                          ReconnectTimer]))
  /\ (exists sp',
        Part000.socket_onclose code sp = (Normal tt, sp')
        /\ timeouts (Part000.env sp')
           = timeouts (Part000.env sp)
             ++ (if code =? 1000 then []
                 else [Timer (Part000.backoff
                                (Part000.reconnectAttempts sp + 1))
                             ReconnectTimer])).
Proof.
  intros Hw Hp. apply Z.ltb_lt in Hw, Hp. split.
  - destruct (wsjs_ws_onclose_spec code sw) as (sw' & Hrun & _ & Ht & _).
    exists sw'. split; [exact Hrun|]. rewrite Ht, Hw.
    destruct (code =? 1000), (code =? 1001); reflexivity.
  - destruct (p000_socket_onclose_spec code sp) as (sp' & Hrun & _ & Ht & _).
    exists sp'. split; [exact Hrun|]. rewrite Ht, Hp.
    destruct (code =? 1000); reflexivity.
Qed.

Lemma C5_close_code_policy_witness :
  (exists sw',
     WebsocketJs.ws_onclose 1006 (wsjs_open 0 0 []) = (Normal tt, sw')
     /\ timeouts (WebsocketJs.env sw') = [Timer 3000 ReconnectTimer])
  /\ (exists sp',
        Part000.socket_onclose 1001 (p000_open 0 []) = (Normal tt, sp')
        /\ timeouts (Part000.env sp') = [Timer 2000 ReconnectTimer]).
Proof.
  destruct (C5_close_code_policy 1006 (wsjs_open 0 0 []) (p000_open 0 []))
    as [Hw _]; [reflexivity | reflexivity |].
  destruct (C5_close_code_policy 1001 (wsjs_open 0 0 []) (p000_open 0 []))
    as [_ Hp]; [reflexivity | reflexivity |].
  split; [exact Hw | exact Hp].
Defined.

(** *** C6: what [send] returns *)

(** C6 as stated, on websocket.js.  A well-formed message sent with no
    socket: it is put on the queue and the call returns [false], where
    section 4.6 has the call return [true] for a message that was queued. *)
Lemma C6_queued_yet_false :
  let st := wsjs_loaded 0 in
  let run := WebsocketJs.sendMessage msg_chat true in
  well_formed msg_chat = true
  /\ WebsocketJs.messageQueue (exec run st) = [Queued msg_chat 0 0]
  /\ result run st = Normal false
  /\ ~ (WebsocketJs.messageQueue (exec run st)
        = WebsocketJs.messageQueue st ++ [Queued msg_chat 0 0]
        -> result run st = Normal true).
Proof.
  vm_compute. repeat split; try reflexivity.
  intros H. specialize (H eq_refl). discriminate H.
Qed.

(** C6 (as amended).  In websocket.js and in part_000 the call returns,
    and returns [true] exactly when the message was handed to the
    transport, which takes a message that passes the two checks, an open
    socket and a message that can be serialized.  In every other case the
    result is [false]; a message that passes the checks and was not
    handed over is put on the queue when [queueIfOffline] holds, and the
    result is [false] then too. *)
Theorem C6_send_result (m : jsval) (q : bool)
    (sw : WebsocketJs.state) (sp : Part000.state) :
  let rw := WebsocketJs.sendMessage m q in
  let rp := Part000.sendMessage m q in
  let okw := can_send (WebsocketJs.ws sw) m in
  let okp := can_send (Part000.socket sp) m in
  result rw sw = Normal okw
  /\ result rp sp = Normal okp
  /\ frames (trace (WebsocketJs.env (exec rw sw)))
     = frames (trace (WebsocketJs.env sw)) ++ (if okw then [m] else [])
  /\ frames (trace (Part000.env (exec rp sp)))
     = frames (trace (Part000.env sp)) ++ (if okp then [m] else [])
  /\ WebsocketJs.messageQueue (exec rw sw)
     = WebsocketJs.messageQueue sw
       ++ (if well_formed m && negb okw && q
           then [Queued m (now (WebsocketJs.env sw)) 0] else [])
  /\ Part000.messageQueue (exec rp sp)
     = Part000.messageQueue sp
       ++ (if well_formed m && negb okp && q
           then [Queued m (now (Part000.env sp)) 0] else []).
Proof.
  cbv zeta. unfold result, exec, can_send.
  rewrite wsjs_sendMessage_eq, p000_sendMessage_eq.
  destruct (well_formed m); cbn [andb negb fst snd];
    [|rewrite !app_nil_r; repeat split; reflexivity].
  split; [|split; [|split; [|split; [|split]]]].
  - destruct (sock_open (WebsocketJs.ws sw)); [|reflexivity].
    destruct (serializable m); reflexivity.
  - destruct (sock_open (Part000.socket sp)); [|reflexivity].
    destruct (serializable m); reflexivity.
  - destruct (sock_open (WebsocketJs.ws sw)); cbn [andb fst snd].
    + destruct (serializable m), q; cbn; rewrite frames_app; cbn;
        rewrite ?app_nil_r; reflexivity.
    + unfold wsjs_reconnecting.
      destruct q; cbn;
        destruct (negb (WebsocketJs.connected sw)
                  && (WebsocketJs.reconnectAttempts sw =? 0)); cbn;
        rewrite ?app_nil_r; try reflexivity;
        destruct (WebsocketJs.reconnectAttempts sw + 1
                  >? WebsocketJs.MAX_RECONNECT_ATTEMPTS); cbn;
        rewrite ?frames_app; cbn; rewrite ?app_nil_r; reflexivity.
  - destruct (sock_open (Part000.socket sp)); cbn [andb fst snd].
    + destruct (serializable m), q; cbn; rewrite frames_app; cbn;
        rewrite ?app_nil_r; reflexivity.
    + unfold p000_reconnecting.
      destruct q; cbn;
        destruct (negb (Part000.is_connecting (Part000.connectionStatus sp)));
        cbn; rewrite ?app_nil_r; try reflexivity;
        destruct (Part000.reconnectAttempts sp
                  >=? Part000.MAX_RECONNECT_ATTEMPTS); cbn;
        rewrite ?frames_app, ?listeners_trace_frames; cbn;
        rewrite ?app_nil_r; reflexivity.
  - destruct (sock_open (WebsocketJs.ws sw)); cbn [andb negb fst snd].
    + destruct (serializable m), q; cbn; rewrite ?app_nil_r; reflexivity.
    + unfold wsjs_reconnecting.
      destruct q; cbn;
        destruct (negb (WebsocketJs.connected sw)
                  && (WebsocketJs.reconnectAttempts sw =? 0)); cbn;
        rewrite ?app_nil_r; try reflexivity;
        destruct (WebsocketJs.reconnectAttempts sw + 1
                  >? WebsocketJs.MAX_RECONNECT_ATTEMPTS); cbn;
        rewrite ?app_nil_r; reflexivity.
  - destruct (sock_open (Part000.socket sp)); cbn [andb negb fst snd].
    + destruct (serializable m), q; cbn; rewrite ?app_nil_r; reflexivity.
    + unfold p000_reconnecting.
      destruct q; cbn;
        destruct (negb (Part000.is_connecting (Part000.connectionStatus sp)));
        cbn; rewrite ?app_nil_r; try reflexivity;
        destruct (Part000.reconnectAttempts sp
                  >=? Part000.MAX_RECONNECT_ATTEMPTS); cbn;
        rewrite ?app_nil_r; reflexivity.
Qed.

(** *** C7: a message that cannot be serialized *)

(** C7 as stated, on websocket.js.  A message with a [BigInt] in it, sent
    on an open socket: the call returns [false] and the message is on the
    queue, where section 7 has it never queued. *)
Lemma C7_encode_failure_is_queued :
  let st := wsjs_open 0 0 [] in
  let run := WebsocketJs.sendMessage msg_win true in
  serializable msg_win = false
  /\ result run st = Normal false
  /\ WebsocketJs.messageQueue (exec run st) = [Queued msg_win 0 0]
  /\ WebsocketJs.messageQueue (exec run st) <> WebsocketJs.messageQueue st.
Proof.
  vm_compute. repeat split; try reflexivity. discriminate.
Qed.

(** C7 (as amended).  When a message that passes the checks cannot be
    serialized and the socket is open, the call returns [false] at once,
    hands nothing to the transport and shows the failure; the message is
    put at the end of the queue when [queueIfOffline] holds (the default),
    and the queue is left as it was only when the caller passes [false]. *)
Theorem C7_encode_failure (m : jsval) (q : bool)
    (sw : WebsocketJs.state) (sp : Part000.state) :
  well_formed m = true ->
  serializable m = false ->
  sock_open (WebsocketJs.ws sw) = true ->
  sock_open (Part000.socket sp) = true ->
  let rw := WebsocketJs.sendMessage m q in
  let rp := Part000.sendMessage m q in
  result rw sw = Normal false
  /\ result rp sp = Normal false
  /\ trace (WebsocketJs.env (exec rw sw))
     = trace (WebsocketJs.env sw) ++ [Notify N_failed_to_send]
  /\ trace (Part000.env (exec rp sp))
     = trace (Part000.env sp) ++ [Notify N_failed_to_send]
  /\ WebsocketJs.messageQueue (exec rw sw)
     = WebsocketJs.messageQueue sw
       ++ (if q then [Queued m (now (WebsocketJs.env sw)) 0] else [])
  /\ Part000.messageQueue (exec rp sp)
     = Part000.messageQueue sp
       ++ (if q then [Queued m (now (Part000.env sp)) 0] else []).
Proof.
  intros Hw Hs How Hop. cbv zeta. unfold result, exec.
  rewrite wsjs_sendMessage_eq, p000_sendMessage_eq.
  rewrite Hw, Hs, How, Hop. cbn [fst snd].
  destruct q; cbn; rewrite ?app_nil_r; repeat split; reflexivity.
Qed.

Lemma C7_encode_failure_witness :
  result (WebsocketJs.sendMessage msg_win true) (wsjs_open 0 0 []) = Normal false
  /\ WebsocketJs.messageQueue
       (exec (WebsocketJs.sendMessage msg_win true) (wsjs_open 0 0 []))
     = [Queued msg_win 0 0]
  /\ Part000.messageQueue
       (exec (Part000.sendMessage msg_win false) (p000_open 0 []))
     = [].
Proof.
  destruct (C7_encode_failure msg_win true (wsjs_open 0 0 []) (p000_open 0 []))
    as (Hr & _ & _ & _ & Hq & _); try reflexivity.
  destruct (C7_encode_failure msg_win false (wsjs_open 0 0 []) (p000_open 0 []))
    as (_ & _ & _ & _ & _ & Hq'); try reflexivity.
  split; [exact Hr|]. split; [exact Hq | exact Hq'].
Defined.

(** *** C8: [disconnect()] *)

(** C8 as stated, on websocket.js.  The module loses its connection, which
    schedules a reconnection, and the page then calls [disconnect()]: the
    timeout is still pending, and when it fires a new socket is created. *)
Lemma C8_pending_reconnect_survives_disconnect :
  let lost := exec (WebsocketJs.socket_closes 1006) (wsjs_open 0 0 []) in
  let st := exec WebsocketJs.disconnect lost in
  let st' := exec (WebsocketJs.timer_fires 0) st in
  timeouts (WebsocketJs.env lost) = [Timer 3000 ReconnectTimer]
  /\ timeouts (WebsocketJs.env st) = [Timer 3000 ReconnectTimer]
  /\ timeouts (WebsocketJs.env st) <> []
  /\ WebsocketJs.ws st'
     = Some (Socket CONNECTING (WebsocketJs.stored_options st))
  /\ trace (WebsocketJs.env st') = trace (WebsocketJs.env st) ++ [WsNew].
Proof.
  vm_compute. repeat split; try reflexivity. discriminate.
Qed.

(** C8 (as amended).  In websocket.js and in part_000, [disconnect()]
    returns, cancels the heartbeat timer (it calls [clearInterval] exactly
    when an interval handle is held, sets no interval and holds no handle
    afterwards), calls [close] with code 1000 on the socket when there is
    one, forgets the socket and leaves the outbound queue as it was; it
    does not touch the pending timeouts.  A second [disconnect()] right
    after makes no further [close] or [clearInterval] call, and the close
    event with code 1000 that follows a disconnect schedules nothing. *)
Theorem C8_disconnect (sw : WebsocketJs.state) (sp : Part000.state) :
  (exists sw1 sw2,
     WebsocketJs.disconnect sw = (Normal tt, sw1)
     /\ WebsocketJs.disconnect sw1 = (Normal tt, sw2)
     /\ WebsocketJs.pingInterval sw1 = false
     /\ interval_calls (trace (WebsocketJs.env sw1))
        = interval_calls (trace (WebsocketJs.env sw))
          ++ (if WebsocketJs.pingInterval sw then [ClearInterval] else [])
     /\ interval_calls (trace (WebsocketJs.env sw2))
        = interval_calls (trace (WebsocketJs.env sw1))
     /\ WebsocketJs.ws sw1 = None
     /\ WebsocketJs.messageQueue sw1 = WebsocketJs.messageQueue sw
     /\ timeouts (WebsocketJs.env sw1) = timeouts (WebsocketJs.env sw)
     /\ closes (trace (WebsocketJs.env sw1))
        = closes (trace (WebsocketJs.env sw))
          ++ (match WebsocketJs.ws sw with
              | Some _ => [Some 1000]
              | None => []
              end)
     /\ closes (trace (WebsocketJs.env sw2))
        = closes (trace (WebsocketJs.env sw1))
     /\ timeouts (WebsocketJs.env (exec (WebsocketJs.socket_closes 1000) sw1))
        = timeouts (WebsocketJs.env sw1))
  /\ (exists sp1 sp2,
        Part000.disconnect sp = (Normal tt, sp1)
        /\ Part000.disconnect sp1 = (Normal tt, sp2)
        /\ Part000.pingInterval sp1 = false
        /\ interval_calls (trace (Part000.env sp1))
           = interval_calls (trace (Part000.env sp))
             ++ (if Part000.pingInterval sp then [ClearInterval] else [])
        /\ interval_calls (trace (Part000.env sp2))
           = interval_calls (trace (Part000.env sp1))
        /\ Part000.socket sp1 = None
        /\ Part000.messageQueue sp1 = Part000.messageQueue sp
        /\ timeouts (Part000.env sp1) = timeouts (Part000.env sp)
        /\ closes (trace (Part000.env sp1))
           = closes (trace (Part000.env sp))
             ++ (match Part000.socket sp with
                 | Some _ => [Some 1000]
                 | None => []
                 end)
        /\ closes (trace (Part000.env sp2)) = closes (trace (Part000.env sp1))
        /\ timeouts (Part000.env (exec (Part000.socket_closes 1000) sp1))
           = timeouts (Part000.env sp1)).
Proof.
  split.
  - destruct (wsjs_disconnect_spec sw) as (sw1 & Hrun & Hp & Hws & Hq & Ht & Hc).
    destruct (wsjs_disconnect_spec sw1) as (sw2 & Hrun2 & _ & _ & _ & _ & Hc2).
    rewrite Hws, app_nil_r in Hc2.
    pose proof (wsjs_disconnect_intervals sw) as Hi.
    pose proof (wsjs_disconnect_intervals sw1) as Hi2.
    unfold exec in Hi, Hi2. rewrite Hrun in Hi. rewrite Hrun2, Hp in Hi2.
    cbn [snd] in Hi, Hi2. rewrite app_nil_r in Hi2.
    exists sw1, sw2. repeat (split; [assumption|]).
    unfold exec, WebsocketJs.socket_closes.
    unfold bind at 1. unfold gets at 1. rewrite Hws.
    destruct (wsjs_ws_onclose_spec 1000 sw1) as (s & Hs & _ & Hts & _).
    rewrite Hs. cbn [snd]. rewrite Hts. cbn. apply app_nil_r.
  - destruct (p000_disconnect_spec sp)
      as (sp1 & Hrun & Hp & Hso & Hq & Ht & _ & Hc).
    destruct (p000_disconnect_spec sp1)
      as (sp2 & Hrun2 & _ & _ & _ & _ & _ & Hc2).
    rewrite Hso, app_nil_r in Hc2.
    pose proof (p000_disconnect_intervals sp) as Hi.
    pose proof (p000_disconnect_intervals sp1) as Hi2.
    unfold exec in Hi, Hi2. rewrite Hrun in Hi. rewrite Hrun2, Hp in Hi2.
    cbn [snd] in Hi, Hi2. rewrite app_nil_r in Hi2.
    exists sp1, sp2. repeat (split; [assumption|]).
    unfold exec, Part000.socket_closes.
    unfold bind at 1. unfold gets at 1. rewrite Hso.
    destruct (p000_socket_onclose_spec 1000 sp1) as (s & Hs & _ & Hts & _).
    rewrite Hs. cbn [snd]. rewrite Hts. cbn. apply app_nil_r.
Qed.

(** *** C9: dispatch to the subscribers of an event *)

Section ListenersFacts.
Import Listeners.

Lemma deliveries_app (t1 t2 : list effect) :
  deliveries (t1 ++ t2) = deliveries t1 ++ deliveries t2.
Proof.
  induction t1 as [|e t1 IH]; [reflexivity|].
  destruct e; simpl; rewrite ?IH; reflexivity.
Qed.

Lemma keeps_forEach_Forall {S A} (I : S -> Prop) (f : A -> M S unit)
    (l : list A) :
  List.Forall (fun x => keeps I (f x)) l -> keeps I (forEach f l).
Proof.
  induction 1 as [|x l Hx _ IH]; [apply keeps_ret|].
  cbn [forEach]. apply keeps_bind; [exact Hx | intros _; exact IH].
Qed.

Lemma keeps_forEach_from (I : store -> Prop) (f : nat -> M store unit)
    (r k n : nat) :
  (forall cb, keeps I (f cb)) -> keeps I (forEach_from f r k n).
Proof.
  intros Hf. revert k. induction n as [|n IH]; intros k; [apply keeps_ret|].
  cbn [forEach_from]. apply keeps_bind_gets. intros s Hs.
  apply (keeps_bind I); [|intros _; apply IH|exact Hs].
  destruct (array_at r s !! k); [apply Hf | apply keeps_ret].
Qed.

Lemma keeps_array_forEach (I : store -> Prop) (f : nat -> M store unit)
    (r : nat) :
  (forall cb, keeps I (f cb)) -> keeps I (array_forEach f r).
Proof.
  intros Hf. unfold array_forEach. apply keeps_bind_gets. intros s Hs.
  apply keeps_forEach_from; assumption.
Qed.

(** A dispatch over an array that only grows at its end. *)

Section Dispatch.
Variables addEventListener removeEventListener : string -> nat -> M store unit.
Variable subs : subscribers.
Variables (event : string) (data : jsval) (r : nat) (l : list nat).

(** What holds of the arrays and the table while the dispatch runs, and
    the calls the subscribers may make. *)
Variable I : store -> Prop.
Variable allowed : listener_call -> Prop.

Hypothesis I_begins : forall s, I s -> begins_with r l s.
Hypothesis I_history :
  forall s h, I s -> I {| arrays := arrays s; table := table s; history := h |}.
Hypothesis calls_allowed :
  forall cb d s, List.Forall allowed (calls (subs cb d s)).
Hypothesis allowed_keeps :
  forall c h, allowed c ->
    keeps (fun s => I s /\ history s = h)
          (run_call addEventListener removeEventListener c).

Lemma reaction_keeps (cb : nat) (rn : reaction) (h : list effect) :
  List.Forall allowed (calls rn) ->
  keeps (fun s => I s /\ history s = h)
        (forEach (run_call addEventListener removeEventListener) (calls rn) ;;
         if raises rn then throw (Raised cb) else ret tt).
Proof.
  intros Hrn. apply keeps_bind.
  - apply keeps_forEach_Forall.
    eapply List.Forall_impl; [|exact Hrn].
    intros c Hc. apply allowed_keeps. exact Hc.
  - intros _. destruct (raises rn); [apply keeps_throw | apply keeps_ret].
Qed.

(** A call of a subscriber adds its entry to the history and nothing
    else, whether it returns or raises. *)
Lemma call_history (cb : nat) (s : store) :
  I s ->
  let s' := snd (call addEventListener removeEventListener subs cb event data s) in
  I s' /\ history s' = history s ++ [Invoke cb event data].
Proof.
  intros Hs. unfold call, enter, record.
  unfold bind at 1. unfold bind at 1. unfold modify at 1. unfold gets at 1.
  apply (reaction_keeps cb _ (history s ++ [Invoke cb event data]));
    [apply calls_allowed|].
  split; [apply I_history; exact Hs | reflexivity].
Qed.

(** The step of the dispatch on one subscriber returns, and has entered
    the subscriber with the payload. *)
Lemma deliver_spec (cb : nat) (s : store) :
  I s ->
  exists s',
    try_catch (call addEventListener removeEventListener subs cb event data)
              (fun e => record (ConsoleError event e)) s
    = (Normal tt, s')
    /\ I s'
    /\ deliveries (history s')
       = deliveries (history s) ++ [(cb, event, data)].
Proof.
  intros Hs. destruct (call_history cb s Hs) as [HI Hh].
  unfold try_catch.
  destruct (call addEventListener removeEventListener subs cb event data s)
    as [[[]|e] s1]; cbn [snd] in HI, Hh.
  - exists s1. split; [reflexivity|]. split; [exact HI|].
    rewrite Hh, deliveries_app. reflexivity.
  - eexists. split; [reflexivity|]. cbn. split; [apply I_history; exact HI|].
    rewrite Hh, !deliveries_app. cbn. rewrite app_nil_r. reflexivity.
Qed.

(** The walk from index [k] on: every element of [l] from there on is
    entered, in order. *)
Lemma forEach_from_spec (n k : nat) (s : store) :
  (k + n = length l)%nat -> I s ->
  exists s',
    forEach_from
      (fun cb =>
         try_catch (call addEventListener removeEventListener subs cb event data)
                   (fun e => record (ConsoleError event e)))
      r k n s
    = (Normal tt, s')
    /\ I s'
    /\ deliveries (history s')
       = deliveries (history s) ++ delivered event data (drop k l).
Proof.
  revert k s. induction n as [|n IH]; intros k s Hk Hs.
  - exists s. split; [reflexivity|]. split; [exact Hs|].
    rewrite drop_ge by lia. cbn. rewrite app_nil_r. reflexivity.
  - cbn [forEach_from]. unfold bind at 1. unfold gets at 1.
    destruct (I_begins s Hs) as [more Hr].
    assert (Hlt : (k < length l)%nat) by lia.
    destruct (lookup_lt_is_Some_2 l k Hlt) as [cb Hcb].
    assert (Ha : array_at r s = l ++ more)
      by (unfold array_at; rewrite Hr; reflexivity).
    rewrite Ha.
    rewrite (lookup_app_l_Some _ _ _ _ Hcb).
    unfold bind at 1.
    destruct (deliver_spec cb s Hs) as (s1 & Hrun & H1 & Hd1).
    rewrite Hrun.
    destruct (IH (S k) s1) as (s2 & Hrun2 & H2 & Hd2); [lia | exact H1 |].
    exists s2. split; [exact Hrun2|]. split; [exact H2|].
    rewrite Hd2, Hd1, (drop_S _ _ _ Hcb), <- app_assoc. reflexivity.
Qed.

Lemma dispatch_spec (s : store) :
  I s -> array_at r s = l ->
  exists s',
    dispatch addEventListener removeEventListener subs event data r s
    = (Normal tt, s')
    /\ I s'
    /\ deliveries (history s')
       = deliveries (history s) ++ delivered event data l.
Proof.
  intros Hs Hl. unfold dispatch, array_forEach.
  unfold bind at 1. unfold gets at 1. rewrite Hl.
  apply (forEach_from_spec (length l) 0 s); [lia | exact Hs].
Qed.

End Dispatch.

(** *** The arrays and the table under the calls of the two modules *)

Lemma arrays_push (A : list (list nat)) (r r' cb : nat) (l : list nat) :
  (exists more, A !! r = Some (l ++ more)) ->
  exists more, alter (fun a => a ++ [cb]) r' A !! r = Some (l ++ more).
Proof.
  intros [more H]. destruct (decide (r' = r)) as [->|Hne].
  - exists (more ++ [cb]). rewrite list_lookup_alter_eq, H. cbn.
    rewrite app_assoc. reflexivity.
  - exists more. rewrite list_lookup_alter_ne by exact Hne. exact H.
Qed.

Lemma arrays_new (A : list (list nat)) (r : nat) (l a : list nat) :
  (exists more, A !! r = Some (l ++ more)) ->
  exists more, (A ++ [a]) !! r = Some (l ++ more).
Proof.
  intros [more H]. exists more. apply lookup_app_l_Some. exact H.
Qed.

Lemma arrays_other (A : list (list nat)) (r r' : nat) (l : list nat)
    (f : list nat -> list nat) :
  r' <> r ->
  (exists more, A !! r = Some (l ++ more)) ->
  exists more, alter f r' A !! r = Some (l ++ more).
Proof.
  intros Hne [more H]. exists more.
  rewrite list_lookup_alter_ne by exact Hne. exact H.
Qed.

Lemma tidy_update (s : store) (r : nat) (f : list nat -> list nat) :
  tidy s -> tidy (set_arrays (alter f r (arrays s)) s).
Proof.
  intros [Hv Hi]. split; cbn.
  - intros ev r' H. rewrite length_alter. eapply Hv, H.
  - exact Hi.
Qed.

Lemma tidy_new (s : store) (ev : string) (a : list nat) :
  tidy s ->
  tidy (set_table (<[ev := length (arrays s)]> (table s))
          (set_arrays (arrays s ++ [a]) s)).
Proof.
  intros [Hv Hi]. split; cbn.
  - intros ev' r H. rewrite length_app. cbn.
    apply lookup_insert_Some in H as [[_ <-]|[_ H]]; [lia|].
    apply Hv in H. lia.
  - intros ev1 ev2 r H1 H2.
    apply lookup_insert_Some in H1 as [[<- <-]|[Hn1 H1]];
      apply lookup_insert_Some in H2 as [[<- E]|[Hn2 H2]].
    + reflexivity.
    + apply Hv in H2. lia.
    + apply Hv in H1. lia.
    + eapply Hi; eassumption.
Qed.

Lemma tidy_history (s : store) (h : list effect) :
  tidy s -> tidy {| arrays := arrays s; table := table s; history := h |}.
Proof. intros H. exact H. Qed.

Lemma tidy_array (s : store) (ev : string) (r : nat) :
  tidy s -> table s !! ev = Some r -> arrays s !! r = Some (array_at r s).
Proof.
  intros [Hv _] H. apply Hv in H.
  destruct (lookup_lt_is_Some_2 _ _ H) as [a Ha].
  unfold array_at. rewrite Ha. reflexivity.
Qed.

Ltac lunfold :=
  unfold bind, gets, get, modify, ret, throw, new_array, update_array, record.

(** *** src/websocket.js *)

Lemma wsjs_events_loaded_tidy : tidy WebsocketJsEvents.loaded.
Proof.
  split; cbn; intros *; rewrite lookup_empty; discriminate.
Qed.

Lemma wsjs_events_add_tidy (ev : string) (cb : nat) :
  keeps tidy (WebsocketJsEvents.addEventListener ev cb).
Proof.
  intros s Hs. unfold WebsocketJsEvents.addEventListener. lunfold.
  destruct (table s !! ev) as [r|]; cbn.
  - apply tidy_update. exact Hs.
  - apply (tidy_update (set_table _ (set_arrays _ s))).
    apply tidy_new. exact Hs.
Qed.

Lemma wsjs_events_remove_tidy (ev : string) (cb : nat) :
  keeps tidy (WebsocketJsEvents.removeEventListener ev cb).
Proof.
  intros s Hs. unfold WebsocketJsEvents.removeEventListener. lunfold.
  destruct (table s !! ev) as [r|]; cbn; [|exact Hs].
  apply tidy_update. exact Hs.
Qed.

Lemma keeps_record (I : store -> Prop) (e : effect) :
  (forall s h, I s -> I {| arrays := arrays s; table := table s; history := h |}) ->
  keeps I (record e).
Proof. intros H s Hs. apply H. exact Hs. Qed.

Lemma keeps_dispatch (I : store -> Prop)
    (add remove : string -> nat -> M store unit) (subs : subscribers)
    (ev : string) (d : jsval) (r : nat) :
  (forall s h, I s -> I {| arrays := arrays s; table := table s; history := h |}) ->
  (forall e c, keeps I (add e c)) -> (forall e c, keeps I (remove e c)) ->
  keeps I (dispatch add remove subs ev d r).
Proof.
  intros Hh Ha Hr. unfold dispatch. apply keeps_array_forEach. intros cb.
  apply keeps_try_catch; [|intros e; apply keeps_record; exact Hh].
  unfold call, enter. apply keeps_bind.
  { apply keeps_bind; [apply keeps_record; exact Hh|]. intros _.
    apply keeps_gets. }
  intros rn. apply keeps_bind.
  - apply keeps_forEach. intros [e c|e c]; cbn; [apply Ha | apply Hr].
  - intros _. destruct (raises _); [apply keeps_throw | apply keeps_ret].
Qed.

Lemma wsjs_events_handle_tidy (subs : subscribers) (i : listener_input) :
  keeps tidy (wsjs_listener_handle subs i).
Proof.
  destruct i as [[ev cb|ev cb]|ev d]; cbn.
  - apply wsjs_events_add_tidy.
  - apply wsjs_events_remove_tidy.
  - unfold WebsocketJsEvents.triggerEvent. apply keeps_bind_gets. intros s Hs.
    destruct (table s !! ev); [|exact Hs].
    apply keeps_dispatch; auto using tidy_history, wsjs_events_add_tidy,
      wsjs_events_remove_tidy.
Qed.

Lemma wsjs_events_run_tidy (subs : subscribers) (l : list listener_input) :
  tidy (exec (forEach (wsjs_listener_handle subs) l) WebsocketJsEvents.loaded).
Proof.
  apply (keeps_forEach tidy); [|apply wsjs_events_loaded_tidy].
  intros i. apply wsjs_events_handle_tidy.
Qed.

(** Registration puts the callback at the end of the array of its event. *)
Lemma wsjs_events_add_spec (ev : string) (cb : nat) (s : store) :
  tidy s ->
  exists s',
    WebsocketJsEvents.addEventListener ev cb s = (Normal tt, s')
    /\ tidy s'
    /\ listeners ev s' = listeners ev s ++ [cb]
    /\ history s' = history s.
Proof.
  intros Hs. pose proof (wsjs_events_add_tidy ev cb s Hs) as Ht.
  revert Ht. unfold WebsocketJsEvents.addEventListener, listeners. lunfold.
  destruct (table s !! ev) as [r|] eqn:E; cbn; intros Ht.
  - eexists. split; [reflexivity|]. split; [exact Ht|]. cbn.
    rewrite E. unfold array_at. cbn.
    rewrite list_lookup_alter_eq, (tidy_array s ev r Hs E). cbn.
    split; reflexivity.
  - eexists. split; [reflexivity|]. split; [exact Ht|]. cbn.
    rewrite lookup_insert_eq. unfold array_at. cbn.
    rewrite list_lookup_alter_eq, lookup_app_r, Nat.sub_diag by lia. cbn.
    split; reflexivity.
Qed.

Lemma wsjs_events_register_all (ev : string) (cbs : list nat) (s : store) :
  tidy s ->
  exists s',
    forEach (WebsocketJsEvents.addEventListener ev) cbs s = (Normal tt, s')
    /\ tidy s'
    /\ listeners ev s' = listeners ev s ++ cbs
    /\ history s' = history s.
Proof.
  revert s. induction cbs as [|cb cbs IH]; intros s Hs.
  - exists s. rewrite app_nil_r. auto.
  - cbn [forEach]. unfold bind at 1.
    destruct (wsjs_events_add_spec ev cb s Hs) as (s1 & Hrun & H1 & Hl1 & Hh1).
    rewrite Hrun.
    destruct (IH s1 H1) as (s2 & Hrun2 & H2 & Hl2 & Hh2).
    exists s2. split; [exact Hrun2|]. split; [exact H2|].
    rewrite Hl2, Hl1, Hh2, Hh1, <- app_assoc. auto.
Qed.

(** A call that is not a removal from [event] leaves the elements of its
    array where they are. *)
Lemma wsjs_events_call_keeps (event : string) (r : nat) (l : list nat)
    (c : listener_call) (h : list effect) :
  removes event c = false ->
  keeps (fun s => (begins_with r l s
                   /\ forall ev, table s !! ev = Some r -> ev = event)
                  /\ history s = h)
        (run_call WebsocketJsEvents.addEventListener
                  WebsocketJsEvents.removeEventListener c).
Proof.
  intros Hc s [[Hb Hi] Hh]. destruct c as [ev cb|ev cb]; cbn in *.
  - unfold WebsocketJsEvents.addEventListener. lunfold.
    destruct (table s !! ev) as [r'|] eqn:E; cbn.
    + split; [split|]; [apply arrays_push; exact Hb | exact Hi | exact Hh].
    + split; [split|]; [apply arrays_push, arrays_new; exact Hb | | exact Hh].
      intros ev' H. apply lookup_insert_Some in H as [[_ H]|[_ H]];
        [|apply Hi; exact H].
      destruct Hb as [more Hb]. apply lookup_lt_Some in Hb. lia.
  - unfold WebsocketJsEvents.removeEventListener. lunfold.
    destruct (table s !! ev) as [r'|] eqn:E; cbn; [|auto].
    split; [split|]; [| exact Hi | exact Hh].
    apply arrays_other; [|exact Hb].
    intros ->. apply Hi in E. subst ev.
    rewrite String.eqb_refl in Hc. discriminate.
Qed.

(** As long as no subscriber removes a listener of [event] while it runs,
    a dispatch of websocket.js returns and has entered every subscriber of
    the event, in the order of the array, each with the payload. *)
Lemma wsjs_events_dispatch_spec (subs : subscribers) (event : string)
    (data : jsval) (s : store) :
  tidy s ->
  (forall cb d s0,
     List.Forall (fun c => removes event c = false) (calls (subs cb d s0))) ->
  exists s',
    WebsocketJsEvents.triggerEvent subs event data s = (Normal tt, s')
    /\ deliveries (history s')
       = deliveries (history s) ++ delivered event data (listeners event s).
Proof.
  intros Hs Hsubs. unfold WebsocketJsEvents.triggerEvent, listeners.
  unfold bind at 1. unfold gets at 1.
  destruct (table s !! event) as [r|] eqn:E.
  - destruct (dispatch_spec WebsocketJsEvents.addEventListener
                WebsocketJsEvents.removeEventListener subs event data r
                (array_at r s)
                (fun s0 => begins_with r (array_at r s) s0
                           /\ forall ev, table s0 !! ev = Some r -> ev = event)
                (fun c => removes event c = false)) with s
      as (s' & Hrun & _ & Hd).
    + intros s0 [H _]. exact H.
    + intros s0 h H. exact H.
    + exact Hsubs.
    + intros c h Hc. apply wsjs_events_call_keeps. exact Hc.
    + split.
      * exists []. rewrite app_nil_r. eapply tidy_array; eassumption.
      * intros ev H. destruct Hs as [_ Hi]. eapply Hi; eassumption.
    + reflexivity.
    + exists s'. split; assumption.
  - exists s. cbn. rewrite app_nil_r. auto.
Qed.

(** A subscriber that takes itself off [event] when it is called. *)
Lemma wsjs_events_self_removing_call (subs : subscribers) (event : string)
    (data : jsval) (a r : nat) (A : list (list nat)) (h : list effect) :
  (forall d s, subs a d s = Reaction [Remove event a] false) ->
  call WebsocketJsEvents.addEventListener WebsocketJsEvents.removeEventListener
       subs a event data (Store A (<[event := r]> ∅) h)
  = (Normal tt,
     Store (alter (remove_first a) r A) (<[event := r]> ∅)
           (h ++ [Invoke a event data])).
Proof.
  intros Ha. unfold call, enter. lunfold. cbn. rewrite Ha. cbn.
  unfold WebsocketJsEvents.removeEventListener. lunfold. cbn.
  rewrite lookup_insert_eq. reflexivity.
Qed.

(** The first of two subscribers takes itself off the event when it is
    called: the dispatch passes over the second. *)
Lemma wsjs_events_self_removal (subs : subscribers) (event : string)
    (data : jsval) (a b : nat) :
  (forall d s, subs a d s = Reaction [Remove event a] false) ->
  let s :=
    exec (forEach (WebsocketJsEvents.addEventListener event) [a; b])
         WebsocketJsEvents.loaded in
  listeners event s = [a; b]
  /\ exists s',
       WebsocketJsEvents.triggerEvent subs event data s = (Normal tt, s')
       /\ deliveries (history s') = [(a, event, data)]
       /\ listeners event s' = [b].
Proof.
  intros Ha.
  assert (Hs : exec (forEach (WebsocketJsEvents.addEventListener event) [a; b])
                    WebsocketJsEvents.loaded
               = Store [[a; b]] (<[event := 0%nat]> ∅) []).
  { unfold exec, forEach, WebsocketJsEvents.addEventListener. lunfold. cbn.
    rewrite lookup_empty. cbn. rewrite lookup_insert_eq. reflexivity. }
  cbv zeta. rewrite Hs. split.
  - unfold listeners. cbn. rewrite lookup_insert_eq. reflexivity.
  - unfold WebsocketJsEvents.triggerEvent.
    unfold bind at 1. unfold gets at 1. cbn [table].
    rewrite lookup_insert_eq. unfold dispatch, array_forEach.
    unfold bind at 1. unfold gets at 1.
    change (array_at 0 (Store [[a; b]] (<[event := 0%nat]> ∅) []))
      with [a; b].
    cbn [length forEach_from].
    unfold bind at 1. unfold gets at 1.
    change (array_at 0 (Store [[a; b]] (<[event := 0%nat]> ∅) []))
      with [a; b].
    change ([a; b] !! 0%nat) with (Some a).
    unfold bind at 1. unfold try_catch at 1.
    rewrite (wsjs_events_self_removing_call subs event data a 0 _ _ Ha).
    cbn. rewrite Nat.eqb_refl. cbn.
    eexists. split; [reflexivity|]. cbn.
    unfold listeners. cbn. rewrite lookup_insert_eq.
    split; reflexivity.
Qed.

(** *** src/unnamed/part_000 *)

Lemma p000_events_loaded_tidy : tidy Part000Events.loaded.
Proof.
  split; cbn.
  - intros ev r H.
    repeat (apply lookup_insert_Some in H as [[_ <-]|[_ H]]; [lia|]).
    rewrite lookup_empty in H. discriminate.
  - intros ev1 ev2 r H1 H2.
    repeat (apply lookup_insert_Some in H1 as [[<- <-]|[? H1]]);
      try (rewrite lookup_empty in H1; discriminate);
      repeat (apply lookup_insert_Some in H2 as [[<- ?]|[? H2]]);
      try (rewrite lookup_empty in H2; discriminate);
      congruence.
Qed.

Lemma p000_events_add_tidy (ev : string) (cb : nat) :
  keeps tidy (Part000Events.addEventListener ev cb).
Proof.
  intros s Hs. unfold Part000Events.addEventListener. lunfold.
  destruct (Part000Events.lookup_property ev s) as [r| |]; cbn.
  - apply tidy_update. exact Hs.
  - exact Hs.
  - apply (tidy_update (set_table _ (set_arrays _ s))).
    apply tidy_new. exact Hs.
Qed.

Lemma p000_events_remove_tidy (ev : string) (cb : nat) :
  keeps tidy (Part000Events.removeEventListener ev cb).
Proof.
  intros s Hs. unfold Part000Events.removeEventListener. lunfold.
  destruct (Part000Events.lookup_property ev s) as [r| |]; cbn;
    [|exact Hs|exact Hs].
  apply (tidy_new s). exact Hs.
Qed.

Lemma p000_events_handle_tidy (subs : subscribers) (i : listener_input) :
  keeps tidy (p000_listener_handle subs i).
Proof.
  destruct i as [[ev cb|ev cb]|ev d]; cbn.
  - apply p000_events_add_tidy.
  - apply p000_events_remove_tidy.
  - unfold Part000Events.triggerEvent. apply keeps_bind_gets. intros s Hs.
    destruct (Part000Events.lookup_property ev s); [|exact Hs|exact Hs].
    apply keeps_dispatch; auto using tidy_history, p000_events_add_tidy,
      p000_events_remove_tidy.
Qed.

Lemma p000_events_run_tidy (subs : subscribers) (l : list listener_input) :
  tidy (exec (forEach (p000_listener_handle subs) l) Part000Events.loaded).
Proof.
  apply (keeps_forEach tidy); [|apply p000_events_loaded_tidy].
  intros i. apply p000_events_handle_tidy.
Qed.

(** Registration for a name that no object inherits puts the callback at
    the end of the array of its event. *)
Lemma p000_events_add_spec (ev : string) (cb : nat) (s : store) :
  tidy s -> Part000Events.inherited ev = false ->
  exists s',
    Part000Events.addEventListener ev cb s = (Normal tt, s')
    /\ tidy s'
    /\ listeners ev s' = listeners ev s ++ [cb]
    /\ history s' = history s.
Proof.
  intros Hs Hn. pose proof (p000_events_add_tidy ev cb s Hs) as Ht.
  revert Ht.
  unfold Part000Events.addEventListener, Part000Events.lookup_property,
    listeners. lunfold.
  destruct (table s !! ev) as [r|] eqn:E; [|rewrite Hn]; cbn; intros Ht.
  - eexists. split; [reflexivity|]. split; [exact Ht|]. cbn.
    rewrite E. unfold array_at. cbn.
    rewrite list_lookup_alter_eq, (tidy_array s ev r Hs E). cbn.
    split; reflexivity.
  - eexists. split; [reflexivity|]. split; [exact Ht|]. cbn.
    rewrite lookup_insert_eq. unfold array_at. cbn.
    rewrite list_lookup_alter_eq, lookup_app_r, Nat.sub_diag by lia. cbn.
    split; reflexivity.
Qed.

Lemma p000_events_register_all (ev : string) (cbs : list nat) (s : store) :
  tidy s -> Part000Events.inherited ev = false ->
  exists s',
    forEach (Part000Events.addEventListener ev) cbs s = (Normal tt, s')
    /\ tidy s'
    /\ listeners ev s' = listeners ev s ++ cbs
    /\ history s' = history s.
Proof.
  intros Hs Hn. revert s Hs. induction cbs as [|cb cbs IH]; intros s Hs.
  - exists s. rewrite app_nil_r. auto.
  - cbn [forEach]. unfold bind at 1.
    destruct (p000_events_add_spec ev cb s Hs Hn)
      as (s1 & Hrun & H1 & Hl1 & Hh1).
    rewrite Hrun.
    destruct (IH s1 H1) as (s2 & Hrun2 & H2 & Hl2 & Hh2).
    exists s2. split; [exact Hrun2|]. split; [exact H2|].
    rewrite Hl2, Hl1, Hh2, Hh1, <- app_assoc. auto.
Qed.

(** No call of part_000 takes an element out of an array: [push] adds at
    the end and [filter] makes another array. *)
Lemma p000_events_call_keeps (r : nat) (l : list nat) (c : listener_call)
    (h : list effect) :
  keeps (fun s => begins_with r l s /\ history s = h)
        (run_call Part000Events.addEventListener
                  Part000Events.removeEventListener c).
Proof.
  intros s [Hb Hh]. destruct c as [ev cb|ev cb]; cbn.
  - unfold Part000Events.addEventListener. lunfold.
    destruct (Part000Events.lookup_property ev s) as [r'| |]; cbn.
    + split; [apply arrays_push; exact Hb | exact Hh].
    + auto.
    + split; [apply arrays_push, arrays_new; exact Hb | exact Hh].
  - unfold Part000Events.removeEventListener. lunfold.
    destruct (Part000Events.lookup_property ev s) as [r'| |]; cbn; auto.
    split; [apply arrays_new; exact Hb | exact Hh].
Qed.

(** A dispatch of part_000 returns and has entered every subscriber the
    event had when the dispatch began, in the order of the array, each
    with the payload, whatever the subscribers do. *)
Lemma p000_events_dispatch_spec (subs : subscribers) (event : string)
    (data : jsval) (s : store) :
  tidy s -> Part000Events.inherited event = false ->
  exists s',
    Part000Events.triggerEvent subs event data s = (Normal tt, s')
    /\ deliveries (history s')
       = deliveries (history s) ++ delivered event data (listeners event s).
Proof.
  intros Hs Hn.
  unfold Part000Events.triggerEvent, Part000Events.lookup_property, listeners.
  unfold bind at 1. unfold gets at 1.
  destruct (table s !! event) as [r|] eqn:E; [|rewrite Hn].
  - destruct (dispatch_spec Part000Events.addEventListener
                Part000Events.removeEventListener subs event data r
                (array_at r s) (begins_with r (array_at r s))
                (fun _ => True)) with s
      as (s' & Hrun & _ & Hd).
    + auto.
    + intros s0 h H. exact H.
    + intros cb d s0. apply List.Forall_forall. auto.
    + intros c h _. apply p000_events_call_keeps.
    + exists []. rewrite app_nil_r. eapply tidy_array; eassumption.
    + reflexivity.
    + exists s'. split; assumption.
  - exists s. cbn. rewrite app_nil_r. auto.
Qed.

(** C9.  In part_000 a dispatch returns after it has entered every
    subscriber the event had when the dispatch began, once each, in
    registration order and with the payload, whatever the subscribers do:
    raise, register listeners, remove listeners.  In websocket.js the same
    holds as long as no subscriber removes a listener of the event while
    the dispatch runs; so a subscriber that raises keeps no other one from
    being entered.  But when the first of two subscribers of websocket.js
    takes itself off the event as it is called, the dispatch returns
    without entering the second: [removeEventListener] splices the array
    that [forEach] is walking.  The stores are those the module can be in:
    the one it is loaded with, after any calls and dispatches. *)
Theorem C9_dispatch_isolation (earlier subs : subscribers)
    (before : list listener_input) (event : string) (data : jsval)
    (cbs : list nat) (a b : nat) :
  let sp0 :=
    exec (forEach (p000_listener_handle earlier) before) Part000Events.loaded in
  let sw0 :=
    exec (forEach (wsjs_listener_handle earlier) before)
         WebsocketJsEvents.loaded in
  (Part000Events.inherited event = false ->
   exists sp sp',
     forEach (Part000Events.addEventListener event) cbs sp0 = (Normal tt, sp)
     /\ listeners event sp = listeners event sp0 ++ cbs
     /\ Part000Events.triggerEvent subs event data sp = (Normal tt, sp')
     /\ deliveries (history sp')
        = deliveries (history sp)
          ++ delivered event data (listeners event sp0 ++ cbs))
  /\ ((forall cb d s,
         Forall (fun c => removes event c = false) (calls (subs cb d s))) ->
      exists sw sw',
        forEach (WebsocketJsEvents.addEventListener event) cbs sw0
        = (Normal tt, sw)
        /\ listeners event sw = listeners event sw0 ++ cbs
        /\ WebsocketJsEvents.triggerEvent subs event data sw = (Normal tt, sw')
        /\ deliveries (history sw')
           = deliveries (history sw)
             ++ delivered event data (listeners event sw0 ++ cbs))
  /\ ((forall d s, subs a d s = Reaction [Remove event a] false) ->
      exists s s',
        forEach (WebsocketJsEvents.addEventListener event) [a; b]
                WebsocketJsEvents.loaded
        = (Normal tt, s)
        /\ listeners event s = [a; b]
        /\ WebsocketJsEvents.triggerEvent subs event data s = (Normal tt, s')
        /\ deliveries (history s') = [(a, event, data)]
        /\ listeners event s' = [b]).
Proof.
  cbv zeta. split; [|split].
  - intros Hn.
    destruct (p000_events_register_all event cbs _
                (p000_events_run_tidy earlier before) Hn)
      as (sp & Hreg & Ht & Hl & _).
    destruct (p000_events_dispatch_spec subs event data sp Ht Hn)
      as (sp' & Hrun & Hd).
    exists sp, sp'. rewrite Hl in Hd. auto.
  - intros Hsubs.
    destruct (wsjs_events_register_all event cbs _
                (wsjs_events_run_tidy earlier before))
      as (sw & Hreg & Ht & Hl & _).
    destruct (wsjs_events_dispatch_spec subs event data sw Ht Hsubs)
      as (sw' & Hrun & Hd).
    exists sw, sw'. rewrite Hl in Hd. auto.
  - intros Ha.
    destruct (wsjs_events_register_all event [a; b] _ wsjs_events_loaded_tidy)
      as (s & Hreg & _ & Hl & _).
    destruct (wsjs_events_self_removal subs event data a b Ha)
      as (_ & s' & Hrun & Hd & Hl').
    assert (Hs : exec (forEach (WebsocketJsEvents.addEventListener event) [a; b])
                      WebsocketJsEvents.loaded = s)
      by (unfold exec; rewrite Hreg; reflexivity).
    rewrite Hs in Hrun. exists s, s'.
    split; [exact Hreg|]. split; [exact Hl|]. auto.
Qed.

Lemma C9_dispatch_isolation_witness :
  let raising : subscribers := fun _ _ _ => Reaction [] true in
  let registered (loaded : store) add :=
    exec (forEach (add "game_started") [1; 2]%nat) loaded in
  (exists sp',
     Part000Events.triggerEvent (once 1 "game_started") "game_started" msg_chat
       (registered Part000Events.loaded Part000Events.addEventListener)
     = (Normal tt, sp')
     /\ deliveries (history sp')
        = [(1%nat, "game_started", msg_chat); (2%nat, "game_started", msg_chat)])
  /\ (exists sw',
        WebsocketJsEvents.triggerEvent raising "game_started" msg_chat
          (registered WebsocketJsEvents.loaded WebsocketJsEvents.addEventListener)
        = (Normal tt, sw')
        /\ deliveries (history sw')
           = [(1%nat, "game_started", msg_chat);
              (2%nat, "game_started", msg_chat)])
  /\ (exists sw',
        WebsocketJsEvents.triggerEvent (once 1 "game_started") "game_started"
          msg_chat
          (registered WebsocketJsEvents.loaded WebsocketJsEvents.addEventListener)
        = (Normal tt, sw')
        /\ deliveries (history sw') = [(1%nat, "game_started", msg_chat)]).
Proof.
  cbv zeta. split; [|split].
  - destruct (C9_dispatch_isolation (once 1 "game_started")
                (once 1 "game_started") [] "game_started" msg_chat
                [1; 2]%nat 1 2)
      as ((sp & sp' & Hreg & _ & Hrun & Hd) & _); [reflexivity|].
    change (exec (forEach _ []) ?s) with s in Hreg, Hd.
    exists sp'. unfold exec. rewrite Hreg. cbn [snd].
    split; [exact Hrun|].
    rewrite Hd. apply (f_equal snd) in Hreg. cbn [snd] in Hreg.
    rewrite <- Hreg. reflexivity.
  - destruct (C9_dispatch_isolation (fun _ _ _ => Reaction [] true)
                (fun _ _ _ => Reaction [] true) [] "game_started" msg_chat
                [1; 2]%nat 1 2)
      as (_ & (sw & sw' & Hreg & _ & Hrun & Hd) & _);
      [intros; constructor|].
    change (exec (forEach _ []) ?s) with s in Hreg, Hd.
    exists sw'. unfold exec. rewrite Hreg. cbn [snd].
    split; [exact Hrun|].
    rewrite Hd. apply (f_equal snd) in Hreg. cbn [snd] in Hreg.
    rewrite <- Hreg. reflexivity.
  - destruct (C9_dispatch_isolation (once 1 "game_started")
                (once 1 "game_started") [] "game_started" msg_chat [] 1 2)
      as (_ & _ & (s & s' & Hreg & _ & Hrun & Hd & _)); [reflexivity|].
    exists s'. unfold exec. rewrite Hreg. cbn [snd].
    split; [exact Hrun | exact Hd].
Defined.

(** Two subscribers, the first of which raises: both are entered, once
    each and in order, the error is logged and the dispatch returns, in
    websocket.js and in part_000. *)
Example dispatch_first_raises :
  let subs : subscribers := fun cb _ _ => Reaction [] (Nat.eqb cb 1) in
  let expected :=
    [Invoke 1 "welcome" msg_chat; ConsoleError "welcome" (Raised 1);
     Invoke 2 "welcome" msg_chat] in
  let sw :=
    exec (forEach (WebsocketJsEvents.addEventListener "welcome") [1; 2]%nat)
         WebsocketJsEvents.loaded in
  let sp :=
    exec (forEach (Part000Events.addEventListener "welcome") [1; 2]%nat)
         Part000Events.loaded in
  result (WebsocketJsEvents.triggerEvent subs "welcome" msg_chat) sw = Normal tt
  /\ history (exec (WebsocketJsEvents.triggerEvent subs "welcome" msg_chat) sw)
     = expected
  /\ result (Part000Events.triggerEvent subs "welcome" msg_chat) sp = Normal tt
  /\ history (exec (Part000Events.triggerEvent subs "welcome" msg_chat) sp)
     = expected.
Proof. vm_compute. repeat split; reflexivity. Qed.

(** In part_000 the first of two subscribers takes itself off the event:
    the second is entered all the same, and is the only one left. *)
Example p000_events_self_removal :
  let s :=
    exec (forEach (Part000Events.addEventListener "welcome") [1; 2]%nat ;;
          Part000Events.triggerEvent (once 1 "welcome") "welcome" msg_chat)
         Part000Events.loaded in
  deliveries (history s)
  = [(1%nat, "welcome", msg_chat); (2%nat, "welcome", msg_chat)]
  /\ listeners "welcome" s = [2%nat].
Proof. vm_compute. split; reflexivity. Qed.

(** In part_000 a name that every object inherits cannot be registered
    for, removed from or dispatched to: each call raises. *)
Example p000_events_inherited_name :
  let raising : subscribers := fun _ _ _ => Reaction [] true in
  Part000Events.addEventListener "toString" 1 Part000Events.loaded
  = (Abrupt TypeError, Part000Events.loaded)
  /\ Part000Events.removeEventListener "constructor" 1 Part000Events.loaded
     = (Abrupt TypeError, Part000Events.loaded)
  /\ Part000Events.triggerEvent raising "__proto__" msg_chat
       Part000Events.loaded
     = (Abrupt TypeError, Part000Events.loaded).
Proof. repeat split. Qed.

End ListenersFacts.

(** *** C10: a send while disconnected starts the reconnection *)

(** C10 as stated.  In websocket.js, the page has called [close()] on the
    socket the module exports and the close event has not arrived yet:
    the socket is no longer open, the counter is 0, nothing is being
    connected, and the module still counts as connected; a send queues the
    message and starts no reconnection.  In part_000, while the first
    connection is being made and the counter is 0, a send queues the
    message and starts no reconnection either. *)
Lemma C10_no_reconnection_started :
  let sw := exec (WebsocketJs.ws_close None) (wsjs_open 0 0 []) in
  let sw' := exec (WebsocketJs.sendMessage msg_chat true) sw in
  let sp := p000_connecting 0 in
  let sp' := exec (Part000.sendMessage msg_chat true) sp in
  well_formed msg_chat = true
  /\ (sock_open (WebsocketJs.ws sw) = false
      /\ WebsocketJs.reconnectAttempts sw = 0
      /\ WebsocketJs.messageQueue sw' = [Queued msg_chat 0 0]
      /\ timeouts (WebsocketJs.env sw') = []
      /\ ~ (WebsocketJs.reconnectAttempts sw = 0
            -> timeouts (WebsocketJs.env sw') <> []))
  /\ (sock_open (Part000.socket sp) = false
      /\ Part000.reconnectAttempts sp = 0
      /\ Part000.messageQueue sp' = [Queued msg_chat 0 0]
      /\ timeouts (Part000.env sp') = []
      /\ ~ (Part000.reconnectAttempts sp = 0
            -> timeouts (Part000.env sp') <> [])).
Proof.
  vm_compute. repeat split; try reflexivity;
    intros H; apply H; reflexivity.
Qed.

(** C10 (as amended).  A well-formed message sent while the socket is not
    open is put at the end of the queue and the call returns [false].  In
    websocket.js a reconnection is scheduled by the call, 3 seconds ahead,
    exactly when the module is marked disconnected and the attempt counter
    is 0, and the counter becomes 1.  In part_000 a reconnection is
    scheduled exactly when the status is not [connecting] and the counter
    is below the ceiling, and the counter goes up by one. *)
Theorem C10_send_starts_reconnection (m : jsval)
    (sw : WebsocketJs.state) (sp : Part000.state) :
  well_formed m = true ->
  sock_open (WebsocketJs.ws sw) = false ->
  sock_open (Part000.socket sp) = false ->
  let sw' := exec (WebsocketJs.sendMessage m true) sw in
  let sp' := exec (Part000.sendMessage m true) sp in
  let startw :=
    negb (WebsocketJs.connected sw) && (WebsocketJs.reconnectAttempts sw =? 0) in
  let startp :=
    negb (Part000.is_connecting (Part000.connectionStatus sp))
    && (Part000.reconnectAttempts sp <? Part000.MAX_RECONNECT_ATTEMPTS) in
  WebsocketJs.messageQueue sw'
  = WebsocketJs.messageQueue sw ++ [Queued m (now (WebsocketJs.env sw)) 0]
  /\ Part000.messageQueue sp'
     = Part000.messageQueue sp ++ [Queued m (now (Part000.env sp)) 0]
  /\ timeouts (WebsocketJs.env sw')
     = timeouts (WebsocketJs.env sw)
       ++ (if startw then [Timer 3000 ReconnectTimer] else [])
  /\ WebsocketJs.reconnectAttempts sw'
     = (if startw then 1 else WebsocketJs.reconnectAttempts sw)
  /\ timeouts (Part000.env sp')
     = timeouts (Part000.env sp)
       ++ (if startp
           then [Timer (Part000.backoff (Part000.reconnectAttempts sp + 1))
                       ReconnectTimer]
           else [])
  /\ Part000.reconnectAttempts sp'
     = (if startp then Part000.reconnectAttempts sp + 1
        else Part000.reconnectAttempts sp).
Proof.
  intros Hw How Hop. cbv zeta. unfold exec.
  rewrite wsjs_sendMessage_eq, p000_sendMessage_eq.
  rewrite Hw, How, Hop. cbn [fst snd].
  assert (Hwq : forall s, WebsocketJs.messageQueue (wsjs_reconnecting s)
                          = WebsocketJs.messageQueue s).
  { intros s. unfold wsjs_reconnecting.
    destruct (_ >? _); reflexivity. }
  assert (Hpq : forall s, Part000.messageQueue (p000_reconnecting s)
                          = Part000.messageQueue s).
  { intros s. unfold p000_reconnecting.
    destruct (_ >=? _); reflexivity. }
  split; [|split; [|split; [|split; [|split]]]].
  - cbn. destruct (negb _ && _); rewrite ?Hwq; reflexivity.
  - cbn. destruct (negb _); rewrite ?Hpq; reflexivity.
  - cbn. destruct (negb (WebsocketJs.connected sw)
                   && (WebsocketJs.reconnectAttempts sw =? 0)) eqn:Hs;
      [|cbn; rewrite app_nil_r; reflexivity].
    apply andb_prop in Hs as [_ Hn]. apply Z.eqb_eq in Hn.
    unfold wsjs_reconnecting. cbn. rewrite Hn. reflexivity.
  - cbn. destruct (negb (WebsocketJs.connected sw)
                   && (WebsocketJs.reconnectAttempts sw =? 0)) eqn:Hs;
      [|reflexivity].
    apply andb_prop in Hs as [_ Hn]. apply Z.eqb_eq in Hn.
    unfold wsjs_reconnecting. cbn. rewrite Hn. reflexivity.
  - cbn. unfold p000_reconnecting.
    destruct (negb (Part000.is_connecting (Part000.connectionStatus sp)));
      cbn; [|rewrite app_nil_r; reflexivity].
    unfold Part000.MAX_RECONNECT_ATTEMPTS.
    destruct (Part000.reconnectAttempts sp <? 5) eqn:Hlt.
    + replace (Part000.reconnectAttempts sp >=? 5) with false by lia.
      reflexivity.
    + replace (Part000.reconnectAttempts sp >=? 5) with true by lia.
      cbn. rewrite app_nil_r. reflexivity.
  - cbn. unfold p000_reconnecting.
    destruct (negb (Part000.is_connecting (Part000.connectionStatus sp)));
      cbn; [|reflexivity].
    unfold Part000.MAX_RECONNECT_ATTEMPTS.
    destruct (Part000.reconnectAttempts sp <? 5) eqn:Hlt.
    + replace (Part000.reconnectAttempts sp >=? 5) with false by lia.
      reflexivity.
    + replace (Part000.reconnectAttempts sp >=? 5) with true by lia.
      reflexivity.
Qed.

Lemma C10_send_starts_reconnection_witness :
  timeouts (WebsocketJs.env
              (exec (WebsocketJs.sendMessage msg_chat true) (wsjs_loaded 0)))
  = [Timer 3000 ReconnectTimer]
  /\ timeouts (Part000.env
                 (exec (Part000.sendMessage msg_chat true) (p000_loaded 0)))
     = [Timer 2000 ReconnectTimer].
Proof.
  destruct (C10_send_starts_reconnection msg_chat (wsjs_loaded 0) (p000_loaded 0))
    as (_ & _ & Hw & _ & Hp & _); try reflexivity.
  split; [exact Hw | exact Hp].
Defined.

(** * Further properties of the code *)

(** ** Observations on what a dispatch adds to the trace *)

Lemma live_intervals_app (t1 t2 : list effect) :
  live_intervals (t1 ++ t2) = live_intervals t1 + live_intervals t2.
Proof.
  induction t1 as [|e t1 IH]; [reflexivity|].
  destruct e; simpl; rewrite ?IH; lia.
Qed.

Lemma quiet_observations (l : list effect) :
  Forall (fun e => quiet e = true) l ->
  frames l = [] /\ delays l = [] /\ live_intervals l = 0
  /\ ~ In N_cannot_reconnect (notices l).
Proof.
  induction 1 as [|e l He Hl IH]; [cbn; tauto|].
  destruct IH as (Hf & Hd & Hi & Hn).
  destruct e; cbn in *; try discriminate; repeat split; auto.
  intros [->|Hin]; [discriminate | auto].
Qed.

Lemma dispatch_trace_quiet (event : string) (data : jsval)
    (cbs : list callback) :
  Forall (fun e => quiet e = true) (dispatch_trace event data cbs).
Proof.
  unfold dispatch_trace. induction cbs as [|cb cbs IH]; [constructor|].
  cbn [flat_map]. constructor; [reflexivity|].
  destruct (cb_raises cb data); cbn; [constructor; [reflexivity|]|]; exact IH.
Qed.

Lemma listeners_trace_quiet (ls : gmap string (list callback))
    (event : string) (data : jsval) :
  Forall (fun e => quiet e = true) (listeners_trace ls event data).
Proof.
  unfold listeners_trace. destruct (ls !! event);
    [apply dispatch_trace_quiet | constructor].
Qed.

(** ** src/websocket.js: the counter, the timers, the heartbeat and the
    frames, over any sequence of events *)

Section WebsocketJsInvariant.
Import WebsocketJs.

Ltac munfold :=
  unfold showNotification, log, Date_now, setTimeout, on_env,
    bind, ret, gets, get, modify, when, throw, try_catch in *.

(** Unfolds the functions of the module down to reads and writes. *)
Ltac wsjs_open_up :=
  unfold ws_onopen, ws_onclose, ws_onerror, socket_opens, socket_closes,
    timer_fires, initWebSocket, newWebSocket, reconnect, disconnect,
    clearMessageQueue, handlePing, handlePong, pingTick, startPingInterval,
    stopPingInterval, ws_close, attemptReconnection, addEventListener,
    removeEventListener, showNotification, setTimeout, log, Date_now.

(** More quiet effects on the trace change nothing [wsjs_inv] speaks of. *)
Lemma wsjs_inv_quiet (l : list effect) (st : state) :
  Forall (fun e => quiet e = true) l ->
  wsjs_inv st ->
  wsjs_inv (set_env (set_trace (trace (env st) ++ l) (env st)) st).
Proof.
  intros Hq (Ha & Hn & Ht & Hd & Hb & Hf).
  destruct (quiet_observations l Hq) as (Qf & Qd & Qi & Qn).
  unfold wsjs_inv. cbn.
  rewrite notices_app, delays_app, live_intervals_app, frames_app.
  rewrite Qf, Qd, Qi, !app_nil_r, Z.add_0_r.
  repeat split; auto; try lia.
  rewrite in_app_iff. tauto.
Qed.

Lemma wsjs_inv_log (e : effect) :
  quiet e = true -> keeps wsjs_inv (log e).
Proof.
  intros He st H. apply (wsjs_inv_quiet [e]); [|exact H].
  constructor; [exact He | constructor].
Qed.

Lemma wsjs_inv_triggerEvent (event : string) (data : jsval) :
  keeps wsjs_inv (triggerEvent event data).
Proof.
  intros st H. rewrite wsjs_triggerEvent_eq. cbn [snd].
  apply wsjs_inv_quiet; [apply listeners_trace_quiet | exact H].
Qed.

(** [attemptReconnection] from a counter below the ceiling. *)
Lemma wsjs_inv_reconnecting (st : state) :
  reconnectAttempts st < 5 ->
  wsjs_inv st ->
  wsjs_inv (wsjs_reconnecting st).
Proof.
  intros Hlt (Ha & Hn & Ht & Hd & Hb & Hf).
  unfold wsjs_reconnecting.
  rewrite wsjs_below_ceiling
    by (apply Z.ltb_lt; unfold MAX_RECONNECT_ATTEMPTS; lia).
  assert (Hin : In (backoff (reconnectAttempts st + 1)) wsjs_delays).
  { unfold backoff, RECONNECT_DELAY, wsjs_delays.
    assert (Hc : reconnectAttempts st = 0 \/ reconnectAttempts st = 1
                 \/ reconnectAttempts st = 2 \/ reconnectAttempts st = 3
                 \/ reconnectAttempts st = 4) by lia.
    destruct Hc as [-> | [-> | [-> | [-> | ->]]]]; cbn; tauto. }
  unfold wsjs_inv, schedule, emit. cbn.
  rewrite !notices_app, !delays_app, !live_intervals_app, !frames_app. cbn.
  rewrite !app_nil_r, !Z.add_0_r.
  repeat split; auto; try lia.
  - rewrite in_app_iff. intros [Hin'|[Hx|[]]]; [auto | discriminate].
  - apply Forall_app. split; [exact Ht|].
    constructor; [split; [reflexivity | exact Hin] | constructor].
  - apply Forall_app. split; [exact Hd|]. constructor; [exact Hin | constructor].
Qed.

(** The three calls of [attemptReconnection] stand behind a test that
    bounds the counter. *)
Lemma wsjs_inv_guarded {A} (c : Z -> bool) (k : Z -> M state A) :
  (forall n, c n = true -> n < 5) ->
  (forall n, keeps wsjs_inv (k n)) ->
  keeps wsjs_inv
    (let* n := gets reconnectAttempts in
     when (c n) attemptReconnection ;; k n).
Proof.
  intros Hc Hk st H. unfold bind at 1. unfold gets. cbn beta iota.
  unfold bind. destruct (c (reconnectAttempts st)) eqn:E; cbn [when].
  - rewrite wsjs_attemptReconnection_eq. apply Hk.
    apply wsjs_inv_reconnecting; auto.
  - unfold ret. apply Hk. exact H.
Qed.

Lemma wsjs_inv_enqueued (m : jsval) (b : bool) (st : state) :
  wsjs_inv st -> wsjs_inv (if b then wsjs_enqueued m st else st).
Proof. intros H. destruct b; exact H. Qed.

Lemma wsjs_inv_sendMessage (m : jsval) (q : bool) :
  keeps wsjs_inv (sendMessage m q).
Proof.
  intros st H. rewrite wsjs_sendMessage_eq.
  destruct (well_formed m) eqn:Hw; [|exact H].
  destruct (sock_open (ws st)) eqn:Ho.
  - destruct (serializable m) eqn:Hs; cbn [snd].
    + destruct H as (Ha & Hn & Ht & Hd & Hb & Hf).
      unfold wsjs_inv, wsjs_emitted, emit. cbn.
      rewrite notices_app, delays_app, live_intervals_app, frames_app. cbn.
      rewrite !app_nil_r, Z.add_0_r.
      repeat split; auto; try lia.
      apply Forall_app. split; [exact Hf|].
      constructor; [split; assumption | constructor].
    + apply wsjs_inv_enqueued.
      apply (wsjs_inv_log (Notify N_failed_to_send) eq_refl st H).
  - cbn [snd]. cbv zeta.
    assert (H1 : wsjs_inv (if q then wsjs_enqueued m st else st))
      by (apply wsjs_inv_enqueued; exact H).
    destruct (negb (connected _) && (reconnectAttempts _ =? 0)) eqn:E;
      [|exact H1].
    apply wsjs_inv_reconnecting; [|exact H1].
    apply andb_prop in E. destruct E as [_ E]. apply Z.eqb_eq in E. lia.
Qed.

Lemma wsjs_inv_reset :
  keeps wsjs_inv (modify (set_reconnectAttempts 0)).
Proof.
  intros st (Ha & Hn & Ht & Hd & Hb & Hf). unfold wsjs_inv. cbn.
  repeat split; auto; lia.
Qed.

Lemma wsjs_inv_stopPingInterval : keeps wsjs_inv stopPingInterval.
Proof.
  intros st (Ha & Hn & Ht & Hd & Hb & Hf).
  unfold stopPingInterval. munfold. unfold wsjs_inv, emit.
  destruct (pingInterval st) eqn:E; cbn; rewrite ?E;
    [|repeat split; auto; lia].
  rewrite notices_app, delays_app, live_intervals_app, frames_app. cbn.
  rewrite !app_nil_r.
  repeat split; auto; lia.
Qed.

Lemma wsjs_inv_startPingInterval : keeps wsjs_inv startPingInterval.
Proof.
  intros st (Ha & Hn & Ht & Hd & Hb & Hf).
  unfold startPingInterval, stopPingInterval. munfold. unfold wsjs_inv, emit.
  destruct (pingInterval st) eqn:E; cbn;
    rewrite ?notices_app, ?delays_app, ?live_intervals_app, ?frames_app; cbn;
    rewrite ?notices_app, ?delays_app, ?live_intervals_app, ?frames_app; cbn;
    rewrite ?app_nil_r;
    repeat split; auto; lia.
Qed.

Ltac guard_below :=
  unfold MAX_RECONNECT_ATTEMPTS in *;
  match goal with
  | H : _ = true |- _ < 5 =>
      rewrite ?andb_true_iff in H; apply Z.ltb_lt; tauto
  end.

Ltac wsjs_inv_auto :=
  repeat first
    [ apply wsjs_inv_guarded; [intros ? ?; guard_below | intros ?]
    | apply wsjs_inv_sendMessage
    | apply wsjs_inv_triggerEvent
    | apply wsjs_inv_reset
    | apply wsjs_inv_stopPingInterval
    | apply wsjs_inv_startPingInterval
    | apply wsjs_inv_log; reflexivity
    | apply keeps_modify; intros ? ?; assumption
    | keeps_step
    | progress unfold showNotification, Date_now ].

Lemma wsjs_inv_ws_close (code : option Z) : keeps wsjs_inv (ws_close code).
Proof.
  unfold ws_close. wsjs_inv_auto.
  apply keeps_modify. intros st H.
  destruct (ws st) as [[[] o]|]; exact H.
Qed.

Lemma wsjs_inv_drain_from (t0 : Z) (k : nat) :
  keeps wsjs_inv (drain_from t0 k).
Proof.
  induction k as [|k IH]; [apply keeps_ret|].
  cbn [drain_from]. apply keeps_bind; [|intros _; exact IH].
  unfold drain_at, splice. wsjs_inv_auto.
Qed.

Lemma wsjs_inv_processMessageQueue : keeps wsjs_inv processMessageQueue.
Proof.
  unfold processMessageQueue. wsjs_inv_auto. apply wsjs_inv_drain_from.
Qed.

Lemma wsjs_inv_ws_onopen (o : options) : keeps wsjs_inv (ws_onopen o).
Proof.
  unfold ws_onopen. wsjs_inv_auto. apply wsjs_inv_processMessageQueue.
Qed.

Lemma wsjs_inv_ws_onclose (code : Z) : keeps wsjs_inv (ws_onclose code).
Proof. unfold ws_onclose. wsjs_inv_auto. Qed.

Lemma wsjs_inv_ws_onerror : keeps wsjs_inv ws_onerror.
Proof. unfold ws_onerror. wsjs_inv_auto. Qed.

Lemma wsjs_inv_initWebSocket (o : options) : keeps wsjs_inv (initWebSocket o).
Proof.
  unfold initWebSocket, newWebSocket. wsjs_inv_auto; apply wsjs_inv_ws_close.
Qed.

Lemma wsjs_inv_disconnect : keeps wsjs_inv disconnect.
Proof. unfold disconnect. wsjs_inv_auto; apply wsjs_inv_ws_close. Qed.

Lemma wsjs_inv_reconnect : keeps wsjs_inv reconnect.
Proof. unfold reconnect. wsjs_inv_auto; apply wsjs_inv_initWebSocket. Qed.

Lemma wsjs_inv_pingTick : keeps wsjs_inv pingTick.
Proof. unfold pingTick. wsjs_inv_auto; apply wsjs_inv_ws_close. Qed.

Lemma wsjs_inv_handlePing (m : jsval) : keeps wsjs_inv (handlePing m).
Proof. unfold handlePing. wsjs_inv_auto. Qed.

Lemma wsjs_inv_handlePong (m : jsval) : keeps wsjs_inv (handlePong m).
Proof. unfold handlePong. wsjs_inv_auto. Qed.

Lemma wsjs_inv_timer_fires (i : nat) : keeps wsjs_inv (timer_fires i).
Proof.
  unfold timer_fires. apply keeps_bind_gets. intros st H.
  destruct (timeouts (env st) !! i) as [t|] eqn:E; [|exact H].
  refine (keeps_bind wsjs_inv _ _ _ _ st H).
  - intros st' (Ha & Hn & Ht & Hd & Hb & Hf). unfold wsjs_inv. cbn.
    repeat split; auto; try lia.
    destruct H as (_ & _ & Ht0 & _). apply Forall_delete. exact Ht0.
  - intros _. wsjs_inv_auto; apply wsjs_inv_initWebSocket.
Qed.

Lemma wsjs_inv_socket_opens : keeps wsjs_inv socket_opens.
Proof. unfold socket_opens. wsjs_inv_auto. apply wsjs_inv_ws_onopen. Qed.

Lemma wsjs_inv_socket_closes (code : Z) : keeps wsjs_inv (socket_closes code).
Proof. unfold socket_closes. wsjs_inv_auto; apply wsjs_inv_ws_onclose. Qed.

Lemma wsjs_inv_handle (i : wsjs_input) : keeps wsjs_inv (wsjs_handle i).
Proof.
  destruct i; cbn [wsjs_handle]; wsjs_inv_auto;
    first [ apply wsjs_inv_initWebSocket | apply wsjs_inv_disconnect
          | apply wsjs_inv_reconnect | apply wsjs_inv_ws_close
          | apply wsjs_inv_socket_opens | apply wsjs_inv_socket_closes
          | apply wsjs_inv_ws_onerror | apply wsjs_inv_ws_onopen
          | apply wsjs_inv_ws_onclose | apply wsjs_inv_timer_fires
          | apply wsjs_inv_pingTick | apply wsjs_inv_handlePing
          | apply wsjs_inv_handlePong | idtac ].
Qed.

(** *** The queue *)

Lemma wsjs_queue_inv_sendMessage (m : jsval) (q : bool) :
  keeps wsjs_queue_inv (sendMessage m q).
Proof.
  intros st H. rewrite wsjs_sendMessage_eq.
  destruct (well_formed m) eqn:Hw; [|exact H].
  assert (H1 : forall st1 : state,
             wsjs_queue_inv st1 ->
             wsjs_queue_inv (if q then wsjs_enqueued m st1 else st1)).
  { intros st1 H1. destruct q; [|exact H1].
    unfold wsjs_queue_inv, wsjs_enqueued. cbn.
    apply Forall_app. split; [exact H1|].
    constructor; [cbn; split; [lia | exact Hw] | constructor]. }
  destruct (sock_open (ws st)).
  - destruct (serializable m); cbn [snd]; [exact H|].
    apply H1. exact H.
  - cbn [snd]. cbv zeta.
    destruct (negb (connected _) && (reconnectAttempts _ =? 0));
      [|apply H1; exact H].
    specialize (H1 st H). revert H1. unfold wsjs_reconnecting.
    destruct (_ >? _); intros H1; exact H1.
Qed.

Lemma wsjs_queue_inv_processMessageQueue :
  keeps wsjs_queue_inv processMessageQueue.
Proof.
  intros st H.
  destruct (wsjs_processMessageQueue_eq st) as (st' & Hrun & _ & Hq & _).
  rewrite Hrun. cbn [snd]. unfold wsjs_queue_inv in *. rewrite Hq.
  clear Hq Hrun. induction H as [|x l [Hx Hw] Hl IH]; [constructor|].
  cbn [List.filter]. destruct (wsjs_stays _ _ x) eqn:E; [|exact IH].
  cbn [map]. constructor; [|exact IH].
  unfold wsjs_stays in E. rewrite !andb_true_iff, negb_true_iff in E.
  destruct E as [_ E]. cbn. split; [lia | exact Hw].
Qed.

Lemma wsjs_queue_inv_triggerEvent (event : string) (data : jsval) :
  keeps wsjs_queue_inv (triggerEvent event data).
Proof. intros st H. rewrite wsjs_triggerEvent_eq. exact H. Qed.

Lemma wsjs_queue_inv_ws_close (code : option Z) :
  keeps wsjs_queue_inv (ws_close code).
Proof.
  intros st H. unfold ws_close. munfold. cbn.
  destruct (ws st) as [[[] o]|]; exact H.
Qed.

Ltac wsjs_queue_auto :=
  repeat first
    [ apply wsjs_queue_inv_sendMessage
    | apply wsjs_queue_inv_ws_close
    | apply wsjs_queue_inv_processMessageQueue
    | apply wsjs_queue_inv_triggerEvent
    | keeps_step
    | match goal with
      | |- keeps _ (modify _) => apply keeps_modify; intros ? ?; assumption
      | |- keeps _ (on_env (modify _)) => intros ? ?; assumption
      | |- keeps _ (modify _) =>
          apply keeps_modify; intros ? ?; unfold wsjs_queue_inv; cbn;
          try constructor
      end
    | progress wsjs_open_up ].

Lemma wsjs_queue_inv_handle (i : wsjs_input) :
  keeps wsjs_queue_inv (wsjs_handle i).
Proof.
  destruct i; cbn [wsjs_handle]; wsjs_queue_auto.
Qed.

(** *** No handler raises *)

Lemma wsjs_sendMessage_returns (m : jsval) (q : bool) :
  returns (sendMessage m q).
Proof.
  intros st. rewrite wsjs_sendMessage_eq.
  destruct (well_formed m), (sock_open (ws st)), (serializable m);
    eexists; reflexivity.
Qed.

Lemma wsjs_processMessageQueue_returns : returns processMessageQueue.
Proof.
  intros st. destruct (wsjs_processMessageQueue_eq st) as (st' & Hrun & _).
  rewrite Hrun. eexists. reflexivity.
Qed.

Lemma wsjs_triggerEvent_returns (event : string) (data : jsval) :
  returns (triggerEvent event data).
Proof. intros st. rewrite wsjs_triggerEvent_eq. eexists. reflexivity. Qed.

Ltac wsjs_returns_auto :=
  repeat first
    [ apply wsjs_sendMessage_returns
    | apply wsjs_processMessageQueue_returns
    | apply wsjs_triggerEvent_returns
    | keeps_step
    | match goal with
      | |- returns (on_env (modify _)) => intros ?; eexists; reflexivity
      end
    | progress wsjs_open_up ].

Lemma wsjs_handle_returns (i : wsjs_input) : returns (wsjs_handle i).
Proof.
  destruct i; cbn [wsjs_handle]; wsjs_returns_auto.
Qed.

(** *** Any sequence of events *)

Lemma wsjs_run_returns (l : list wsjs_input) (st : state) :
  forEach wsjs_handle l st = (Normal tt, exec (forEach wsjs_handle l) st).
Proof.
  destruct (returns_run (forEach wsjs_handle l) st) as [[] Hrun];
    [apply returns_forEach, wsjs_handle_returns | exact Hrun].
Qed.

Lemma wsjs_run_inv (l : list wsjs_input) (st : state) :
  wsjs_inv st -> wsjs_inv (exec (forEach wsjs_handle l) st).
Proof. apply keeps_forEach, wsjs_inv_handle. Qed.

Lemma wsjs_run_queue_inv (l : list wsjs_input) (st : state) :
  wsjs_queue_inv st -> wsjs_queue_inv (exec (forEach wsjs_handle l) st).
Proof. apply keeps_forEach, wsjs_queue_inv_handle. Qed.

Lemma wsjs_loaded_inv (t : Z) :
  wsjs_inv (wsjs_loaded t) /\ wsjs_queue_inv (wsjs_loaded t).
Proof.
  unfold wsjs_inv, wsjs_queue_inv. cbn.
  repeat split; auto; try lia; constructor.
Qed.

(** *** The clock stands still while the queue is drained *)

Lemma wsjs_now_processMessageQueue (t : Z) :
  keeps (fun st => now (env st) = t) processMessageQueue.
Proof.
  assert (Hsend : forall m q,
             keeps (fun st => now (env st) = t) (sendMessage m q)).
  { intros m q. unfold sendMessage, ws_send, JSON_stringify, enqueue.
    repeat first
      [ keeps_step
      | match goal with
        | |- keeps _ (modify _) => apply keeps_modify; intros ? ?; assumption
        | |- keeps _ (on_env (modify _)) => intros ? ?; assumption
        end
      | progress wsjs_open_up ]. }
  assert (Hdrain : forall t0 k,
             keeps (fun st => now (env st) = t) (drain_from t0 k)).
  { intros t0 k. induction k as [|k IH]; [apply keeps_ret|].
    cbn [drain_from]. apply keeps_bind; [|intros _; exact IH].
    unfold drain_at, splice.
    repeat first
      [ apply Hsend
      | keeps_step
      | match goal with
        | |- keeps _ (modify _) => apply keeps_modify; intros ? ?; assumption
        end ]. }
  unfold processMessageQueue, Date_now.
  repeat first [ apply Hdrain | keeps_step ].
Qed.

End WebsocketJsInvariant.

(** ** src/unnamed/part_000: the counter, the timers, the heartbeat and the
    frames, over any sequence of events *)

Lemma silent_observations (l : list effect) :
  Forall (fun e => silent e = true) l ->
  frames l = [] /\ delays l = [] /\ live_intervals l = 0.
Proof.
  induction 1 as [|e l He Hl IH]; [cbn; tauto|].
  destruct IH as (Hf & Hd & Hi).
  destruct e; cbn in *; try discriminate; repeat split; auto.
Qed.

Lemma quiet_silent (l : list effect) :
  Forall (fun e => quiet e = true) l -> Forall (fun e => silent e = true) l.
Proof.
  intros H. eapply Forall_impl; [exact H|].
  intros e He. destruct e; try reflexivity; discriminate.
Qed.

Section Part000Invariant.
Import Part000.

Ltac munfold :=
  unfold showNotification, log, Date_now, setTimeout, on_env,
    bind, ret, gets, get, modify, when, throw, try_catch in *.

(** Unfolds the functions of the module down to reads and writes. *)
Ltac p000_open_up :=
  unfold socket_onopen, socket_onclose, socket_onerror, socket_opens,
    socket_closes, timer_fires, connectWebSocket, newWebSocket, reconnect,
    disconnect, sendHelloMessage, on_ping, on_pong, pingTick,
    startPingInterval, stopPingInterval, socket_close, updateConnectionStatus,
    addEventListener, removeEventListener, showNotification, setTimeout, log,
    Date_now.

Lemma p000_inv_silent (l : list effect) (st : state) :
  Forall (fun e => silent e = true) l ->
  p000_inv st ->
  p000_inv (set_env (set_trace (trace (env st) ++ l) (env st)) st).
Proof.
  intros Hq (Ha & Hi & Ht & Hd & Hb & Hf).
  destruct (silent_observations l Hq) as (Qf & Qd & Qi).
  unfold p000_inv. cbn.
  rewrite delays_app, live_intervals_app, frames_app.
  rewrite Qf, Qd, Qi, !app_nil_r, Z.add_0_r.
  repeat split; auto; lia.
Qed.

Lemma p000_inv_log (e : effect) :
  silent e = true -> keeps p000_inv (log e).
Proof.
  intros He st H. apply (p000_inv_silent [e]); [|exact H].
  constructor; [exact He | constructor].
Qed.

Lemma p000_inv_triggerEvent (event : string) (data : jsval) :
  keeps p000_inv (triggerEvent event data).
Proof.
  intros st H. rewrite p000_triggerEvent_eq. cbn [snd].
  apply p000_inv_silent; [|exact H].
  apply quiet_silent, listeners_trace_quiet.
Qed.

Lemma p000_inv_status_set (s : status) (message : string) (st : state) :
  p000_inv st -> p000_inv (p000_status_set s message st).
Proof.
  intros H. unfold p000_status_set.
  apply (p000_inv_silent _ (set_connectionStatus s st));
    [apply quiet_silent, listeners_trace_quiet | exact H].
Qed.

Lemma p000_inv_updateConnectionStatus (s : status) (message : string) :
  keeps p000_inv (updateConnectionStatus s message).
Proof.
  intros st H. rewrite p000_updateConnectionStatus_eq.
  apply p000_inv_status_set. exact H.
Qed.

(** [attemptReconnect] tests the counter itself. *)
Lemma p000_inv_reconnecting (st : state) :
  p000_inv st -> p000_inv (p000_reconnecting st).
Proof.
  intros H. unfold p000_reconnecting.
  destruct (reconnectAttempts st >=? MAX_RECONNECT_ATTEMPTS) eqn:E.
  - apply (p000_inv_log (Notify N_cannot_reconnect) eq_refl st H).
  - assert (Hlt : reconnectAttempts st < 5)
      by (rewrite Z.geb_leb in E; apply Z.leb_gt in E; exact E).
    cbv zeta.
    set (d := backoff (reconnectAttempts st + 1)).
    assert (Hin : In d p000_delays).
    { destruct H as (Ha & _). subst d. unfold backoff, p000_delays.
      assert (Hc : reconnectAttempts st = 0 \/ reconnectAttempts st = 1
                   \/ reconnectAttempts st = 2 \/ reconnectAttempts st = 3
                   \/ reconnectAttempts st = 4) by lia.
      destruct Hc as [-> | [-> | [-> | [-> | ->]]]]; cbn; tauto. }
    assert (H1 : p000_inv
                   (p000_status_set connecting (p000_reconnect_text d)
                      (set_reconnectAttempts (reconnectAttempts st + 1) st))).
    { apply p000_inv_status_set.
      destruct H as (Ha & Hi & Ht & Hd & Hb & Hf). unfold p000_inv. cbn.
      repeat split; auto; lia. }
    destruct H1 as (Ha & Hi & Ht & Hd & Hb & Hf).
    unfold p000_inv, schedule, emit. cbn in *.
    rewrite !delays_app, !live_intervals_app, !frames_app in *. cbn in *.
    rewrite !app_nil_r, !Z.add_0_r in *.
    repeat split; auto; try lia.
    + apply Forall_app. split; [exact Ht|].
      constructor; [split; [reflexivity | exact Hin] | constructor].
    + apply Forall_app. split; [exact Hd|].
      constructor; [exact Hin | constructor].
Qed.

Lemma p000_inv_attemptReconnect : keeps p000_inv attemptReconnect.
Proof.
  intros st H. rewrite p000_attemptReconnect_eq.
  apply p000_inv_reconnecting. exact H.
Qed.

Lemma p000_inv_sendMessage (m : jsval) (q : bool) :
  keeps p000_inv (sendMessage m q).
Proof.
  intros st H. rewrite p000_sendMessage_eq.
  destruct (well_formed m) eqn:Hw; [|exact H].
  assert (He : forall st1 : state,
             p000_inv st1 -> p000_inv (if q then p000_enqueued m st1 else st1))
    by (intros st1 H1; destruct q; exact H1).
  destruct (sock_open (socket st)) eqn:Ho.
  - destruct (serializable m) eqn:Hs; cbn [snd].
    + destruct H as (Ha & Hi & Ht & Hd & Hb & Hf).
      unfold p000_inv, p000_emitted, emit. cbn.
      rewrite delays_app, live_intervals_app, frames_app. cbn.
      rewrite !app_nil_r, Z.add_0_r.
      repeat split; auto; try lia.
      apply Forall_app. split; [exact Hf|].
      constructor; [split; assumption | constructor].
    + apply He.
      apply (p000_inv_log (Notify N_failed_to_send) eq_refl st H).
  - cbn [snd]. cbv zeta.
    destruct (negb (is_connecting _)); [|apply He; exact H].
    apply p000_inv_reconnecting, He, H.
Qed.

Lemma p000_inv_reset :
  keeps p000_inv (modify (set_reconnectAttempts 0)).
Proof.
  intros st (Ha & Hi & Ht & Hd & Hb & Hf). unfold p000_inv. cbn.
  repeat split; auto; lia.
Qed.

Lemma p000_inv_stopPingInterval : keeps p000_inv stopPingInterval.
Proof.
  intros st (Ha & Hi & Ht & Hd & Hb & Hf).
  unfold stopPingInterval. munfold. unfold p000_inv, emit.
  destruct (pingInterval st) eqn:E; cbn; rewrite ?E;
    [|repeat split; auto; lia].
  rewrite delays_app, live_intervals_app, frames_app. cbn.
  rewrite !app_nil_r.
  repeat split; auto; lia.
Qed.

Lemma p000_inv_startPingInterval : keeps p000_inv startPingInterval.
Proof.
  intros st (Ha & Hi & Ht & Hd & Hb & Hf).
  unfold startPingInterval, stopPingInterval. munfold. unfold p000_inv, emit.
  destruct (pingInterval st) eqn:E; cbn;
    rewrite ?delays_app, ?live_intervals_app, ?frames_app; cbn;
    rewrite ?delays_app, ?live_intervals_app, ?frames_app; cbn;
    rewrite ?app_nil_r;
    repeat split; auto; lia.
Qed.

(** The list of servers has one entry: there is no backup to move to. *)
Lemma p000_inv_try_backup (o : options) : keeps p000_inv (try_backup o).
Proof.
  intros st H. unfold try_backup. munfold.
  destruct H as (Ha & Hi & Hr). rewrite Hi. cbn.
  unfold p000_inv. auto.
Qed.

Lemma p000_inv_socket_close (code : option Z) :
  keeps p000_inv (socket_close code).
Proof.
  unfold socket_close.
  apply keeps_bind; [apply p000_inv_log; reflexivity | intros _].
  apply keeps_modify. intros st H.
  destruct (socket st) as [[[] o]|]; exact H.
Qed.

Ltac p000_inv_auto :=
  repeat first
    [ apply p000_inv_sendMessage
    | apply p000_inv_attemptReconnect
    | apply p000_inv_triggerEvent
    | apply p000_inv_updateConnectionStatus
    | apply p000_inv_reset
    | apply p000_inv_stopPingInterval
    | apply p000_inv_startPingInterval
    | apply p000_inv_try_backup
    | apply p000_inv_socket_close
    | apply p000_inv_log; reflexivity
    | apply keeps_modify; intros ? ?; assumption
    | keeps_step
    | progress unfold showNotification, Date_now ].

Lemma p000_inv_drain (fuel : nat) : keeps p000_inv (drain fuel).
Proof.
  induction fuel as [|n IH]; [apply keeps_throw|].
  cbn [drain]. apply keeps_bind.
  - unfold drain_head. p000_inv_auto.
  - intros []; [exact IH | apply keeps_ret].
Qed.

Lemma p000_inv_processMessageQueue : keeps p000_inv processMessageQueue.
Proof.
  unfold processMessageQueue. p000_inv_auto. apply p000_inv_drain.
Qed.

Lemma p000_inv_connectWebSocket (o : options) :
  keeps p000_inv (connectWebSocket o).
Proof. unfold connectWebSocket, newWebSocket. p000_inv_auto. Qed.

Lemma p000_inv_socket_onopen (o : options) : keeps p000_inv (socket_onopen o).
Proof.
  unfold socket_onopen, sendHelloMessage. p000_inv_auto.
  apply p000_inv_processMessageQueue.
Qed.

Lemma p000_inv_socket_onclose (code : Z) :
  keeps p000_inv (socket_onclose code).
Proof. unfold socket_onclose. p000_inv_auto. Qed.

Lemma p000_inv_socket_onerror (o : options) :
  keeps p000_inv (socket_onerror o).
Proof. unfold socket_onerror. p000_inv_auto. Qed.

Lemma p000_inv_disconnect : keeps p000_inv disconnect.
Proof. unfold disconnect. p000_inv_auto. Qed.

Lemma p000_inv_reconnect : keeps p000_inv reconnect.
Proof.
  unfold reconnect. p000_inv_auto; try apply p000_inv_connectWebSocket.
  apply keeps_modify. intros st (Ha & Hi & Hr). unfold p000_inv. cbn. auto.
Qed.

Lemma p000_inv_timer_fires (i : nat) : keeps p000_inv (timer_fires i).
Proof.
  unfold timer_fires. apply keeps_bind_gets. intros st H.
  destruct (timeouts (env st) !! i) as [t|] eqn:E; [|exact H].
  refine (keeps_bind p000_inv _ _ _ _ st H).
  - intros st' (Ha & Hi & Ht & Hd & Hb & Hf). unfold p000_inv. cbn.
    repeat split; auto; try lia.
    destruct H as (_ & _ & Ht0 & _). apply Forall_delete. exact Ht0.
  - intros _. p000_inv_auto; apply p000_inv_connectWebSocket.
Qed.

Lemma p000_inv_handle (i : p000_input) : keeps p000_inv (p000_handle i).
Proof.
  destruct i; cbn [p000_handle];
    unfold socket_opens, socket_closes, pingTick, on_ping, on_pong;
    p000_inv_auto;
    first [ apply p000_inv_connectWebSocket | apply p000_inv_disconnect
          | apply p000_inv_reconnect | apply p000_inv_socket_onopen
          | apply p000_inv_socket_onclose | apply p000_inv_socket_onerror
          | apply p000_inv_timer_fires | idtac ].
Qed.

(** *** The queue *)

Lemma p000_queue_inv_reconnecting (st : state) :
  p000_queue_inv st -> p000_queue_inv (p000_reconnecting st).
Proof.
  intros H. unfold p000_reconnecting.
  destruct (_ >=? _); exact H.
Qed.

Lemma p000_queue_inv_sendMessage (m : jsval) (q : bool) :
  keeps p000_queue_inv (sendMessage m q).
Proof.
  intros st H. rewrite p000_sendMessage_eq.
  destruct (well_formed m) eqn:Hw; [|exact H].
  assert (H1 : forall st1 : state,
             p000_queue_inv st1 ->
             p000_queue_inv (if q then p000_enqueued m st1 else st1)).
  { intros st1 H1. destruct q; [|exact H1].
    unfold p000_queue_inv, p000_enqueued. cbn.
    apply Forall_app. split; [exact H1|].
    constructor; [cbn; split; [lia | exact Hw] | constructor]. }
  destruct (sock_open (socket st)).
  - destruct (serializable m); cbn [snd]; [exact H|].
    apply H1. exact H.
  - cbn [snd]. cbv zeta.
    destruct (negb (is_connecting _)); [|apply H1; exact H].
    apply p000_queue_inv_reconnecting, H1, H.
Qed.

Lemma p000_queue_inv_processMessageQueue :
  keeps p000_queue_inv processMessageQueue.
Proof.
  intros st H.
  destruct (p000_processMessageQueue_eq st)
    as (st' & sent & Hrun & _ & _ & pre & post & Hq & _ & _ & Hleft).
  rewrite Hrun. cbn [snd]. unfold p000_queue_inv in *.
  rewrite Hq in H. apply Forall_app in H. destruct H as [_ H].
  destruct Hleft as [[_ ->] | (h & r & -> & Hlive & _ & ->)]; [constructor|].
  apply Forall_cons in H. destruct H as [[Hh Hw] Hr].
  constructor; [|exact Hr].
  unfold p000_live in Hlive. rewrite andb_true_iff, !negb_true_iff in Hlive.
  destruct Hlive as [Hlive _]. cbn. split; [lia | exact Hw].
Qed.

Lemma p000_queue_inv_triggerEvent (event : string) (data : jsval) :
  keeps p000_queue_inv (triggerEvent event data).
Proof. intros st H. rewrite p000_triggerEvent_eq. exact H. Qed.

Lemma p000_queue_inv_attemptReconnect : keeps p000_queue_inv attemptReconnect.
Proof.
  intros st H. rewrite p000_attemptReconnect_eq.
  apply p000_queue_inv_reconnecting, H.
Qed.

Lemma p000_queue_inv_socket_close (code : option Z) :
  keeps p000_queue_inv (socket_close code).
Proof.
  intros st H. unfold socket_close. munfold. cbn.
  destruct (socket st) as [[[] o]|]; exact H.
Qed.

Ltac p000_queue_auto :=
  repeat first
    [ apply p000_queue_inv_sendMessage
    | apply p000_queue_inv_processMessageQueue
    | apply p000_queue_inv_triggerEvent
    | apply p000_queue_inv_attemptReconnect
    | apply p000_queue_inv_socket_close
    | keeps_step
    | match goal with
      | |- keeps _ (modify _) => apply keeps_modify; intros ? ?; assumption
      | |- keeps _ (on_env (modify _)) => intros ? ?; assumption
      end
    | progress p000_open_up
    | progress unfold try_backup ].

Lemma p000_queue_inv_handle (i : p000_input) :
  keeps p000_queue_inv (p000_handle i).
Proof.
  destruct i; cbn [p000_handle]; p000_queue_auto.
Qed.

(** *** No handler raises *)

Lemma p000_sendMessage_returns (m : jsval) (q : bool) :
  returns (sendMessage m q).
Proof.
  intros st. rewrite p000_sendMessage_eq.
  destruct (well_formed m), (sock_open (socket st)), (serializable m);
    eexists; reflexivity.
Qed.

(** The bound on the turns of the [while] loop is never met. *)
Lemma p000_processMessageQueue_returns : returns processMessageQueue.
Proof.
  intros st. destruct (p000_processMessageQueue_eq st) as (st' & s & Hrun & _).
  rewrite Hrun. eexists. reflexivity.
Qed.

Lemma p000_triggerEvent_returns (event : string) (data : jsval) :
  returns (triggerEvent event data).
Proof. intros st. rewrite p000_triggerEvent_eq. eexists. reflexivity. Qed.

Lemma p000_attemptReconnect_returns : returns attemptReconnect.
Proof. intros st. rewrite p000_attemptReconnect_eq. eexists. reflexivity. Qed.

Ltac p000_returns_auto :=
  repeat first
    [ apply p000_sendMessage_returns
    | apply p000_processMessageQueue_returns
    | apply p000_triggerEvent_returns
    | apply p000_attemptReconnect_returns
    | keeps_step
    | match goal with
      | |- returns (on_env (modify _)) => intros ?; eexists; reflexivity
      end
    | progress p000_open_up
    | progress unfold try_backup ].

Lemma p000_handle_returns (i : p000_input) : returns (p000_handle i).
Proof.
  destruct i; cbn [p000_handle]; p000_returns_auto.
Qed.

(** *** Any sequence of events *)

Lemma p000_run_returns (l : list p000_input) (st : state) :
  forEach p000_handle l st = (Normal tt, exec (forEach p000_handle l) st).
Proof.
  destruct (returns_run (forEach p000_handle l) st) as [[] Hrun];
    [apply returns_forEach, p000_handle_returns | exact Hrun].
Qed.

Lemma p000_run_inv (l : list p000_input) (st : state) :
  p000_inv st -> p000_inv (exec (forEach p000_handle l) st).
Proof. apply keeps_forEach, p000_inv_handle. Qed.

Lemma p000_run_queue_inv (l : list p000_input) (st : state) :
  p000_queue_inv st -> p000_queue_inv (exec (forEach p000_handle l) st).
Proof. apply keeps_forEach, p000_queue_inv_handle. Qed.

Lemma p000_loaded_inv (t : Z) :
  p000_inv (p000_loaded t) /\ p000_queue_inv (p000_loaded t).
Proof.
  unfold p000_inv, p000_queue_inv. cbn.
  repeat split; auto; try lia; constructor.
Qed.

End Part000Invariant.

(** ** src/admin.js: heartbeats and the hello message across reconnections *)

Section AdminJsReconnections.
Import AdminJs.

Ltac munfold :=
  unfold showNotification, log, Date_now, setTimeout, on_env,
    bind, ret, gets, get, modify, when, throw, try_catch in *.

Lemma admin_cycle_eq (code : Z) (st : state) :
  code <> 1000 ->
  timeouts (env st) = [] ->
  url_valid (env st) = true ->
  socket st <> None ->
  admin_cycle code st = (Normal tt, admin_cycled st).
Proof.
  intros Hc Ht Hu Hs.
  destruct st as [[[r o]|] s n [t d u ts tr]]; [|cbn in Hs; congruence].
  cbn in Ht, Hu. subst ts u.
  unfold admin_cycle, admin_lost_and_retried, socket_closes, timer_fires,
    socket_opens, handleWebSocketClose, attemptReconnect, connectWebSocket,
    newWebSocket, socket_onopen, startPingInterval, updateConnectionStatus,
    socket_close.
  munfold. cbn.
  apply Z.eqb_neq in Hc. rewrite Hc. cbn.
  unfold admin_cycled, admin_reconnected, schedule, emit. cbn.
  rewrite <- !app_assoc. reflexivity.
Qed.

Lemma admin_cycles (code : Z) (k : nat) :
  code <> 1000 ->
  forall st : state,
    timeouts (env st) = [] ->
    url_valid (env st) = true ->
    socket st <> None ->
    exists st',
      repeat_m k (admin_cycle code) st = (Normal tt, st')
      /\ timeouts (env st') = []
      /\ url_valid (env st') = true
      /\ now (env st') = now (env st)
      /\ sock_open (socket st')
         = match k with O => sock_open (socket st) | S _ => true end
      /\ pingInterval st' = (pingInterval st + k)%nat
      /\ live_intervals (trace (env st'))
         = live_intervals (trace (env st)) + Z.of_nat k
      /\ frames (trace (env st')) = frames (trace (env st))
      /\ closes (trace (env st')) = closes (trace (env st)).
Proof.
  intros Hc. induction k as [|k IH]; intros st Ht Hu Hs.
  - exists st. cbn. repeat split; auto; lia.
  - cbn [repeat_m]. unfold bind at 1.
    rewrite (admin_cycle_eq code st Hc Ht Hu Hs).
    destruct (IH (admin_cycled st)) as (st' & Hrun & Ht' & Hu' & Hn & Ho & Hp & Hl & Hf & Hcl);
      [reflexivity | reflexivity | discriminate |].
    exists st'. split; [exact Hrun|].
    split; [exact Ht'|]. split; [exact Hu'|]. split; [exact Hn|].
    split; [destruct k; rewrite Ho; reflexivity|].
    split; [rewrite Hp; cbn; lia|].
    split; [rewrite Hl; cbn; rewrite live_intervals_app; cbn; lia|].
    split; [rewrite Hf; cbn; rewrite frames_app; cbn; apply app_nil_r|].
    rewrite Hcl. cbn. rewrite closes_app. cbn. apply app_nil_r.
Qed.

Lemma admin_pingTick_open (st : state) :
  sock_open (socket st) = true ->
  pingTick st
  = (Normal tt, set_env (emit (WsSend (ping_at (now (env st)))) (env st)) st).
Proof.
  intros Ho. unfold pingTick, sendMessage, JSON_stringify, socket_send,
    read_type.
  munfold. cbn. rewrite Ho. cbn. rewrite Ho. cbn.
  destruct (socket st) as [[[] o]|]; try discriminate. reflexivity.
Qed.

Lemma admin_ticks (n : nat) :
  forall st : state,
    sock_open (socket st) = true ->
    exists st',
      repeat_m n pingTick st = (Normal tt, st')
      /\ frames (trace (env st'))
         = frames (trace (env st)) ++ repeat (ping_at (now (env st))) n.
Proof.
  induction n as [|n IH]; intros st Ho.
  - exists st. cbn. rewrite app_nil_r. auto.
  - cbn [repeat_m]. unfold bind at 1. rewrite (admin_pingTick_open st Ho).
    destruct (IH (set_env (emit (WsSend (ping_at (now (env st)))) (env st)) st))
      as (st' & Hrun & Hf); [exact Ho|].
    exists st'. split; [exact Hrun|].
    rewrite Hf. cbn. rewrite frames_app. cbn. rewrite <- app_assoc. reflexivity.
Qed.

(** *** Any sequence of events *)

Lemma admin_inv_log (e : effect) :
  admin_quiet e = true -> keeps admin_inv (log e).
Proof.
  intros He st (Hn & Ht & Hd & Hc). unfold admin_inv, emit. cbn.
  rewrite notices_app, delays_app.
  repeat split; auto.
  - rewrite in_app_iff. intros [H|H]; [auto|].
    destruct e as [| | | | | |[]| |]; cbn in *; try discriminate;
      intuition discriminate.
  - destruct e; cbn in *; try discriminate; rewrite app_nil_r; exact Hd.
  - rewrite in_app_iff. intros [H|[H|[]]]; [auto|].
    subst e. discriminate.
Qed.

Lemma admin_inv_attemptReconnect : keeps admin_inv attemptReconnect.
Proof.
  intros st (Hn & Ht & Hd & Hc). rewrite admin_attemptReconnect_eq.
  unfold admin_inv, schedule, emit. cbn.
  rewrite notices_app, delays_app. cbn. rewrite app_nil_r.
  repeat split; auto.
  - apply Forall_app. split; [exact Ht | repeat constructor].
  - apply Forall_app. split; [exact Hd | repeat constructor].
  - rewrite in_app_iff. intros [H|[H|[]]]; [auto | discriminate].
Qed.

Ltac admin_open_up :=
  unfold socket_onopen, handleWebSocketClose, handleWebSocketError,
    socket_opens, socket_closes, connectWebSocket, newWebSocket,
    sendMessage, socket_send, JSON_stringify, read_type, pingTick,
    startPingInterval, socket_close, updateConnectionStatus,
    showNotification, Date_now.

Ltac admin_inv_auto :=
  repeat first
    [ apply admin_inv_attemptReconnect
    | apply admin_inv_log; reflexivity
    | apply keeps_modify; intros ? ?; assumption
    | keeps_step
    | match goal with
      | |- keeps _ (modify _) =>
          apply keeps_modify; intros ? ?;
          match goal with |- context [match ?x with _ => _ end] =>
            destruct x as [[[] ?]|] end; assumption
      end
    | progress admin_open_up ].

Lemma admin_inv_timer_fires (i : nat) : keeps admin_inv (timer_fires i).
Proof.
  unfold timer_fires. apply keeps_bind_gets. intros st H.
  destruct (timeouts (env st) !! i) as [t|] eqn:E; [|exact H].
  refine (keeps_bind admin_inv _ _ _ _ st H).
  - intros st' (Hn & Ht & Hd & Hc). unfold admin_inv. cbn.
    repeat split; auto.
    destruct H as (_ & Ht0 & _). apply Forall_delete. exact Ht0.
  - intros _. admin_inv_auto.
Qed.

Lemma admin_inv_handle (i : admin_input) : keeps admin_inv (admin_handle i).
Proof.
  destruct i; cbn [admin_handle];
    try apply admin_inv_timer_fires; admin_inv_auto.
Qed.

Ltac admin_returns_auto :=
  repeat first
    [ keeps_step
    | match goal with
      | |- returns (on_env (modify _)) => intros ?; eexists; reflexivity
      | |- returns attemptReconnect =>
          intros ?; rewrite admin_attemptReconnect_eq; eexists; reflexivity
      end
    | progress (unfold timer_fires; admin_open_up; unfold log) ].

Lemma admin_handle_returns (i : admin_input) : returns (admin_handle i).
Proof.
  destruct i; cbn [admin_handle]; admin_returns_auto.
Qed.

Lemma admin_run_returns (l : list admin_input) (st : state) :
  forEach admin_handle l st = (Normal tt, exec (forEach admin_handle l) st).
Proof.
  destruct (returns_run (forEach admin_handle l) st) as [[] Hrun];
    [apply returns_forEach, admin_handle_returns | exact Hrun].
Qed.

Lemma admin_run_inv (l : list admin_input) (st : state) :
  admin_inv st -> admin_inv (exec (forEach admin_handle l) st).
Proof. apply keeps_forEach, admin_inv_handle. Qed.

(** X18. src/admin.js: [startPingInterval] sets an interval at every open
    event and nothing clears one, so the heartbeats add up.  After [k]
    rounds of losing the connection (any code but 1000), the timeout
    firing and the new socket opening, [k] more intervals are running, and
    when each running interval fires once the transport is handed as many
    pings as there are intervals. *)
Theorem admin_heartbeats_accumulate (code : Z) (k : nat) (st : state) :
  code <> 1000 ->
  timeouts (env st) = [] ->
  url_valid (env st) = true ->
  sock_open (socket st) = true ->
  exists st' st'',
    repeat_m k (admin_cycle code) st = (Normal tt, st')
    /\ pingInterval st' = (pingInterval st + k)%nat
    /\ live_intervals (trace (env st'))
       = live_intervals (trace (env st)) + Z.of_nat k
    /\ admin_period st' = (Normal tt, st'')
    /\ frames (trace (env st''))
       = frames (trace (env st))
         ++ repeat (ping_at (now (env st))) (pingInterval st + k).
Proof.
  intros Hc Ht Hu Ho.
  destruct (admin_cycles code k Hc st Ht Hu)
    as (st' & Hrun & _ & _ & Hn & Ho' & Hp & Hl & Hf & _).
  { intros E. rewrite E in Ho. discriminate. }
  assert (Hopen : sock_open (socket st') = true)
    by (rewrite Ho'; destruct k; auto).
  destruct (admin_ticks (pingInterval st') st' Hopen) as (st'' & Hrun' & Hf').
  exists st', st''. split; [exact Hrun|]. split; [exact Hp|].
  split; [exact Hl|]. split.
  - unfold admin_period, bind, gets. exact Hrun'.
  - rewrite Hf', Hf, Hn, Hp. reflexivity.
Qed.

Lemma admin_heartbeats_accumulate_witness :
  exists st' st'',
    repeat_m 2 (admin_cycle 1006) (admin_open 0) = (Normal tt, st')
    /\ pingInterval st' = 3%nat
    /\ live_intervals (trace (env st')) = 2
    /\ admin_period st' = (Normal tt, st'')
    /\ frames (trace (env st'')) = [ping_at 0; ping_at 0; ping_at 0].
Proof.
  destruct (admin_heartbeats_accumulate 1006 2 (admin_open 0))
    as (st' & st'' & H); [lia | reflexivity | reflexivity | reflexivity |].
  exists st', st''. exact H.
Defined.

Lemma admin_first_open (token : jsval) (st : state) :
  truthy token = true ->
  serializable token = true ->
  url_valid (env st) = true ->
  exists st1,
    (connectWebSocket token ;; socket_opens) st = (Normal tt, st1)
    /\ sock_open (socket st1) = true
    /\ timeouts (env st1) = timeouts (env st)
    /\ url_valid (env st1) = true
    /\ frames (trace (env st1))
       = frames (trace (env st))
         ++ [admin_hello token (now (env st)) (device (env st))].
Proof.
  intros Htr Hse Hu.
  destruct st as [sock s n [t d u ts tr]]. cbn in Hu. subst u.
  assert (Hh : serializable (admin_hello token t d) = true).
  { cbn. rewrite Hse. reflexivity. }
  unfold connectWebSocket, socket_opens, socket_onopen, newWebSocket,
    startPingInterval, updateConnectionStatus, socket_close.
  munfold. cbn -[sendMessage truthy].
  destruct sock as [[[] o0]|]; cbn -[sendMessage truthy]; rewrite Htr;
    cbn -[sendMessage];
    fold (admin_hello token t d);
    unfold sendMessage, JSON_stringify, socket_send, read_type; munfold;
    cbn -[admin_hello]; rewrite Hh; cbn -[admin_hello];
    (eexists; split; [reflexivity|]); cbn -[admin_hello];
    rewrite ?frames_app; cbn -[admin_hello];
    rewrite ?frames_app; cbn -[admin_hello];
    rewrite ?app_nil_r; repeat split; reflexivity.
Qed.

(** X19. src/admin.js: the hello message that carries the admin token is
    sent when the socket of [connectWebSocket(adminToken)] opens, and not
    again: the timeout of [attemptReconnect] calls [connectWebSocket()]
    without a token, so after a lost connection has been replaced the new
    socket opens without any hello message being sent on it. *)
Theorem admin_hello_once (token : jsval) (code : Z) (st : state) :
  truthy token = true ->
  serializable token = true ->
  url_valid (env st) = true ->
  timeouts (env st) = [] ->
  code <> 1000 ->
  exists st1 st2,
    (connectWebSocket token ;; socket_opens) st = (Normal tt, st1)
    /\ frames (trace (env st1))
       = frames (trace (env st))
         ++ [admin_hello token (now (env st)) (device (env st))]
    /\ admin_cycle code st1 = (Normal tt, st2)
    /\ socket st2 = Some admin_reconnected
    /\ frames (trace (env st2)) = frames (trace (env st1)).
Proof.
  intros Htr Hse Hu Ht Hc.
  destruct (admin_first_open token st Htr Hse Hu)
    as (st1 & Hrun1 & Ho1 & Ht1 & Hu1 & Hf1).
  exists st1, (admin_cycled st1). split; [exact Hrun1|]. split; [exact Hf1|].
  split.
  - apply admin_cycle_eq; [exact Hc | congruence | exact Hu1 |].
    intros E. rewrite E in Ho1. discriminate.
  - split; [reflexivity|]. cbn. rewrite frames_app. apply app_nil_r.
Qed.

Lemma admin_hello_once_witness :
  exists st1 st2,
    (connectWebSocket (JString "secret") ;; socket_opens) (admin_open 0)
    = (Normal tt, st1)
    /\ frames (trace (env st1))
       = [admin_hello (JString "secret") 0 sample_device]
    /\ admin_cycle 1006 st1 = (Normal tt, st2)
    /\ socket st2 = Some admin_reconnected
    /\ frames (trace (env st2)) = frames (trace (env st1)).
Proof.
  destruct (admin_hello_once (JString "secret") 1006 (admin_open 0))
    as (st1 & st2 & H);
    [reflexivity | reflexivity | reflexivity | reflexivity | lia |].
  exists st1, st2. exact H.
Defined.

(** X20. src/admin.js, [sendMessage]: no check of the message and no
    queue.  On an open socket whatever [JSON.stringify] accepts is handed
    to the transport, and the result is true unless the message is [null]
    or [undefined]: for these the frame has been handed over when reading
    [message.type] for the log line raises, so the call shows the 'Failed
    to send message' notice and returns false.  A message
    [JSON.stringify] rejects, or a socket that is not open, gives false,
    a notice and no frame. *)
Theorem admin_sendMessage_spec (m : jsval) (st : state) :
  let defined := match m with JUndefined | JNull => false | _ => true end in
  exists st',
    sendMessage m st
    = (Normal (sock_open (socket st) && serializable m && defined), st')
    /\ frames (trace (env st'))
       = frames (trace (env st))
         ++ (if sock_open (socket st) && serializable m then [m] else [])
    /\ notices (trace (env st'))
       = notices (trace (env st))
         ++ (if negb (sock_open (socket st)) then [N_not_connected]
             else if serializable m && defined then []
             else [N_failed_to_send])
    /\ socket st' = socket st
    /\ timeouts (env st') = timeouts (env st).
Proof.
  cbv zeta. unfold sendMessage, JSON_stringify, socket_send, read_type.
  munfold.
  destruct (sock_open (socket st)) eqn:Ho; cbn.
  - destruct (socket st) as [[[] o]|] eqn:E; try discriminate.
    destruct (serializable m) eqn:Hs; cbn; rewrite ?E; cbn.
    + destruct m; cbn; (eexists; split; [reflexivity|]); cbn;
        rewrite ?frames_app, ?notices_app; cbn;
        rewrite ?frames_app, ?notices_app; cbn;
        rewrite ?app_nil_r, ?E; repeat split; reflexivity.
    + eexists. split; [reflexivity|]. cbn.
      rewrite ?frames_app, ?notices_app. cbn.
      rewrite ?app_nil_r, ?E. repeat split; reflexivity.
  - eexists. split; [reflexivity|]. cbn.
    rewrite ?frames_app, ?notices_app. cbn.
    rewrite ?app_nil_r. repeat split; reflexivity.
Qed.

End AdminJsReconnections.

(** ** Message objects and the two fields of the queue *)

Lemma serializable_object (fs : list (string * jsval)) :
  serializable (JObject fs) = forallb (fun p => serializable (snd p)) fs.
Proof.
  induction fs as [|[k v] fs IH]; [reflexivity|].
  cbn in *. rewrite IH. reflexivity.
Qed.

Lemma assoc_remove_other (k k' : string) (fs : list (string * jsval)) :
  String.eqb k k' = false ->
  assoc k (assoc_remove k' fs) = assoc k fs.
Proof.
  intros Hk. induction fs as [|[k0 v] fs IH]; [reflexivity|].
  cbn. destruct (String.eqb k' k0) eqn:E.
  - apply String.eqb_eq in E. subst k0. rewrite Hk. exact IH.
  - cbn. rewrite IH. reflexivity.
Qed.

Lemma assoc_set_other (k k' : string) (x : jsval) (fs : list (string * jsval)) :
  String.eqb k k' = false ->
  assoc k (assoc_set k' x fs) = assoc k fs.
Proof.
  intros Hk. induction fs as [|[k0 v] fs IH]; [cbn; rewrite Hk; reflexivity|].
  cbn. destruct (String.eqb k' k0) eqn:E.
  - apply String.eqb_eq in E. subst k0. cbn. rewrite Hk. reflexivity.
  - cbn. rewrite IH. reflexivity.
Qed.

Lemma forallb_assoc_remove (f : string * jsval -> bool) (k : string)
    (fs : list (string * jsval)) :
  forallb f fs = true -> forallb f (assoc_remove k fs) = true.
Proof.
  induction fs as [|[k0 v] fs IH]; [reflexivity|].
  cbn. intros H. apply andb_prop in H. destruct H as [H1 H2].
  destruct (String.eqb k k0); cbn; rewrite ?H1; auto.
Qed.

(** Taking the two fields out leaves the checks of [sendMessage] as they
    were. *)
Lemma well_formed_strip_meta (m : jsval) :
  well_formed (strip_meta m) = well_formed m.
Proof.
  destruct m; try reflexivity.
  unfold well_formed, strip_meta. cbn.
  rewrite !assoc_remove_other by reflexivity. reflexivity.
Qed.

Lemma serializable_strip_meta (m : jsval) :
  serializable m = true -> serializable (strip_meta m) = true.
Proof.
  destruct m; try (intros; assumption).
  unfold strip_meta. cbn [without_field].
  rewrite !serializable_object. intros H.
  apply forallb_assoc_remove, forallb_assoc_remove, H.
Qed.

Lemma well_formed_with_meta (x : queued) :
  well_formed (with_meta x) = well_formed (q_msg x).
Proof.
  unfold with_meta. destruct (q_msg x); try reflexivity.
  unfold well_formed. cbn.
  rewrite !assoc_set_other by reflexivity. reflexivity.
Qed.

Lemma forallb_assoc_set (k : string) (a b : Z) (fs : list (string * jsval)) :
  forallb (fun p => serializable (snd p)) (assoc_set k (JNumber a) fs)
  = forallb (fun p => serializable (snd p)) (assoc_set k (JNumber b) fs).
Proof.
  induction fs as [|[k0 v] fs IH]; [reflexivity|].
  cbn. destruct (String.eqb k k0); cbn; rewrite ?IH; reflexivity.
Qed.

Lemma forallb_assoc_set_ok (k : string) (a : Z) (fs : list (string * jsval)) :
  forallb (fun p => serializable (snd p)) fs = true ->
  forallb (fun p => serializable (snd p)) (assoc_set k (JNumber a) fs) = true.
Proof.
  induction fs as [|[k0 v] fs IH]; [reflexivity|].
  cbn. intros H. apply andb_prop in H. destruct H as [H1 H2].
  destruct (String.eqb k k0); cbn; rewrite ?H1, ?IH; auto.
Qed.

Lemma serializable_with_meta (x : queued) :
  serializable (q_msg x) = true -> serializable (with_meta x) = true.
Proof.
  unfold with_meta. destruct (q_msg x); try (intros; assumption).
  cbn [set_field]. rewrite !serializable_object. intros H.
  apply forallb_assoc_set_ok, forallb_assoc_set_ok, H.
Qed.

(** One more retry counted changes the value of [_retryCount] only. *)
Lemma can_send_with_meta_bump (sock : option WebSocket) (x : queued) :
  can_send sock (with_meta (bump x)) = can_send sock (with_meta x).
Proof.
  unfold can_send. rewrite !well_formed_with_meta. cbn [bump q_msg].
  f_equal. unfold with_meta. cbn [bump q_msg q_timestamp q_retryCount].
  destruct (q_msg x); try reflexivity.
  cbn [set_field]. rewrite !serializable_object. apply forallb_assoc_set.
Qed.

(** ** src/websocket.js: passes over the queue *)

Lemma filter_none {A} (f : A -> bool) (l : list A) :
  Forall (fun x => f x = false) l -> List.filter f l = [].
Proof.
  induction 1 as [|x l Hx Hl IH]; [reflexivity|].
  cbn. rewrite Hx. exact IH.
Qed.

Lemma filter_all {A} (f : A -> bool) (l : list A) :
  Forall (fun x => f x = true) l -> List.filter f l = l.
Proof.
  induction 1 as [|x l Hx Hl IH]; [reflexivity|].
  cbn. rewrite Hx, IH. reflexivity.
Qed.

Lemma filter_map_swap {A B} (f : B -> bool) (g : A -> B) (l : list A) :
  List.filter f (map g l) = map g (List.filter (fun x => f (g x)) l).
Proof.
  induction l as [|x l IH]; [reflexivity|].
  cbn. destruct (f (g x)); cbn; rewrite IH; reflexivity.
Qed.

Lemma filter_filter {A} (f g : A -> bool) (l : list A) :
  List.filter f (List.filter g l) = List.filter (fun x => g x && f x) l.
Proof.
  induction l as [|x l IH]; [reflexivity|].
  cbn. destruct (g x); cbn; [destruct (f x)|]; rewrite IH; reflexivity.
Qed.

Section WebsocketJsQueue.
Import WebsocketJs.

Lemma wsjs_pass (st : state) :
  exists st',
    processMessageQueue st = (Normal tt, st')
    /\ ws st' = ws st
    /\ now (env st') = now (env st)
    /\ messageQueue st'
       = map bump (List.filter (wsjs_stays (now (env st)) (ws st))
                               (messageQueue st))
    /\ frames (trace (env st'))
       = frames (trace (env st))
         ++ map wsjs_frame
              (rev (List.filter (wsjs_sent (now (env st)) (ws st))
                                (messageQueue st))).
Proof.
  destruct (wsjs_processMessageQueue_eq st) as (st' & Hrun & Hw & Hq & Hf).
  exists st'. repeat split; auto.
  pose proof (wsjs_now_processMessageQueue (now (env st)) st eq_refl) as Hn.
  rewrite Hrun in Hn. exact Hn.
Qed.

Lemma wsjs_pass_unsendable (st : state) :
  Forall (fun x => can_send (ws st) (wsjs_frame x) = false) (messageQueue st) ->
  exists st',
    processMessageQueue st = (Normal tt, st')
    /\ ws st' = ws st
    /\ now (env st') = now (env st)
    /\ messageQueue st'
       = map bump (List.filter (wsjs_kept (now (env st)) 1) (messageQueue st))
    /\ frames (trace (env st')) = frames (trace (env st)).
Proof.
  intros Hu.
  destruct (wsjs_pass st) as (st' & Hrun & Hw & Hn & Hq & Hf).
  exists st'. repeat split; auto.
  - rewrite Hq. f_equal. apply filter_ext_in. intros x Hx.
    rewrite Forall_forall in Hu.
    specialize (Hu x (proj2 (list_elem_of_In _ _) Hx)).
    unfold wsjs_stays, wsjs_kept. rewrite Hu. cbn.
    rewrite andb_true_r. f_equal.
    rewrite Z.gtb_ltb, <- Z.leb_antisym. reflexivity.
  - rewrite Hf, filter_none; [apply app_nil_r|].
    eapply Forall_impl; [exact Hu|]. intros x Hx. cbn in Hx.
    unfold wsjs_sent. rewrite Hx. apply andb_false_r.
Qed.

Lemma wsjs_passes_unsendable (k : nat) :
  forall st : state,
    Forall (fun x => can_send (ws st) (wsjs_frame x) = false)
           (messageQueue st) ->
    exists st',
      repeat_m (S k) processMessageQueue st = (Normal tt, st')
      /\ ws st' = ws st
      /\ now (env st') = now (env st)
      /\ messageQueue st'
         = map (Nat.iter (S k) bump)
               (List.filter (wsjs_kept (now (env st)) (S k)) (messageQueue st))
      /\ frames (trace (env st')) = frames (trace (env st)).
Proof.
  induction k as [|k IH]; intros st Hu.
  - destruct (wsjs_pass_unsendable st Hu) as (st' & Hrun & Hw & Hn & Hq & Hf).
    exists st'. cbn [repeat_m]. unfold bind. rewrite Hrun.
    repeat split; auto.
  - destruct (wsjs_pass_unsendable st Hu) as (st1 & Hrun & Hw & Hn & Hq & Hf).
    destruct (IH st1) as (st' & Hrun' & Hw' & Hn' & Hq' & Hf').
    { rewrite Hq, Hw. apply Forall_map.
      apply Forall_forall. intros x Hx. apply list_elem_of_In in Hx.
      apply filter_In in Hx. destruct Hx as [Hx _].
      rewrite Forall_forall in Hu. apply (Hu x). apply list_elem_of_In, Hx. }
    exists st'. split.
    { change (repeat_m (S (S k)) processMessageQueue)
        with (processMessageQueue ;; repeat_m (S k) processMessageQueue).
      unfold bind at 1. rewrite Hrun. exact Hrun'. }
    split; [congruence|]. split; [congruence|]. split; [|congruence].
    rewrite Hq', Hq, Hn, filter_map_swap, map_map, filter_filter.
    rewrite (map_ext _ (Nat.iter (S (S k)) bump))
      by (intros x; rewrite (Nat.iter_succ_r (S k)); reflexivity).
    f_equal. apply filter_ext. intros x.
    unfold wsjs_kept, wsjs_expired. cbn [bump q_timestamp q_retryCount].
    destruct (negb _); cbn; [|reflexivity].
    destruct (Z.leb_spec (q_retryCount x + Z.of_nat 1) 3),
             (Z.leb_spec (q_retryCount x + 1 + Z.of_nat (S k)) 3),
             (Z.leb_spec (q_retryCount x + Z.of_nat (S (S k))) 3);
      try reflexivity; lia.
Qed.

(** X2. src/websocket.js, [processMessageQueue]: while the entries of the
    queue cannot be sent (no open socket, or a message [JSON.stringify]
    rejects), a pass hands nothing to the transport, and after [k + 1]
    passes the queue holds, in their order and with [k + 1] more retries
    counted, the entries that have not expired and whose retry count has
    stayed within 3.  An entry queued with count 0 is therefore kept by
    three passes and dropped by the fourth: after four passes the queue is
    empty. *)
Theorem wsjs_retry_budget (k : nat) (st : state) :
  Forall (fun x => can_send (ws st) (wsjs_frame x) = false) (messageQueue st) ->
  exists st',
    repeat_m (S k) processMessageQueue st = (Normal tt, st')
    /\ frames (trace (env st')) = frames (trace (env st))
    /\ messageQueue st'
       = map (Nat.iter (S k) bump)
             (List.filter (wsjs_kept (now (env st)) (S k)) (messageQueue st))
    /\ (Forall (fun x => 0 <= q_retryCount x) (messageQueue st) ->
        (3 <= k)%nat -> messageQueue st' = []).
Proof.
  intros Hu.
  destruct (wsjs_passes_unsendable k st Hu) as (st' & Hrun & _ & _ & Hq & Hf).
  exists st'. split; [exact Hrun|]. split; [exact Hf|]. split; [exact Hq|].
  intros Hpos Hk. rewrite Hq, filter_none; [reflexivity|].
  eapply Forall_impl; [exact Hpos|]. intros x Hx. cbn in Hx.
  unfold wsjs_kept. apply andb_false_iff. right. apply Z.leb_gt. lia.
Qed.

Lemma wsjs_retry_budget_witness :
  exists st',
    repeat_m 3 processMessageQueue
      (wsjs_open 0 0 [Queued msg_win 0 0; Queued msg_win 0 2])
    = (Normal tt, st')
    /\ frames (trace (env st')) = []
    /\ messageQueue st' = [Queued msg_win 0 3].
Proof.
  destruct (wsjs_retry_budget 2
              (wsjs_open 0 0 [Queued msg_win 0 0; Queued msg_win 0 2]))
    as (st' & Hrun & Hf & Hq & _); [repeat constructor|].
  exists st'. split; [exact Hrun|]. split; [exact Hf | exact Hq].
Defined.

End WebsocketJsQueue.

(** ** src/unnamed/part_000: passes over the queue *)

Lemma p000_pass_dead_head t sock h r sent left :
  p000_live t h = false ->
  p000_pass t sock (h :: r) sent left ->
  p000_pass t sock r sent left.
Proof.
  intros Hd (pre & post & Hq & Hpre & Hsent & Hleft).
  destruct pre as [|x pre].
  - cbn in Hq. subst post.
    destruct Hleft as [[Hnil _] | (h' & r' & Heq & Hlive & _)];
      [discriminate|].
    injection Heq as <- <-. congruence.
  - cbn in Hq. injection Hq as <- ->.
    exists pre, post. split; [reflexivity|].
    apply Forall_cons in Hpre. destruct Hpre as [_ Hpre].
    split; [exact Hpre|]. split; [|exact Hleft].
    rewrite Hsent. cbn [List.filter]. rewrite Hd. reflexivity.
Qed.

Lemma p000_pass_blocked t sock h r sent left :
  p000_live t h = true ->
  can_send sock (with_meta h) = false ->
  p000_pass t sock (h :: r) sent left ->
  sent = [] /\ left = bump h :: r.
Proof.
  intros Hl Hc (pre & post & Hq & Hpre & Hsent & Hleft).
  destruct pre as [|x pre].
  - cbn in Hq. subst post. cbn in Hsent.
    destruct Hleft as [[Hnil _] | (h' & r' & Heq & _ & _ & Hleft)];
      [discriminate|].
    injection Heq as <- <-. auto.
  - cbn in Hq. injection Hq as <- ->.
    apply Forall_cons in Hpre. destruct Hpre as [Hx _].
    rewrite (Hx Hl) in Hc. discriminate.
Qed.

Lemma p000_pass_all t sock q sent left :
  Forall (fun x => p000_live t x = true /\ can_send sock (with_meta x) = true)
         q ->
  p000_pass t sock q sent left ->
  sent = map with_meta q /\ left = [].
Proof.
  intros Hall (pre & post & Hq & Hpre & Hsent & Hleft). subst q.
  apply Forall_app in Hall. destruct Hall as [Hp Hpost].
  destruct Hleft as [[-> ->] | (h & r & -> & _ & Hc & _)].
  - rewrite app_nil_r. split; [|reflexivity].
    rewrite Hsent, filter_all; [reflexivity|].
    eapply Forall_impl; [exact Hp|]. intros x [Hx _]. exact Hx.
  - apply Forall_cons in Hpost. destruct Hpost as [[_ Hh] _]. congruence.
Qed.

Lemma p000_pass_none t sock q sent left :
  Forall (fun x => p000_live t x = false) q ->
  p000_pass t sock q sent left ->
  sent = [] /\ left = [].
Proof.
  intros Hall (pre & post & Hq & Hpre & Hsent & Hleft). subst q.
  apply Forall_app in Hall. destruct Hall as [Hp Hpost].
  destruct Hleft as [[-> ->] | (h & r & -> & Hl & _)].
  - split; [|reflexivity]. rewrite Hsent, filter_none; auto.
  - apply Forall_cons in Hpost. destruct Hpost as [Hh _]. congruence.
Qed.

Section Part000Queue.
Import Part000.

Lemma p000_pass_run (st : state) :
  exists st' sent,
    processMessageQueue st = (Normal tt, st')
    /\ socket st' = socket st
    /\ now (env st') = now (env st)
    /\ frames (trace (env st')) = frames (trace (env st)) ++ sent
    /\ p000_pass (now (env st)) (socket st) (messageQueue st) sent
                 (messageQueue st').
Proof.
  unfold processMessageQueue, bind, gets.
  apply (p000_drain (messageQueue st)); [reflexivity | lia].
Qed.

(** A head that cannot be sent holds the queue back for as many passes as
    it has retries left. *)
Lemma p000_blocked_passes (k : nat) :
  forall (st : state) (h : queued) (r : list queued),
    messageQueue st = h :: r ->
    can_send (socket st) (with_meta h) = false ->
    now (env st) - q_timestamp h <= 300000 ->
    q_retryCount h + Z.of_nat k <= 4 ->
    exists st',
      repeat_m k processMessageQueue st = (Normal tt, st')
      /\ socket st' = socket st
      /\ now (env st') = now (env st)
      /\ messageQueue st' = Nat.iter k bump h :: r
      /\ frames (trace (env st')) = frames (trace (env st)).
Proof.
  induction k as [|k IH]; intros st h r Hq Hc Ht Hk.
  - exists st. cbn. auto.
  - destruct (p000_pass_run st) as (st1 & sent & Hrun & Hs & Hn & Hf & Hp).
    rewrite Hq in Hp.
    apply p000_pass_blocked in Hp; [|
      unfold p000_live; apply andb_true_intro; split; apply negb_true_iff;
        rewrite Z.gtb_ltb; apply Z.ltb_ge; lia | exact Hc].
    destruct Hp as [-> Hq1]. rewrite app_nil_r in Hf.
    destruct (IH st1 (bump h) r) as (st' & Hrun' & Hs' & Hn' & Hq' & Hf').
    + exact Hq1.
    + rewrite Hs, can_send_with_meta_bump. exact Hc.
    + rewrite Hn. exact Ht.
    + cbn. lia.
    + exists st'. split.
      { cbn [repeat_m]. unfold bind at 1. rewrite Hrun. exact Hrun'. }
      split; [congruence|]. split; [congruence|]. split; [|congruence].
      rewrite Hq', Nat.iter_succ_r. reflexivity.
Qed.

(** X3. src/unnamed/part_000, [processMessageQueue]: a head entry that
    cannot be sent (and has not expired) holds back every entry behind
    it.  Each pass counts one more retry on the head and hands nothing to
    the transport, for as many passes as take its count to 4; the pass
    after that drops the head without a send and goes on with the entries
    behind it. *)
Theorem p000_head_of_line (k : nat) (st : state) (h : queued)
    (r : list queued) :
  messageQueue st = h :: r ->
  can_send (socket st) (with_meta h) = false ->
  now (env st) - q_timestamp h <= 300000 ->
  q_retryCount h + Z.of_nat k = 4 ->
  exists st',
    repeat_m k processMessageQueue st = (Normal tt, st')
    /\ messageQueue st' = Nat.iter k bump h :: r
    /\ frames (trace (env st')) = frames (trace (env st))
    /\ exists st'' sent,
         processMessageQueue st' = (Normal tt, st'')
         /\ frames (trace (env st'')) = frames (trace (env st)) ++ sent
         /\ p000_pass (now (env st)) (socket st) r sent (messageQueue st'').
Proof.
  intros Hq Hc Ht Hk.
  destruct (p000_blocked_passes k st h r Hq Hc Ht)
    as (st' & Hrun & Hs & Hn & Hq' & Hf); [lia|].
  exists st'. split; [exact Hrun|]. split; [exact Hq'|]. split; [exact Hf|].
  destruct (p000_pass_run st') as (st'' & sent & Hrun' & _ & _ & Hf' & Hp).
  exists st'', sent. split; [exact Hrun'|]. split; [congruence|].
  rewrite Hq', Hs, Hn in Hp. apply p000_pass_dead_head in Hp; [exact Hp|].
  assert (Hrc : forall n x, q_retryCount (Nat.iter n bump x)
                            = q_retryCount x + Z.of_nat n).
  { induction n as [|n IH]; intros x; [cbn; lia|].
    rewrite Nat.iter_succ. cbn [bump q_retryCount]. rewrite IH. lia. }
  unfold p000_live. rewrite Hrc, Hk. reflexivity.
Qed.

Lemma p000_head_of_line_witness :
  exists st',
    repeat_m 4 processMessageQueue
      (p000_open 0 [Queued msg_win 0 0; Queued msg_chat 0 0])
    = (Normal tt, st')
    /\ messageQueue st' = [Queued msg_win 0 4; Queued msg_chat 0 0]
    /\ frames (trace (env st')) = [].
Proof.
  destruct (p000_head_of_line 4
              (p000_open 0 [Queued msg_win 0 0; Queued msg_chat 0 0])
              (Queued msg_win 0 0) [Queued msg_chat 0 0])
    as (st' & Hrun & Hq & Hf & _);
    [reflexivity | reflexivity | cbn; lia | reflexivity |].
  exists st'. split; [exact Hrun|]. split; [exact Hq | exact Hf].
Defined.

End Part000Queue.

(** ** Messages sent before the connection is open, then the open event *)

Section WebsocketJsOpen.
Import WebsocketJs.

Ltac munfold :=
  unfold showNotification, log, Date_now, setTimeout, on_env,
    bind, ret, gets, get, modify, when, throw, try_catch in *.

Lemma wsjs_ws_onopen_eq (o : options) (st : state) :
  sock_open (ws st) = true ->
  serializable (hello o (device (env st))) = true ->
  exists st1,
    ws_onopen o st = processMessageQueue st1
    /\ wsjs_sent_more st [hello o (device (env st))] st1
    /\ connected st1 = true
    /\ reconnectAttempts st1 = 0
    /\ pingInterval st1 = true.
Proof.
  intros Ho Hs.
  assert (Hw : forall d, well_formed (hello o d) = true) by reflexivity.
  unfold ws_onopen, startPingInterval, stopPingInterval. munfold.
  cbn -[sendMessage triggerEvent processMessageQueue hello].
  destruct (pingInterval st);
    cbn -[sendMessage triggerEvent processMessageQueue hello];
    rewrite wsjs_sendMessage_eq, Hw;
    cbn -[sendMessage triggerEvent processMessageQueue hello];
    rewrite Ho, Hs;
    cbn -[sendMessage triggerEvent processMessageQueue hello];
    rewrite wsjs_triggerEvent_eq;
    eexists; (split; [reflexivity|]);
    unfold wsjs_sent_more; cbn -[hello];
    rewrite !frames_app, ?listeners_trace_frames; cbn -[hello];
    rewrite ?app_nil_r; repeat split; reflexivity.
Qed.

Lemma wsjs_sends_offline (ms : list jsval) :
  forall st : state,
    sock_open (ws st) = false ->
    Forall (fun m => well_formed m = true) ms ->
    exists st',
      wsjs_sends ms st = (Normal tt, st')
      /\ ws st' = ws st
      /\ now (env st') = now (env st)
      /\ device (env st') = device (env st)
      /\ frames (trace (env st')) = frames (trace (env st))
      /\ messageQueue st'
         = messageQueue st ++ map (fun m => Queued m (now (env st)) 0) ms.
Proof.
  induction ms as [|m ms IH]; intros st Ho Hw.
  - exists st. cbn. rewrite app_nil_r. repeat split; reflexivity.
  - apply Forall_cons in Hw. destruct Hw as [Hm Hw].
    assert (Hstep : exists st1,
               sendMessage m true st = (Normal false, st1)
               /\ ws st1 = ws st /\ now (env st1) = now (env st)
               /\ device (env st1) = device (env st)
               /\ frames (trace (env st1)) = frames (trace (env st))
               /\ messageQueue st1
                  = messageQueue st ++ [Queued m (now (env st)) 0]).
    { rewrite wsjs_sendMessage_eq, Hm, Ho. eexists. split; [reflexivity|].
      cbv zeta. unfold wsjs_reconnecting, wsjs_enqueued.
      destruct (negb _ && _); [destruct (_ >? _)|]; cbn;
        rewrite ?frames_app; cbn; rewrite ?app_nil_r;
        repeat split; reflexivity. }
    destruct Hstep as (st1 & Hrun & Hws & Hn & Hd & Hf & Hq).
    destruct (IH st1) as (st' & Hrun' & Hws' & Hn' & Hd' & Hf' & Hq');
      [rewrite Hws; exact Ho | exact Hw |].
    exists st'. split.
    { unfold wsjs_sends in *. cbn [forEach]. unfold bind at 1.
      unfold bind at 1. rewrite Hrun. exact Hrun'. }
    split; [congruence|]. split; [congruence|]. split; [congruence|].
    split; [congruence|].
    rewrite Hq', Hq, Hn, <- app_assoc. reflexivity.
Qed.

(** X4. src/websocket.js: messages sent while the socket is still
    connecting are queued, and the open event hands them to the
    transport after the hello message, the last one sent first, each
    without any [_timestamp] or [_retryCount] field of its own; when more
    than five minutes have passed since they were sent, none is handed
    over.  Either way the queue is empty afterwards. *)
Theorem wsjs_offline_then_open (ms : list jsval) (t1 : Z) (o : options)
    (st : state) :
  ws st = Some (Socket CONNECTING o) ->
  messageQueue st = [] ->
  Forall (fun m => well_formed m = true /\ serializable m = true) ms ->
  serializable (hello o (device (env st))) = true ->
  exists st',
    (wsjs_sends ms ;; modify (wsjs_clock t1) ;; socket_opens) st
    = (Normal tt, st')
    /\ messageQueue st' = []
    /\ frames (trace (env st'))
       = frames (trace (env st))
         ++ hello o (device (env st))
            :: (if t1 - now (env st) >? maxAge then []
                else map strip_meta (rev ms)).
Proof.
  intros Hws Hq0 Hms Hh.
  destruct (wsjs_sends_offline ms st)
    as (st1 & Hrun1 & Hws1 & Hn1 & Hd1 & Hf1 & Hq1).
  { rewrite Hws. reflexivity. }
  { eapply Forall_impl; [exact Hms|]. intros m [Hm _]. exact Hm. }
  set (st2 := set_ws (Some (Socket OPEN o)) (wsjs_clock t1 st1)).
  destruct (wsjs_ws_onopen_eq o st2)
    as (st3 & Hrun3 & (Hws3 & Hn3 & Hd3 & Hq3 & Hf3) & _);
    [reflexivity
    | change (device (env st2)) with (device (env st1)); rewrite Hd1; exact Hh
    |].
  destruct (wsjs_pass st3) as (st' & Hrun & _ & _ & Hq & Hf).
  exists st'. split.
  { unfold bind at 1. rewrite Hrun1. unfold bind at 1. unfold modify at 1.
    unfold socket_opens. unfold bind at 1. unfold gets at 1.
    change (ws (wsjs_clock t1 st1)) with (ws st1). rewrite Hws1, Hws.
    unfold bind at 1. unfold modify at 1.
    fold st2. rewrite Hrun3. exact Hrun. }
  rewrite Hq, Hf, Hf3, Hq3, Hws3, Hn3. cbn [st2 ws env wsjs_clock set_ws
    set_env set_now now messageQueue trace device].
  rewrite Hq1, Hq0, Hf1, Hd1. cbn [app].
  rewrite <- app_assoc. cbn [app].
  destruct (t1 - now (env st) >? maxAge) eqn:E.
  - rewrite !filter_none; [split; reflexivity | |];
      apply Forall_map, Forall_forall; intros m _;
      unfold wsjs_stays, wsjs_sent, wsjs_expired; cbn; rewrite E; reflexivity.
  - rewrite filter_none, filter_all.
    + split; [reflexivity|]. do 2 f_equal.
      rewrite <- map_rev, map_map. reflexivity.
    + apply Forall_map. eapply Forall_impl; [exact Hms|].
      intros m [Hw Hs]. unfold wsjs_sent, wsjs_expired, can_send, wsjs_frame.
      cbn. rewrite E, well_formed_strip_meta, Hw, serializable_strip_meta; auto.
    + apply Forall_map. eapply Forall_impl; [exact Hms|].
      intros m [Hw Hs]. unfold wsjs_stays, wsjs_expired, can_send, wsjs_frame.
      cbn. rewrite E, well_formed_strip_meta, Hw, serializable_strip_meta; auto.
Qed.

Lemma wsjs_offline_then_open_witness :
  exists st',
    (wsjs_sends [msg_chat; msg_mark] ;; modify (wsjs_clock 1000) ;;
     socket_opens) (wsjs_connecting 0)
    = (Normal tt, st')
    /\ messageQueue st' = []
    /\ frames (trace (env st'))
       = [hello player_options sample_device; msg_mark; msg_chat].
Proof.
  destruct (wsjs_offline_then_open [msg_chat; msg_mark] 1000 player_options
              (wsjs_connecting 0))
    as (st' & Hrun & Hq & Hf);
    [reflexivity | reflexivity | repeat constructor | reflexivity |].
  exists st'. split; [exact Hrun|]. split; [exact Hq | exact Hf].
Defined.

End WebsocketJsOpen.

Section Part000Open.
Import Part000.

Ltac munfold :=
  unfold showNotification, log, Date_now, setTimeout, on_env,
    bind, ret, gets, get, modify, when, throw, try_catch in *.

Lemma p000_hello_well_formed (o : options) (fresh : string) (d : device_info) :
  well_formed (p000_hello o fresh d) = true.
Proof.
  unfold p000_hello. destruct (truthy (o_isAdmin o) && truthy (o_adminToken o));
    reflexivity.
Qed.

Lemma p000_startPingInterval_eq (st : state) :
  startPingInterval st
  = (Normal tt,
     set_pingInterval true
       (p000_emitted (SetInterval PING_INTERVAL)
          (if pingInterval st
           then set_pingInterval false (p000_emitted ClearInterval st)
           else st))).
Proof.
  unfold startPingInterval. unfold bind at 1.
  rewrite p000_stopPingInterval_eq. reflexivity.
Qed.

Lemma p000_sendHelloMessage_eq (o : options) (st : state) :
  sock_open (socket st) = true ->
  serializable (p000_hello o (fresh_player_id st) (device (env st))) = true ->
  sendHelloMessage o st
  = (Normal tt,
     p000_emitted
       (WsSend (p000_hello o (fresh_player_id st) (device (env st)))) st).
Proof.
  intros Ho Hs. unfold sendHelloMessage. unfold bind at 1. unfold get at 1.
  cbv zeta.
  change (JObject _) with
    (JObject [("type", JString "hello");
              ("playerId", if truthy (o_playerId o) then o_playerId o
                           else JString (fresh_player_id st));
              ("isAdmin", o_isAdmin o);
              ("deviceInfo", deviceInfo (device (env st)))]).
  fold (p000_hello o (fresh_player_id st) (device (env st))).
  unfold bind. rewrite p000_sendMessage_eq, p000_hello_well_formed, Ho, Hs.
  reflexivity.
Qed.

Lemma p000_reconnecting_same (st : state) :
  socket (p000_reconnecting st) = socket st
  /\ now (env (p000_reconnecting st)) = now (env st)
  /\ device (env (p000_reconnecting st)) = device (env st)
  /\ fresh_player_id (p000_reconnecting st) = fresh_player_id st
  /\ messageQueue (p000_reconnecting st) = messageQueue st
  /\ frames (trace (env (p000_reconnecting st))) = frames (trace (env st)).
Proof.
  unfold p000_reconnecting.
  destruct (_ >=? _); cbn;
    rewrite ?frames_app, ?listeners_trace_frames; cbn;
    rewrite ?app_nil_r; repeat split; reflexivity.
Qed.

Lemma p000_sends_offline (ms : list jsval) :
  forall st : state,
    sock_open (socket st) = false ->
    Forall (fun m => well_formed m = true) ms ->
    exists st',
      p000_sends ms st = (Normal tt, st')
      /\ socket st' = socket st
      /\ now (env st') = now (env st)
      /\ device (env st') = device (env st)
      /\ fresh_player_id st' = fresh_player_id st
      /\ frames (trace (env st')) = frames (trace (env st))
      /\ messageQueue st'
         = messageQueue st ++ map (fun m => Queued m (now (env st)) 0) ms.
Proof.
  induction ms as [|m ms IH]; intros st Ho Hw.
  - exists st. cbn. rewrite app_nil_r. repeat split; reflexivity.
  - apply Forall_cons in Hw. destruct Hw as [Hm Hw].
    assert (Hstep : exists st1,
               sendMessage m true st = (Normal false, st1)
               /\ socket st1 = socket st /\ now (env st1) = now (env st)
               /\ device (env st1) = device (env st)
               /\ fresh_player_id st1 = fresh_player_id st
               /\ frames (trace (env st1)) = frames (trace (env st))
               /\ messageQueue st1
                  = messageQueue st ++ [Queued m (now (env st)) 0]).
    { rewrite p000_sendMessage_eq, Hm, Ho. eexists. split; [reflexivity|].
      cbv zeta.
      destruct (negb _); [|cbn; repeat split; reflexivity].
      destruct (p000_reconnecting_same (p000_enqueued m st))
        as (H1 & H2 & H3 & H4 & H5 & H6).
      rewrite H1, H2, H3, H4, H5, H6. repeat split; reflexivity. }
    destruct Hstep as (st1 & Hrun & Hws & Hn & Hd & Hfr & Hf & Hq).
    destruct (IH st1) as (st' & Hrun' & Hws' & Hn' & Hd' & Hfr' & Hf' & Hq');
      [rewrite Hws; exact Ho | exact Hw |].
    exists st'. split.
    { unfold p000_sends in *. cbn [forEach]. unfold bind at 1.
      unfold bind at 1. rewrite Hrun. exact Hrun'. }
    split; [congruence|]. split; [congruence|]. split; [congruence|].
    split; [congruence|]. split; [congruence|].
    rewrite Hq', Hq, Hn, <- app_assoc. reflexivity.
Qed.

Lemma p000_socket_onopen_eq (o : options) (st : state) :
  sock_open (socket st) = true ->
  serializable (p000_hello o (fresh_player_id st) (device (env st))) = true ->
  exists st1,
    socket_onopen o st = processMessageQueue st1
    /\ p000_sent_more st
         [p000_hello o (fresh_player_id st) (device (env st))] st1.
Proof.
  intros Ho Hs. unfold socket_onopen.
  unfold bind at 1. unfold modify at 1.
  unfold bind at 1. unfold modify at 1.
  unfold bind at 1. unfold modify at 1.
  unfold bind at 1. rewrite p000_updateConnectionStatus_eq.
  unfold bind at 1. rewrite p000_triggerEvent_eq.
  unfold bind at 1. rewrite p000_startPingInterval_eq.
  unfold bind at 1. rewrite p000_sendHelloMessage_eq.
  - eexists. split; [reflexivity|].
    unfold p000_sent_more. cbn -[p000_hello].
    destruct (pingInterval st); cbn -[p000_hello];
      rewrite !frames_app, ?listeners_trace_frames; cbn -[p000_hello];
      rewrite ?frames_app, ?listeners_trace_frames; cbn -[p000_hello];
      rewrite ?app_nil_r; repeat split; reflexivity.
  - cbn. destruct (pingInterval st); exact Ho.
  - cbn -[p000_hello]. destruct (pingInterval st); exact Hs.
Qed.

(** X5. src/unnamed/part_000: messages sent while the socket is still
    connecting are queued, and the open event hands them to the
    transport after the hello message, in the order they were sent, each
    carrying the [_timestamp] and [_retryCount] fields of the queue; when
    more than five minutes have passed since they were sent, none is
    handed over.  Either way the queue is empty afterwards. *)
Theorem p000_offline_then_open (ms : list jsval) (t1 : Z) (o : options)
    (st : state) :
  socket st = Some (Socket CONNECTING o) ->
  messageQueue st = [] ->
  Forall (fun m => well_formed m = true /\ serializable m = true) ms ->
  serializable (p000_hello o (fresh_player_id st) (device (env st))) = true ->
  exists st',
    (p000_sends ms ;; modify (p000_clock t1) ;; socket_opens) st
    = (Normal tt, st')
    /\ messageQueue st' = []
    /\ frames (trace (env st'))
       = frames (trace (env st))
         ++ p000_hello o (fresh_player_id st) (device (env st))
            :: (if t1 - now (env st) >? 300000 then []
                else map (fun m => with_meta (Queued m (now (env st)) 0)) ms).
Proof.
  intros Hws Hq0 Hms Hh.
  destruct (p000_sends_offline ms st)
    as (st1 & Hrun1 & Hws1 & Hn1 & Hd1 & Hfr1 & Hf1 & Hq1).
  { rewrite Hws. reflexivity. }
  { eapply Forall_impl; [exact Hms|]. intros m [Hm _]. exact Hm. }
  set (st2 := set_socket (Some (Socket OPEN o)) (p000_clock t1 st1)).
  destruct (p000_socket_onopen_eq o st2)
    as (st3 & Hrun3 & (Hws3 & Hn3 & Hd3 & Hfr3 & Hq3 & Hf3)).
  { reflexivity. }
  { change (device (env st2)) with (device (env st1)).
    change (fresh_player_id st2) with (fresh_player_id st1).
    rewrite Hd1, Hfr1. exact Hh. }
  destruct (p000_pass_run st3) as (st' & sent & Hrun & _ & _ & Hf & Hp).
  assert (Hsent : sent = (if t1 - now (env st) >? 300000 then []
                          else map (fun m => with_meta (Queued m (now (env st)) 0)) ms)
                  /\ messageQueue st' = []).
  { rewrite Hq3, Hws3, Hn3 in Hp.
    cbn [st2 socket env p000_clock set_socket set_env set_now now
         messageQueue] in Hp.
    rewrite Hq1, Hq0 in Hp. cbn [app] in Hp.
    destruct (t1 - now (env st) >? 300000) eqn:E.
    - apply p000_pass_none in Hp; [exact Hp|].
      apply Forall_map, Forall_forall. intros m _.
      unfold p000_live. cbn. rewrite E. reflexivity.
    - apply p000_pass_all in Hp; [rewrite map_map in Hp; exact Hp|].
      apply Forall_map. eapply Forall_impl; [exact Hms|].
      intros m [Hw Hs]. unfold p000_live, can_send. cbn [q_timestamp q_retryCount].
      rewrite E, well_formed_with_meta, serializable_with_meta; cbn; auto.
      rewrite Hw. auto. }
  destruct Hsent as [-> Hq].
  exists st'. split.
  { unfold bind at 1. rewrite Hrun1. unfold bind at 1. unfold modify at 1.
    unfold socket_opens. unfold bind at 1. unfold gets at 1.
    change (socket (p000_clock t1 st1)) with (socket st1). rewrite Hws1, Hws.
    unfold bind at 1. unfold modify at 1.
    fold st2. rewrite Hrun3. exact Hrun. }
  split; [exact Hq|].
  rewrite Hf, Hf3.
  cbn [st2 socket env p000_clock set_socket set_env set_now now
       messageQueue trace device fresh_player_id].
  rewrite Hf1, Hd1, Hfr1, <- app_assoc. reflexivity.
Qed.

Lemma p000_offline_then_open_witness :
  exists st',
    (p000_sends [msg_chat; msg_mark] ;; modify (p000_clock 1000) ;;
     socket_opens) (p000_connecting 0)
    = (Normal tt, st')
    /\ messageQueue st' = []
    /\ frames (trace (env st'))
       = [p000_hello player_options "player_x" sample_device;
          with_meta (Queued msg_chat 0 0); with_meta (Queued msg_mark 0 0)].
Proof.
  destruct (p000_offline_then_open [msg_chat; msg_mark] 1000 player_options
              (p000_connecting 0))
    as (st' & Hrun & Hq & Hf);
    [reflexivity | reflexivity | repeat constructor | reflexivity |].
  exists st'. split; [exact Hrun|]. split; [exact Hq | exact Hf].
Defined.

End Part000Open.

(** ** Properties of both modules *)

(** X1. [processMessageQueue] of src/websocket.js and of
    src/unnamed/part_000: when every entry of the queue is older than five
    minutes, the pass hands nothing to the transport and leaves the queue
    empty, whatever the state of the socket and the retry counts are. *)
Theorem queue_expiry (sw : WebsocketJs.state) (sp : Part000.state) :
  Forall (fun x => now (WebsocketJs.env sw) - q_timestamp x > 300000)
         (WebsocketJs.messageQueue sw) ->
  Forall (fun x => now (Part000.env sp) - q_timestamp x > 300000)
         (Part000.messageQueue sp) ->
  (exists sw',
     WebsocketJs.processMessageQueue sw = (Normal tt, sw')
     /\ WebsocketJs.messageQueue sw' = []
     /\ frames (trace (WebsocketJs.env sw'))
        = frames (trace (WebsocketJs.env sw)))
  /\ (exists sp',
        Part000.processMessageQueue sp = (Normal tt, sp')
        /\ Part000.messageQueue sp' = []
        /\ frames (trace (Part000.env sp'))
           = frames (trace (Part000.env sp))).
Proof.
  intros Hw Hp. split.
  - destruct (wsjs_pass sw) as (sw' & Hrun & _ & _ & Hq & Hf).
    exists sw'. split; [exact Hrun|].
    rewrite Hq, Hf, !filter_none; [split; [reflexivity | apply app_nil_r] | |];
      (eapply Forall_impl; [exact Hw|]); intros x Hx; cbn in Hx;
      unfold wsjs_sent, wsjs_stays, wsjs_expired, WebsocketJs.maxAge;
      replace (_ - _ >? _) with true by (symmetry; apply Z.gtb_lt; lia);
      reflexivity.
  - destruct (p000_pass_run sp) as (sp' & sent & Hrun & _ & _ & Hf & Hpass).
    apply p000_pass_none in Hpass.
    + destruct Hpass as [-> Hq]. exists sp'.
      rewrite app_nil_r in Hf. auto.
    + eapply Forall_impl; [exact Hp|]. intros x Hx. cbn in Hx.
      unfold p000_live. apply andb_false_iff. right.
      apply negb_false_iff, Z.gtb_lt. lia.
Qed.

Lemma queue_expiry_witness :
  (exists sw',
     WebsocketJs.processMessageQueue
       (wsjs_open 0 300001 [Queued msg_chat 0 0; Queued msg_mark 0 1])
     = (Normal tt, sw')
     /\ WebsocketJs.messageQueue sw' = []
     /\ frames (trace (WebsocketJs.env sw')) = [])
  /\ (exists sp',
        Part000.processMessageQueue
          (p000_open 300001 [Queued msg_chat 0 0; Queued msg_mark 0 1])
        = (Normal tt, sp')
        /\ Part000.messageQueue sp' = []
        /\ frames (trace (Part000.env sp')) = []).
Proof.
  apply (queue_expiry
           (wsjs_open 0 300001 [Queued msg_chat 0 0; Queued msg_mark 0 1])
           (p000_open 300001 [Queued msg_chat 0 0; Queued msg_mark 0 1]));
    repeat constructor.
Defined.

(** X6. src/websocket.js, over any sequence of calls of the page, socket
    events, timers and server pings: the attempt counter stays between 0
    and 5, the give-up branch of [attemptReconnection] (counter above 5,
    notice 'Cannot reconnect to server') is never taken, since each of
    its three call sites tests the counter first, and every timeout set or
    pending is a reconnection 3, 6, 12, 24 or 48 seconds ahead. *)
Theorem wsjs_reconnection_bounded (l : list wsjs_input)
    (st : WebsocketJs.state) :
  wsjs_inv st ->
  exists st',
    forEach wsjs_handle l st = (Normal tt, st')
    /\ 0 <= WebsocketJs.reconnectAttempts st' <= 5
    /\ ~ In N_cannot_reconnect (notices (trace (WebsocketJs.env st')))
    /\ Forall wsjs_timer_ok (timeouts (WebsocketJs.env st'))
    /\ Forall (fun d => In d wsjs_delays)
              (delays (trace (WebsocketJs.env st'))).
Proof.
  intros H. exists (exec (forEach wsjs_handle l) st).
  split; [apply wsjs_run_returns|].
  destruct (wsjs_run_inv l st H) as (Ha & Hn & Ht & Hd & _). auto.
Qed.

Lemma wsjs_reconnection_bounded_witness :
  exists st',
    forEach wsjs_handle
      [W_sendMessage msg_chat true; W_timer_fires 0; W_socket_closes 1006;
       W_timer_fires 0; W_socket_closes 1006]
      (wsjs_loaded 0)
    = (Normal tt, st')
    /\ 0 <= WebsocketJs.reconnectAttempts st' <= 5
    /\ ~ In N_cannot_reconnect (notices (trace (WebsocketJs.env st')))
    /\ Forall wsjs_timer_ok (timeouts (WebsocketJs.env st'))
    /\ Forall (fun d => In d wsjs_delays)
              (delays (trace (WebsocketJs.env st'))).
Proof.
  apply (wsjs_reconnection_bounded _ (wsjs_loaded 0)).
  unfold wsjs_inv. cbn. repeat split; auto; try lia; constructor.
Defined.

(** X7. src/unnamed/part_000, over any sequence of calls of the page,
    socket events, timers and server pings: the attempt counter stays
    between 0 and 5, the index of the server in use stays at 0 (the list
    of servers has one entry, so neither the error handler nor a failed
    connection ever moves to a backup), and every timeout set or pending
    is a reconnection 2, 4, 8, 16 or 30 seconds ahead. *)
Theorem p000_reconnection_bounded (l : list p000_input)
    (st : Part000.state) :
  p000_inv st ->
  exists st',
    forEach p000_handle l st = (Normal tt, st')
    /\ 0 <= Part000.reconnectAttempts st' <= 5
    /\ Part000.currentWSIndex st' = 0
    /\ Forall p000_timer_ok (timeouts (Part000.env st'))
    /\ Forall (fun d => In d p000_delays) (delays (trace (Part000.env st'))).
Proof.
  intros H. exists (exec (forEach p000_handle l) st).
  split; [apply p000_run_returns|].
  destruct (p000_run_inv l st H) as (Ha & Hi & Ht & Hd & _). auto.
Qed.

Lemma p000_reconnection_bounded_witness :
  exists st',
    forEach p000_handle
      [P_connectWebSocket player_options; P_socket_errors;
       P_socket_closes 1006; P_timer_fires 0]
      (p000_loaded 0)
    = (Normal tt, st')
    /\ 0 <= Part000.reconnectAttempts st' <= 5
    /\ Part000.currentWSIndex st' = 0
    /\ Forall p000_timer_ok (timeouts (Part000.env st'))
    /\ Forall (fun d => In d p000_delays) (delays (trace (Part000.env st'))).
Proof.
  apply (p000_reconnection_bounded _ (p000_loaded 0)).
  unfold p000_inv. cbn. repeat split; auto; try lia; constructor.
Defined.

(** X8. src/websocket.js and src/unnamed/part_000, over any sequence of
    events: at most one heartbeat interval is running, and it is running
    exactly when [pingInterval] holds a handle ([startPingInterval]
    clears the interval it replaces, [stopPingInterval] forgets the handle
    it clears). *)
Theorem heartbeat_single_interval (lw : list wsjs_input)
    (lp : list p000_input) (sw : WebsocketJs.state) (sp : Part000.state) :
  wsjs_inv sw ->
  p000_inv sp ->
  let sw' := exec (forEach wsjs_handle lw) sw in
  let sp' := exec (forEach p000_handle lp) sp in
  live_intervals (trace (WebsocketJs.env sw'))
  = (if WebsocketJs.pingInterval sw' then 1 else 0)
  /\ live_intervals (trace (Part000.env sp'))
     = (if Part000.pingInterval sp' then 1 else 0).
Proof.
  intros Hw Hp. cbv zeta. split.
  - destruct (wsjs_run_inv lw sw Hw) as (_ & _ & _ & _ & Hb & _). exact Hb.
  - destruct (p000_run_inv lp sp Hp) as (_ & _ & _ & _ & Hb & _). exact Hb.
Qed.

Lemma heartbeat_single_interval_witness :
  let sw' :=
    exec (forEach wsjs_handle
            [W_initWebSocket player_options; W_socket_opens; W_stale_onopen player_options;
             W_reconnect; W_socket_closes 1006])
         (wsjs_loaded 0) in
  let sp' :=
    exec (forEach p000_handle
            [P_connectWebSocket player_options; P_socket_opens;
             P_stale_onopen player_options])
         (p000_loaded 0) in
  live_intervals (trace (WebsocketJs.env sw'))
  = (if WebsocketJs.pingInterval sw' then 1 else 0)
  /\ live_intervals (trace (Part000.env sp'))
     = (if Part000.pingInterval sp' then 1 else 0).
Proof.
  apply (heartbeat_single_interval _ _ (wsjs_loaded 0) (p000_loaded 0)).
  - unfold wsjs_inv. cbn. repeat split; auto; try lia; constructor.
  - unfold p000_inv. cbn. repeat split; auto; try lia; constructor.
Defined.



(** X10. The outbound queues over any sequence of events: every entry is
    a message that passed the two checks of [sendMessage], and its retry
    count lies between 0 and 3 in src/websocket.js (a pass removes the
    entry whose count it takes above 3) and between 0 and 4 in
    src/unnamed/part_000 (a pass puts the entry back with the count at 4
    and only the next pass drops it). *)
Theorem queue_entries_bounded (lw : list wsjs_input) (lp : list p000_input)
    (sw : WebsocketJs.state) (sp : Part000.state) :
  wsjs_queue_inv sw ->
  p000_queue_inv sp ->
  Forall (fun x => 0 <= q_retryCount x <= 3 /\ well_formed (q_msg x) = true)
    (WebsocketJs.messageQueue (exec (forEach wsjs_handle lw) sw))
  /\ Forall (fun x => 0 <= q_retryCount x <= 4 /\ well_formed (q_msg x) = true)
       (Part000.messageQueue (exec (forEach p000_handle lp) sp)).
Proof.
  intros Hw Hp. split.
  - apply (wsjs_run_queue_inv lw sw Hw).
  - apply (p000_run_queue_inv lp sp Hp).
Qed.

Lemma queue_entries_bounded_witness :
  Forall (fun x => 0 <= q_retryCount x <= 3 /\ well_formed (q_msg x) = true)
    (WebsocketJs.messageQueue
       (exec (forEach wsjs_handle
                [W_sendMessage msg_win true; W_stale_onopen player_options])
             (wsjs_loaded 0)))
  /\ Forall (fun x => 0 <= q_retryCount x <= 4 /\ well_formed (q_msg x) = true)
       (Part000.messageQueue
          (exec (forEach p000_handle
                   [P_sendMessage msg_win true; P_stale_onopen player_options])
                (p000_loaded 0))).
Proof.
  apply (queue_entries_bounded _ _ (wsjs_loaded 0) (p000_loaded 0));
    constructor.
Defined.

(** X17. src/admin.js, over any sequence of events: the give-up branch of
    [attemptReconnect] is never taken, every timeout set or pending is a
    reconnection 3000 ms ahead, and no interval is ever cleared. *)
Theorem admin_events (l : list admin_input) (st : AdminJs.state) :
  admin_inv st ->
  let st' := exec (forEach admin_handle l) st in
  ~ In N_cannot_reconnect (notices (trace (AdminJs.env st')))
  /\ Forall (fun t => t = Timer 3000 ReconnectTimer)
            (timeouts (AdminJs.env st'))
  /\ Forall (fun d => d = 3000) (delays (trace (AdminJs.env st')))
  /\ ~ In ClearInterval (trace (AdminJs.env st')).
Proof.
  intros H. apply (admin_run_inv l st H).
Qed.

Lemma admin_events_witness :
  let st' :=
    exec (forEach admin_handle
            [A_socket_closes 1006; A_timer_fires 0; A_socket_opens;
             A_socket_closes 1006])
         (admin_open 0) in
  ~ In N_cannot_reconnect (notices (trace (AdminJs.env st')))
  /\ Forall (fun t => t = Timer 3000 ReconnectTimer)
            (timeouts (AdminJs.env st'))
  /\ Forall (fun d => d = 3000) (delays (trace (AdminJs.env st')))
  /\ ~ In ClearInterval (trace (AdminJs.env st')).
Proof.
  apply (admin_events _ (admin_open 0)).
  unfold admin_inv. cbn. repeat split; auto; constructor.
Defined.

(** ** Removing a listener *)

Lemma remove_first_app (id : nat) (l r : list callback) :
  Forall (fun c => cb_id c <> id) l ->
  WebsocketJs.remove_first id (l ++ r) = l ++ WebsocketJs.remove_first id r.
Proof.
  induction 1 as [|c l Hc Hl IH]; [reflexivity|].
  cbn. destruct (Nat.eqb_spec (cb_id c) id); [contradiction|].
  rewrite IH. reflexivity.
Qed.

Lemma wsjs_removeEventListener_listeners (ev : string) (cb : callback)
    (st : WebsocketJs.state) :
  listeners_of
    (WebsocketJs.eventListeners (exec (WebsocketJs.removeEventListener ev cb) st))
    ev
  = WebsocketJs.remove_first (cb_id cb)
      (listeners_of (WebsocketJs.eventListeners st) ev).
Proof.
  unfold listeners_of. cbn. rewrite lookup_alter_eq.
  destruct (WebsocketJs.eventListeners st !! ev); reflexivity.
Qed.

Lemma p000_removeEventListener_listeners (ev : string) (cb : callback)
    (st : Part000.state) :
  listeners_of
    (Part000.eventListeners (exec (Part000.removeEventListener ev cb) st)) ev
  = List.filter (fun c => negb (Nat.eqb (cb_id c) (cb_id cb)))
      (listeners_of (Part000.eventListeners st) ev).
Proof.
  unfold listeners_of. cbn. rewrite lookup_alter_eq.
  destruct (Part000.eventListeners st !! ev); reflexivity.
Qed.

(** X15. [removeEventListener] after a callback has been registered
    [n + 1] times for an event: src/websocket.js takes out one
    registration ([indexOf] and [splice]), so the callback is still
    registered [n] times; src/unnamed/part_000 takes out every
    registration of the callback ([filter]), the earlier ones included.
    For part_000 the event is one the table already has an entry for. *)
Theorem listener_removal (ev : string) (cb : callback) (n : nat)
    (sw : WebsocketJs.state) (sp : Part000.state) :
  Forall (fun c => cb_id c <> cb_id cb)
         (listeners_of (WebsocketJs.eventListeners sw) ev) ->
  is_Some (Part000.eventListeners sp !! ev) ->
  let sw' :=
    exec (forEach (WebsocketJs.addEventListener ev) (repeat cb (S n)) ;;
          WebsocketJs.removeEventListener ev cb) sw in
  let sp' :=
    exec (forEach (Part000.addEventListener ev) (repeat cb (S n)) ;;
          Part000.removeEventListener ev cb) sp in
  listeners_of (WebsocketJs.eventListeners sw') ev
  = listeners_of (WebsocketJs.eventListeners sw) ev ++ repeat cb n
  /\ listeners_of (Part000.eventListeners sp') ev
     = List.filter (fun c => negb (Nat.eqb (cb_id c) (cb_id cb)))
         (listeners_of (Part000.eventListeners sp) ev).
Proof.
  intros Hw _. cbv zeta. split.
  - destruct (wsjs_register_all ev (repeat cb (S n)) sw) as (s1 & Hrun & _ & Hl).
    unfold exec, bind. rewrite Hrun.
    change (snd (WebsocketJs.removeEventListener ev cb s1))
      with (exec (WebsocketJs.removeEventListener ev cb) s1).
    rewrite wsjs_removeEventListener_listeners, Hl, remove_first_app by exact Hw.
    cbn. rewrite Nat.eqb_refl. reflexivity.
  - destruct (p000_register_all ev (repeat cb (S n)) sp) as (s1 & Hrun & _ & Hl).
    unfold exec, bind. rewrite Hrun.
    change (snd (Part000.removeEventListener ev cb s1))
      with (exec (Part000.removeEventListener ev cb) s1).
    rewrite p000_removeEventListener_listeners, Hl, List.filter_app.
    rewrite (filter_none _ (repeat cb (S n))); [apply app_nil_r|].
    apply Forall_forall. intros c Hc. apply list_elem_of_In, repeat_spec in Hc.
    subst c. rewrite Nat.eqb_refl. reflexivity.
Qed.

Lemma listener_removal_witness :
  let cb := Callback 7 (fun _ => false) in
  let sw' :=
    exec (forEach (WebsocketJs.addEventListener "onopen") (repeat cb 3) ;;
          WebsocketJs.removeEventListener "onopen" cb) (wsjs_loaded 0) in
  let sp' :=
    exec (forEach (Part000.addEventListener "onopen") (repeat cb 3) ;;
          Part000.removeEventListener "onopen" cb) (p000_loaded 0) in
  listeners_of (WebsocketJs.eventListeners sw') "onopen" = [cb; cb]
  /\ listeners_of (Part000.eventListeners sp') "onopen" = [].
Proof.
  intros cb.
  apply (listener_removal "onopen" cb 2 (wsjs_loaded 0) (p000_loaded 0)).
  - constructor.
  - exists []. reflexivity.
Defined.

(** ** A reconnection timeout that fires while the connection is open *)

Section Part000Churn.
Import Part000.

Ltac munfold :=
  unfold showNotification, log, Date_now, setTimeout, on_env,
    bind, ret, gets, get, modify, when, throw, try_catch in *.
















End Part000Churn.

(** ** src/websocket.js: the close event of a socket that has been replaced *)

Section WebsocketJsStale.
Import WebsocketJs.

Ltac munfold :=
  unfold showNotification, log, Date_now, setTimeout, on_env,
    bind, ret, gets, get, modify, when, throw, try_catch in *.

(** [initWebSocket] on a socket that is held and not open. *)
Lemma wsjs_initWebSocket_replace (o : options) (st : state) :
  ws st <> None ->
  sock_open (ws st) = false ->
  url_valid (env st) = true ->
  exists st',
    initWebSocket o st = (Normal true, st')
    /\ ws st' = Some (Socket CONNECTING o)
    /\ messageQueue st' = messageQueue st
    /\ now (env st') = now (env st)
    /\ device (env st') = device (env st)
    /\ timeouts (env st') = timeouts (env st)
    /\ url_valid (env st') = true
    /\ trace (env st') = trace (env st) ++ [WsClose None; WsNew].
Proof.
  intros Hs Ho Hu. unfold initWebSocket, newWebSocket, ws_close. munfold.
  rewrite Ho. destruct (ws st) as [[r o1]|] eqn:E; [|congruence].
  cbn. rewrite !E.
  destruct r; try discriminate; cbn; rewrite Hu; cbn;
    (eexists; split; [reflexivity|]); cbn; rewrite <- app_assoc;
    repeat split; auto.
Qed.

Lemma wsjs_ws_onclose_more (code : Z) (st : state) :
  let retry := negb (code =? 1000) && negb (code =? 1001)
               && (reconnectAttempts st <? MAX_RECONNECT_ATTEMPTS) in
  exists st',
    ws_onclose code st = (Normal tt, st')
    /\ ws st' = None
    /\ connected st' = false
    /\ messageQueue st' = messageQueue st
    /\ now (env st') = now (env st)
    /\ device (env st') = device (env st)
    /\ frames (trace (env st')) = frames (trace (env st))
    /\ closes (trace (env st')) = closes (trace (env st))
    /\ timeouts (env st')
       = timeouts (env st)
         ++ (if retry
             then [Timer (backoff (reconnectAttempts st + 1)) ReconnectTimer]
             else []).
Proof.
  intros retry. subst retry.
  unfold ws_onclose, stopPingInterval. munfold.
  cbn -[attemptReconnection triggerEvent].
  destruct (pingInterval st); cbn -[attemptReconnection triggerEvent];
    (destruct (negb (code =? 1000) && negb (code =? 1001)
               && (reconnectAttempts st <? MAX_RECONNECT_ATTEMPTS)) eqn:Hretry;
     [ apply andb_prop in Hretry as [_ Hn]; apply wsjs_below_ceiling in Hn;
       rewrite wsjs_attemptReconnection_eq; unfold wsjs_reconnecting;
       cbn -[triggerEvent]; rewrite Hn; cbn -[triggerEvent]
     | cbn -[triggerEvent] ];
     rewrite wsjs_triggerEvent_eq; eexists; (split; [reflexivity|]);
     cbn; rewrite ?frames_app, ?closes_app, ?listeners_trace_frames,
       ?listeners_trace_closes; cbn;
     rewrite ?frames_app, ?closes_app; cbn;
     rewrite ?app_nil_r, <- ?app_assoc; repeat split; reflexivity).
Qed.

(** With [connectionStatus.connected] set, [sendMessage] on a socket that
    is not open queues and starts nothing. *)
Lemma wsjs_sendMessage_stranded (m : jsval) (q : bool) (st : state) :
  sock_open (ws st) = false ->
  connected st = true ->
  sendMessage m q st
  = (Normal false,
     if well_formed m && q then wsjs_enqueued m st else st).
Proof.
  intros Ho Hc. rewrite wsjs_sendMessage_eq, Ho.
  destruct (well_formed m); [|reflexivity].
  destruct q; cbn; rewrite Hc; reflexivity.
Qed.

Lemma wsjs_processMessageQueue_stranded (ts : list timer)
    (cl : list (option Z)) :
  keeps (fun st => sock_open (ws st) = false /\ connected st = true
                   /\ timeouts (env st) = ts
                   /\ closes (trace (env st)) = cl)
        processMessageQueue.
Proof.
  set (I := fun st => sock_open (ws st) = false /\ connected st = true
                      /\ timeouts (env st) = ts
                      /\ closes (trace (env st)) = cl).
  assert (Hsend : forall m, keeps I (sendMessage m false)).
  { intros m st (Ho & Hc & Ht & Hcl).
    rewrite wsjs_sendMessage_stranded by assumption.
    rewrite andb_false_r. unfold I. auto. }
  assert (Hdrain : forall t0 k, keeps I (drain_from t0 k)).
  { intros t0 k. induction k as [|k IH]; [apply keeps_ret|].
    cbn [drain_from]. apply keeps_bind; [|intros _; exact IH].
    unfold drain_at, splice.
    repeat first
      [ apply Hsend
      | keeps_step
      | match goal with
        | |- keeps _ (modify _) => apply keeps_modify; intros ? ?; assumption
        end ]. }
  unfold processMessageQueue, Date_now.
  repeat first [ apply Hdrain | keeps_step ].
Qed.

(** [ws.onopen] of a socket the module no longer holds. *)
Lemma wsjs_ws_onopen_stranded (o : options) (st : state) :
  ws st = None ->
  messageQueue st = [] ->
  exists st',
    ws_onopen o st = (Normal tt, st')
    /\ ws st' = None
    /\ connected st' = true
    /\ timeouts (env st') = timeouts (env st)
    /\ now (env st') = now (env st)
    /\ frames (trace (env st')) = frames (trace (env st))
    /\ closes (trace (env st')) = closes (trace (env st))
    /\ messageQueue st'
       = [Queued (hello o (device (env st))) (now (env st)) 1].
Proof.
  intros Hws Hq.
  assert (Hw : forall d, well_formed (hello o d) = true) by reflexivity.
  assert (H1 : exists st1,
             ws_onopen o st = processMessageQueue st1
             /\ ws st1 = None /\ connected st1 = true
             /\ timeouts (env st1) = timeouts (env st)
             /\ now (env st1) = now (env st)
             /\ frames (trace (env st1)) = frames (trace (env st))
             /\ closes (trace (env st1)) = closes (trace (env st))
             /\ messageQueue st1
                = [Queued (hello o (device (env st))) (now (env st)) 0]).
  { unfold ws_onopen, startPingInterval, stopPingInterval. munfold.
    cbn -[sendMessage triggerEvent processMessageQueue hello].
    destruct (pingInterval st);
      cbn -[sendMessage triggerEvent processMessageQueue hello];
      rewrite wsjs_sendMessage_stranded, Hw
        by (cbn; rewrite ?Hws; reflexivity);
      cbn -[sendMessage triggerEvent processMessageQueue hello];
      rewrite wsjs_triggerEvent_eq;
      eexists; (split; [reflexivity|]);
      cbn -[hello]; rewrite Hq;
      rewrite ?frames_app, ?closes_app, ?listeners_trace_frames,
        ?listeners_trace_closes; cbn -[hello];
      rewrite ?frames_app, ?closes_app; cbn -[hello];
      rewrite ?app_nil_r; repeat split; auto. }
  destruct H1 as (st1 & Hrun1 & Hws1 & Hc1 & Ht1 & Hn1 & Hf1 & Hcl1 & Hq1).
  destruct (wsjs_pass st1) as (st' & Hrun & Hws' & Hn' & Hq' & Hf').
  pose proof (wsjs_processMessageQueue_stranded (timeouts (env st1))
                (closes (trace (env st1))) st1) as Hk.
  rewrite Hrun in Hk. cbn [snd] in Hk.
  destruct Hk as (_ & Hc' & Ht' & Hcl'); [rewrite Hws1; auto|].
  exists st'. split; [rewrite Hrun1; exact Hrun|].
  split; [congruence|]. split; [exact Hc'|]. split; [congruence|].
  split; [congruence|].
  rewrite Hq1, Hws1, Hn1 in Hq', Hf'.
  assert (Hcan : can_send None (wsjs_frame
                   (Queued (hello o (device (env st))) (now (env st)) 0))
                 = false).
  { unfold can_send. rewrite andb_false_r. reflexivity. }
  assert (Hexp : wsjs_expired (now (env st))
                   (Queued (hello o (device (env st))) (now (env st)) 0)
                 = false).
  { unfold wsjs_expired. cbn [q_timestamp]. rewrite Z.sub_diag. reflexivity. }
  cbn [List.filter] in Hq', Hf'.
  unfold wsjs_stays, wsjs_sent in Hq', Hf'.
  rewrite Hcan, Hexp in Hq', Hf'. cbn in Hq', Hf'.
  rewrite app_nil_r in Hf'.
  split; [congruence|]. split; [congruence | exact Hq'].
Qed.

(** X13. src/websocket.js: [ws.onclose] sets [ws] to [null] whichever
    socket the event comes from.  When [initWebSocket] replaces a socket
    that is held and not open, and the close event of the replaced socket
    arrives before the new socket opens, the module lets go of the new
    socket: [ws.onopen] of the new socket then finds no socket, so the
    hello message is queued instead of sent (one retry counted by the
    drain pass that follows), while [connectionStatus.connected] is set.
    In that state [reconnect()] returns true and does nothing, and
    [sendMessage] queues without starting a reconnection. *)
Theorem wsjs_stale_close (o : options) (code : Z) (st : state) :
  ws st <> None ->
  sock_open (ws st) = false ->
  url_valid (env st) = true ->
  messageQueue st = [] ->
  exists st',
    (initWebSocket o ;; ws_onclose code ;; ws_onopen o) st = (Normal tt, st')
    /\ closes (trace (env st')) = closes (trace (env st)) ++ [None]
    /\ frames (trace (env st')) = frames (trace (env st))
    /\ ws st' = None
    /\ connected st' = true
    /\ messageQueue st'
       = [Queued (hello o (device (env st))) (now (env st)) 1]
    /\ reconnect st' = (Normal true, st')
    /\ forall m, well_formed m = true ->
         sendMessage m true st' = (Normal false, wsjs_enqueued m st').
Proof.
  intros Hs Ho Hu Hq.
  destruct (wsjs_initWebSocket_replace o st Hs Ho Hu)
    as (s1 & Hrun1 & Hws1 & Hq1 & Hn1 & Hd1 & Ht1 & Hu1 & Htr1).
  destruct (wsjs_ws_onclose_more code s1)
    as (s2 & Hrun2 & Hws2 & Hc2 & Hq2 & Hn2 & Hd2 & Hf2 & Hcl2 & Ht2).
  destruct (wsjs_ws_onopen_stranded o s2)
    as (s3 & Hrun3 & Hws3 & Hc3 & Ht3 & Hn3 & Hf3 & Hcl3 & Hq3);
    [exact Hws2 | congruence |].
  exists s3. split.
  { unfold bind at 1. rewrite Hrun1. unfold bind at 1. rewrite Hrun2.
    exact Hrun3. }
  split.
  { rewrite Hcl3, Hcl2, Htr1, closes_app. reflexivity. }
  split.
  { rewrite Hf3, Hf2, Htr1, frames_app. apply app_nil_r. }
  split; [exact Hws3|]. split; [exact Hc3|].
  split; [rewrite Hq3, Hd2, Hd1, Hn2, Hn1; reflexivity|].
  split.
  - unfold reconnect, bind, gets. rewrite Hc3. reflexivity.
  - intros m Hm. rewrite wsjs_sendMessage_stranded, Hm;
      [reflexivity | rewrite Hws3; reflexivity | exact Hc3].
Qed.

Lemma wsjs_stale_close_witness :
  exists st',
    (initWebSocket player_options ;; ws_onclose 1006 ;;
     ws_onopen player_options) (wsjs_connecting 0)
    = (Normal tt, st')
    /\ closes (trace (env st')) = [None]
    /\ frames (trace (env st')) = []
    /\ ws st' = None
    /\ connected st' = true
    /\ messageQueue st' = [Queued (hello player_options sample_device) 0 1].
Proof.
  destruct (wsjs_stale_close player_options 1006 (wsjs_connecting 0))
    as (st' & Hrun & Hcl & Hf & Hws & Hc & Hq & _);
    [discriminate | reflexivity | reflexivity | reflexivity |].
  exists st'. repeat split; assumption.
Defined.

Lemma p000_connectWebSocket_pending (o : options) (st : Part000.state) :
  sock_open (Part000.socket st) = false ->
  url_valid (Part000.env st) = true ->
  exists st',
    Part000.connectWebSocket o st = (Normal true, st')
    /\ Part000.socket st' = Some (Socket CONNECTING o)
    /\ closes (trace (Part000.env st')) = closes (trace (Part000.env st))
    /\ timeouts (Part000.env st') = timeouts (Part000.env st).
Proof.
  intros Hso Hurl. unfold Part000.connectWebSocket.
  unfold bind at 1. unfold gets at 1. rewrite Hso.
  unfold when. unfold bind at 1. unfold ret at 1.
  unfold try_catch. unfold bind at 1.
  rewrite p000_updateConnectionStatus_eq.
  unfold Part000.newWebSocket, Part000.log, Part000.on_env.
  unfold bind, gets, modify, ret. cbn. rewrite Hurl. cbn.
  eexists. split; [reflexivity|]. cbn.
  rewrite !closes_app, listeners_trace_closes. cbn. rewrite !app_nil_r.
  repeat split; auto.
Qed.

(** X23. Connecting again while a socket is held that is not open (still
    connecting, say).  [initWebSocket] of src/websocket.js closes the
    socket it replaces; [connectWebSocket] of src/unnamed/part_000 only
    closes an open socket, so it creates the new socket and lets go of
    whatever socket it held without a [close]. *)
Theorem replace_pending_socket (o : options) (sw : state)
    (sp : Part000.state) :
  ws sw <> None ->
  sock_open (ws sw) = false ->
  url_valid (env sw) = true ->
  sock_open (Part000.socket sp) = false ->
  url_valid (Part000.env sp) = true ->
  (exists sw',
     initWebSocket o sw = (Normal true, sw')
     /\ ws sw' = Some (Socket CONNECTING o)
     /\ trace (env sw') = trace (env sw) ++ [WsClose None; WsNew])
  /\ (exists sp',
        Part000.connectWebSocket o sp = (Normal true, sp')
        /\ Part000.socket sp' = Some (Socket CONNECTING o)
        /\ closes (trace (Part000.env sp')) = closes (trace (Part000.env sp))).
Proof.
  intros Hw Hwo Hwu Hpo Hpu. split.
  - destruct (wsjs_initWebSocket_replace o sw Hw Hwo Hwu)
      as (sw' & Hrun & Hs & _ & _ & _ & _ & _ & Htr).
    exists sw'. auto.
  - destruct (p000_connectWebSocket_pending o sp Hpo Hpu)
      as (sp' & Hrun & Hs & Hc & _).
    exists sp'. auto.
Qed.

Lemma replace_pending_socket_witness :
  (exists sw',
     initWebSocket player_options (wsjs_connecting 0) = (Normal true, sw')
     /\ ws sw' = Some (Socket CONNECTING player_options)
     /\ trace (env sw') = [WsClose None; WsNew])
  /\ (exists sp',
        Part000.connectWebSocket player_options (p000_connecting 0)
        = (Normal true, sp')
        /\ Part000.socket sp' = Some (Socket CONNECTING player_options)
        /\ closes (trace (Part000.env sp')) = []).
Proof.
  apply (replace_pending_socket player_options (wsjs_connecting 0)
           (p000_connecting 0));
    first [discriminate | reflexivity].
Defined.

End WebsocketJsStale.

(** ** A URL [new WebSocket] rejects *)

Section RefusedUrl.

Ltac wunfold :=
  unfold WebsocketJs.showNotification, WebsocketJs.log, WebsocketJs.Date_now,
    WebsocketJs.setTimeout, WebsocketJs.on_env,
    bind, ret, gets, get, modify, when, throw, try_catch in *.

Lemma wsjs_initWebSocket_refused (o : options) (st : WebsocketJs.state) :
  WebsocketJs.ws st = None ->
  url_valid (WebsocketJs.env st) = false ->
  let n := WebsocketJs.reconnectAttempts st in
  exists st',
    WebsocketJs.initWebSocket o st = (Normal false, st')
    /\ WebsocketJs.ws st' = None
    /\ url_valid (WebsocketJs.env st') = false
    /\ WebsocketJs.reconnectAttempts st' = (if n <? 5 then n + 1 else n)
    /\ timeouts (WebsocketJs.env st')
       = timeouts (WebsocketJs.env st)
         ++ (if n <? 5 then [Timer (WebsocketJs.backoff (n + 1)) ReconnectTimer]
             else [])
    /\ delays (trace (WebsocketJs.env st'))
       = delays (trace (WebsocketJs.env st))
         ++ (if n <? 5 then [WebsocketJs.backoff (n + 1)] else [])
    /\ frames (trace (WebsocketJs.env st')) = frames (trace (WebsocketJs.env st))
    /\ closes (trace (WebsocketJs.env st')) = closes (trace (WebsocketJs.env st)).
Proof.
  intros Hws Hu n. subst n.
  unfold WebsocketJs.initWebSocket, WebsocketJs.newWebSocket. wunfold.
  rewrite Hws. cbn -[WebsocketJs.attemptReconnection]. rewrite Hu.
  cbn -[WebsocketJs.attemptReconnection].
  unfold WebsocketJs.MAX_RECONNECT_ATTEMPTS.
  destruct (WebsocketJs.reconnectAttempts st <? 5) eqn:Hlt.
  - rewrite wsjs_attemptReconnection_eq. unfold wsjs_reconnecting.
    cbn. rewrite (wsjs_below_ceiling _ Hlt). cbn.
    eexists. split; [reflexivity|]. cbn.
    rewrite ?delays_app, ?frames_app, ?closes_app. cbn.
    rewrite ?app_nil_r, <- ?app_assoc. repeat split; auto.
  - cbn. eexists. split; [reflexivity|]. cbn.
    rewrite ?delays_app, ?frames_app, ?closes_app. cbn.
    rewrite ?app_nil_r. repeat split; auto.
Qed.

Lemma wsjs_timer_refused (t : timer) (st : WebsocketJs.state) :
  WebsocketJs.ws st = None ->
  url_valid (WebsocketJs.env st) = false ->
  timeouts (WebsocketJs.env st) = [t] ->
  let n := WebsocketJs.reconnectAttempts st in
  exists st',
    WebsocketJs.timer_fires 0 st = (Normal tt, st')
    /\ WebsocketJs.ws st' = None
    /\ url_valid (WebsocketJs.env st') = false
    /\ WebsocketJs.reconnectAttempts st' = (if n <? 5 then n + 1 else n)
    /\ timeouts (WebsocketJs.env st')
       = (if n <? 5 then [Timer (WebsocketJs.backoff (n + 1)) ReconnectTimer]
          else [])
    /\ delays (trace (WebsocketJs.env st'))
       = delays (trace (WebsocketJs.env st))
         ++ (if n <? 5 then [WebsocketJs.backoff (n + 1)] else [])
    /\ frames (trace (WebsocketJs.env st')) = frames (trace (WebsocketJs.env st))
    /\ closes (trace (WebsocketJs.env st')) = closes (trace (WebsocketJs.env st)).
Proof.
  intros Hws Hu Ht n. subst n.
  unfold WebsocketJs.timer_fires. unfold bind at 1. unfold gets at 1.
  rewrite Ht. cbn [lookup list_lookup]. unfold bind at 1.
  unfold WebsocketJs.on_env at 1. unfold modify at 1.
  cbn [delete list_delete]. unfold bind at 1. unfold get at 1.
  set (s0 := WebsocketJs.set_env (set_timeouts [] (WebsocketJs.env st)) st).
  assert (H0 : forall o, exists st',
             WebsocketJs.initWebSocket o s0 = (Normal false, st')
             /\ WebsocketJs.ws st' = None
             /\ url_valid (WebsocketJs.env st') = false
             /\ WebsocketJs.reconnectAttempts st'
                = (if WebsocketJs.reconnectAttempts st <? 5
                   then WebsocketJs.reconnectAttempts st + 1
                   else WebsocketJs.reconnectAttempts st)
             /\ timeouts (WebsocketJs.env st')
                = [] ++ (if WebsocketJs.reconnectAttempts st <? 5
                         then [Timer (WebsocketJs.backoff
                                        (WebsocketJs.reconnectAttempts st + 1))
                                     ReconnectTimer]
                         else [])
             /\ delays (trace (WebsocketJs.env st'))
                = delays (trace (WebsocketJs.env st))
                  ++ (if WebsocketJs.reconnectAttempts st <? 5
                      then [WebsocketJs.backoff
                              (WebsocketJs.reconnectAttempts st + 1)]
                      else [])
             /\ frames (trace (WebsocketJs.env st'))
                = frames (trace (WebsocketJs.env st))
             /\ closes (trace (WebsocketJs.env st'))
                = closes (trace (WebsocketJs.env st))).
  { intros o. apply (wsjs_initWebSocket_refused o s0 Hws Hu). }
  destruct (timer_callback_of t) as [|o].
  - destruct (H0 (WebsocketJs.stored_options s0)) as (st' & Hrun & H).
    exists st'. unfold bind. rewrite Hrun. split; [reflexivity | exact H].
  - destruct (H0 o) as (st' & Hrun & H).
    exists st'. unfold bind. rewrite Hrun. split; [reflexivity | exact H].
Qed.

Lemma wsjs_no_timer (k : nat) (st : WebsocketJs.state) :
  timeouts (WebsocketJs.env st) = [] ->
  repeat_m k (WebsocketJs.timer_fires 0) st = (Normal tt, st).
Proof.
  intros Ht. induction k as [|k IH]; [reflexivity|].
  cbn [repeat_m]. unfold bind at 1. unfold WebsocketJs.timer_fires at 1.
  unfold bind at 1. unfold gets at 1. rewrite Ht. cbn. exact IH.
Qed.

Lemma wsjs_timers_refused (k : nat) :
  forall (t : timer) (st : WebsocketJs.state),
    WebsocketJs.ws st = None ->
    url_valid (WebsocketJs.env st) = false ->
    timeouts (WebsocketJs.env st) = [t] ->
    exists st',
      repeat_m k (WebsocketJs.timer_fires 0) st = (Normal tt, st')
      /\ delays (trace (WebsocketJs.env st'))
         = delays (trace (WebsocketJs.env st))
           ++ ramp WebsocketJs.backoff (WebsocketJs.reconnectAttempts st)
                (Nat.min k (Z.to_nat (5 - WebsocketJs.reconnectAttempts st)))
      /\ frames (trace (WebsocketJs.env st')) = frames (trace (WebsocketJs.env st))
      /\ closes (trace (WebsocketJs.env st')) = closes (trace (WebsocketJs.env st))
      /\ ((Z.to_nat (5 - WebsocketJs.reconnectAttempts st) < k)%nat ->
          timeouts (WebsocketJs.env st') = []).
Proof.
  induction k as [|k IH]; intros t st Hws Hu Ht.
  - exists st. cbn. rewrite app_nil_r. repeat split; auto. lia.
  - destruct (wsjs_timer_refused t st Hws Hu Ht)
      as (s1 & Hrun1 & Hws1 & Hu1 & Ha1 & Ht1 & Hd1 & Hf1 & Hc1).
    destruct (WebsocketJs.reconnectAttempts st <? 5) eqn:Hlt.
    + destruct (IH _ s1 Hws1 Hu1 Ht1) as (s2 & Hrun2 & Hd2 & Hf2 & Hc2 & Ht2).
      exists s2. split.
      { cbn [repeat_m]. unfold bind at 1. rewrite Hrun1. exact Hrun2. }
      rewrite Hd2, Hd1, Hf2, Hf1, Hc2, Hc1, Ha1.
      rewrite (ramp_step _ _ k) by lia. rewrite <- app_assoc.
      repeat split; auto.
      intros Hk. apply Ht2. rewrite Ha1. lia.
    + exists s1. split.
      { cbn [repeat_m]. unfold bind at 1. rewrite Hrun1.
        apply wsjs_no_timer. exact Ht1. }
      rewrite Hd1, !ramp_done by lia. repeat split; auto.
Qed.

Ltac punfold :=
  unfold Part000.showNotification, Part000.log, Part000.Date_now,
    Part000.setTimeout, Part000.on_env,
    bind, ret, gets, get, modify, when, throw, try_catch in *.

Lemma p000_connectWebSocket_refused (o : options) (st : Part000.state) :
  sock_open (Part000.socket st) = false ->
  url_valid (Part000.env st) = false ->
  0 <= Part000.currentWSIndex st ->
  exists st',
    Part000.connectWebSocket o st = (Normal false, st')
    /\ Part000.socket st' = Part000.socket st
    /\ Part000.connectionStatus st' = Part000.error
    /\ Part000.reconnectAttempts st' = Part000.reconnectAttempts st
    /\ timeouts (Part000.env st') = timeouts (Part000.env st)
    /\ delays (trace (Part000.env st')) = delays (trace (Part000.env st)).
Proof.
  intros Hso Hu Hi. unfold Part000.connectWebSocket.
  unfold bind at 1. unfold gets at 1. rewrite Hso.
  unfold when. unfold bind at 1. unfold ret at 1.
  unfold try_catch. unfold bind at 1.
  rewrite p000_updateConnectionStatus_eq.
  unfold Part000.newWebSocket. unfold bind at 1. unfold bind at 1.
  unfold gets at 1.
  replace (url_valid (Part000.env (p000_status_set Part000.connecting
             "Connecting to server..." st))) with false
    by (symmetry; exact Hu).
  unfold throw at 1.
  unfold bind at 1. rewrite p000_updateConnectionStatus_eq.
  unfold Part000.try_backup. punfold. cbn.
  replace (Part000.currentWSIndex st <? Part000.WS_BACKUP_URLS_length - 1)
    with false
    by (symmetry; apply Z.ltb_ge; unfold Part000.WS_BACKUP_URLS_length; lia).
  eexists. split; [reflexivity|]. cbn.
  rewrite !delays_app, !listeners_trace_delays, !app_nil_r.
  repeat split; reflexivity.
Qed.

(** X14. A URL that [new WebSocket] rejects.  src/websocket.js retries:
    the first call and the timeouts it leads to set the timeouts of the
    backoff sequence, one per failed attempt, until the counter is at 5;
    then a failed attempt schedules nothing and no timeout is left, and
    nothing is handed to the transport all along.  src/unnamed/part_000
    does not retry: [connectWebSocket] returns false with the status at
    'error', and sets no timeout. *)
Theorem url_refused (o : options) (k : nat) (sw : WebsocketJs.state)
    (sp : Part000.state) :
  WebsocketJs.ws sw = None ->
  url_valid (WebsocketJs.env sw) = false ->
  timeouts (WebsocketJs.env sw) = [] ->
  sock_open (Part000.socket sp) = false ->
  url_valid (Part000.env sp) = false ->
  0 <= Part000.currentWSIndex sp ->
  let n := WebsocketJs.reconnectAttempts sw in
  (exists sw',
     (WebsocketJs.initWebSocket o ;; repeat_m k (WebsocketJs.timer_fires 0)) sw
     = (Normal tt, sw')
     /\ delays (trace (WebsocketJs.env sw'))
        = delays (trace (WebsocketJs.env sw))
          ++ ramp WebsocketJs.backoff n (Nat.min (S k) (Z.to_nat (5 - n)))
     /\ frames (trace (WebsocketJs.env sw')) = frames (trace (WebsocketJs.env sw))
     /\ ((Z.to_nat (5 - n) <= k)%nat -> timeouts (WebsocketJs.env sw') = []))
  /\ (exists sp',
        Part000.connectWebSocket o sp = (Normal false, sp')
        /\ Part000.connectionStatus sp' = Part000.error
        /\ timeouts (Part000.env sp') = timeouts (Part000.env sp)
        /\ delays (trace (Part000.env sp')) = delays (trace (Part000.env sp))).
Proof.
  intros Hws Hu Ht Hso Hup Hi n. subst n. split.
  - destruct (wsjs_initWebSocket_refused o sw Hws Hu)
      as (s1 & Hrun1 & Hws1 & Hu1 & Ha1 & Ht1 & Hd1 & Hf1 & _).
    rewrite Ht in Ht1. cbn [app] in Ht1.
    destruct (WebsocketJs.reconnectAttempts sw <? 5) eqn:Hlt.
    + destruct (wsjs_timers_refused k _ s1 Hws1 Hu1 Ht1)
        as (s2 & Hrun2 & Hd2 & Hf2 & _ & Ht2).
      exists s2. split.
      { unfold bind at 1. rewrite Hrun1. exact Hrun2. }
      rewrite Hd2, Hd1, Hf2, Hf1, Ha1.
      rewrite (ramp_step _ _ k) by lia. rewrite <- app_assoc.
      repeat split; auto.
      intros Hk. apply Ht2. rewrite Ha1. lia.
    + exists s1. split.
      { unfold bind at 1. rewrite Hrun1. apply wsjs_no_timer. exact Ht1. }
      rewrite Hd1, Hf1, !ramp_done by lia. repeat split; auto.
  - destruct (p000_connectWebSocket_refused o sp Hso Hup Hi)
      as (sp' & Hrun & _ & Hst & _ & Ht' & Hd').
    exists sp'. auto.
Qed.

Lemma url_refused_witness :
  (exists sw',
     (WebsocketJs.initWebSocket player_options ;;
      repeat_m 5 (WebsocketJs.timer_fires 0)) (wsjs_refusing 0)
     = (Normal tt, sw')
     /\ delays (trace (WebsocketJs.env sw'))
        = [3000; 6000; 12000; 24000; 48000]
     /\ frames (trace (WebsocketJs.env sw')) = []
     /\ timeouts (WebsocketJs.env sw') = [])
  /\ (exists sp',
        Part000.connectWebSocket player_options (p000_refusing 0)
        = (Normal false, sp')
        /\ Part000.connectionStatus sp' = Part000.error
        /\ timeouts (Part000.env sp') = []
        /\ delays (trace (Part000.env sp')) = []).
Proof.
  destruct (url_refused player_options 5 (wsjs_refusing 0) (p000_refusing 0))
    as [(sw' & Hrun & Hd & Hf & Ht) Hp];
    [reflexivity | reflexivity | reflexivity | reflexivity | reflexivity
    | cbn; lia |].
  split; [|exact Hp].
  exists sw'. split; [exact Hrun|]. split; [exact Hd|]. split; [exact Hf|].
  apply Ht. cbn. lia.
Defined.

End RefusedUrl.

(** ** src/websocket.js: the calls of the game *)

Section WebsocketJsGame.
Import WebsocketJs.




End WebsocketJsGame.

(** ** src/unnamed/part_000: the game state *)

Lemma lastn_all {A} (n : nat) (l : list A) :
  (length l <= n)%nat -> lastn n l = l.
Proof.
  intros H. unfold lastn. replace (length l - n)%nat with O by lia.
  reflexivity.
Qed.

Lemma lastn_length {A} (n : nat) (l : list A) :
  (length (lastn n l) <= n)%nat.
Proof. unfold lastn. rewrite length_skipn. lia. Qed.

Lemma lastn_snoc {A} (n : nat) (l : list A) (x : A) :
  (0 < n)%nat -> lastn n (lastn n l ++ [x]) = lastn n (l ++ [x]).
Proof.
  intros Hn. destruct (Nat.le_gt_cases (length l) n) as [H|H].
  - rewrite (lastn_all n l H). reflexivity.
  - unfold lastn. rewrite !length_app, !length_skipn. cbn [length].
    replace (length l - (length l - n) + 1 - n)%nat with 1%nat by lia.
    rewrite !skipn_app, !length_skipn.
    replace (1 - (length l - (length l - n)))%nat with O by lia.
    replace (length l + 1 - n - length l)%nat with O by lia.
    cbn [skipn]. f_equal.
    rewrite skipn_skipn. f_equal. lia.
Qed.

Lemma lastn_lastn {A} (n : nat) (l : list A) :
  lastn n (lastn n l) = lastn n l.
Proof. apply lastn_all, lastn_length. Qed.

Lemma ForallOrdPairs_filter {A} (R : A -> A -> Prop) (f : A -> bool)
    (l : list A) :
  ForallOrdPairs R l -> ForallOrdPairs R (List.filter f l).
Proof.
  induction 1 as [|x l Hx Hl IH]; [constructor|].
  cbn. destruct (f x); [|exact IH].
  constructor; [|exact IH].
  rewrite List.Forall_forall in *. intros y Hy.
  apply filter_In in Hy. apply Hx, Hy.
Qed.

Lemma ForallOrdPairs_snoc {A} (R : A -> A -> Prop) (l : list A) (x : A) :
  ForallOrdPairs R l -> List.Forall (fun y => R y x) l ->
  ForallOrdPairs R (l ++ [x]).
Proof.
  induction 1 as [|y l Hy Hl IH]; intros Hx.
  - cbn. constructor; constructor.
  - inversion Hx as [|? ? Hyx Hlx]; subst. cbn. constructor.
    + apply List.Forall_app. split; [exact Hy | constructor; [exact Hyx | constructor]].
    + apply IH, Hlx.
Qed.

Section Part000GameFacts.
Import Part000Game.

Lemma called_since_start_lastn (ms : list game_message) :
  forall before,
    lastn 20 (called_since_start (lastn 20 before) ms)
    = lastn 20 (called_since_start before ms).
Proof.
  induction ms as [|m ms IH]; intros before.
  - cbn. apply lastn_lastn.
  - destruct m as [|message|message|message]; cbn [called_since_start];
      try apply IH; [reflexivity|].
    rewrite <- IH, lastn_snoc, IH by lia. reflexivity.
Qed.

(** X21. src/unnamed/part_000, [handleNumberCalled] and
    [handleGameStarted]: over any sequence of messages of the server,
    [gameState.calledNumbers] holds the last 20 of the numbers called
    since the last [game_started] (or since before the sequence), in the
    order they were called; it never holds more than 20. *)
Theorem called_numbers_window (ms : list game_message) (g : gameState) :
  (length (calledNumbers g) <= 20)%nat ->
  calledNumbers (fold_left handle ms g)
  = lastn 20 (called_since_start (calledNumbers g) ms)
  /\ (length (calledNumbers (fold_left handle ms g)) <= 20)%nat.
Proof.
  intros H.
  assert (Heq : calledNumbers (fold_left handle ms g)
                = lastn 20 (called_since_start (calledNumbers g) ms)).
  { revert g H. induction ms as [|m ms IH]; intros g H.
    - cbn. symmetry. apply lastn_all, H.
    - cbn [fold_left called_since_start].
      destruct m as [|message|message|message]; cbn [handle].
      + rewrite IH by (cbn; lia). reflexivity.
      + rewrite IH.
        * cbn [handleNumberCalled calledNumbers].
          rewrite <- (called_since_start_lastn ms (calledNumbers g ++ _)).
          f_equal. f_equal. unfold lastn.
          rewrite length_app. cbn [length].
          destruct (Nat.ltb_spec 20 (length (calledNumbers g) + 1)).
          -- replace (length (calledNumbers g) + 1 - 20)%nat with 1%nat by lia.
             destruct (calledNumbers g ++ _); reflexivity.
          -- replace (length (calledNumbers g) + 1 - 20)%nat with O by lia.
             reflexivity.
        * cbn [handleNumberCalled calledNumbers].
          rewrite length_app. cbn [length].
          destruct (Nat.ltb_spec 20 (length (calledNumbers g) + 1)).
          -- destruct (calledNumbers g ++ _) eqn:E; cbn; [lia|].
             apply (f_equal (@length _)) in E.
             rewrite length_app in E. cbn in E. lia.
          -- rewrite length_app. cbn. lia.
      + rewrite IH.
        * unfold handlePlayerJoined. destruct (existsb _ _); reflexivity.
        * unfold handlePlayerJoined. destruct (existsb _ _); exact H.
      + rewrite IH by exact H. reflexivity. }
  split; [exact Heq|]. rewrite Heq. apply lastn_length.
Qed.

Lemma called_numbers_window_witness :
  calledNumbers
    (fold_left handle
       [number_called (JObject [("number", JNumber 7)]);
        game_started;
        number_called (JObject [("number", JNumber 12)]);
        number_called (JObject [("number", JNumber 30)])]
       (GameState false [] []))
  = [JNumber 12; JNumber 30].
Proof.
  destruct (called_numbers_window
              [number_called (JObject [("number", JNumber 7)]);
               game_started;
               number_called (JObject [("number", JNumber 12)]);
               number_called (JObject [("number", JNumber 30)])]
              (GameState false [] []))
    as [H _]; [cbn; lia|].
  exact H.
Defined.

Lemma handle_players (g : gameState) (m : game_message) :
  distinct_ids (playersInRoom g) ->
  distinct_ids (playersInRoom (handle g m)).
Proof.
  intros H. destruct m as [|message|message|message]; cbn; try exact H.
  - unfold handlePlayerJoined.
    destruct (existsb _ _) eqn:E; [exact H|]. cbn.
    apply ForallOrdPairs_snoc; [exact H|].
    apply List.Forall_forall. intros q Hq. cbn.
    destruct (strict_eq (p_id q) (get_field "playerId" message)) eqn:Eq;
      [|reflexivity].
    assert (Hex : existsb (fun p => strict_eq (p_id p)
                             (get_field "playerId" message))
                    (playersInRoom g) = true)
      by (apply existsb_exists; exists q; auto).
    congruence.
  - apply ForallOrdPairs_filter, H.
Qed.

(** X22. src/unnamed/part_000, [handlePlayerJoined] and
    [handlePlayerLeft]: over any sequence of messages of the server, no
    two entries of [gameState.playersInRoom] have ids that [===] holds
    of; [player_joined] for an id that is listed changes nothing (the
    entry keeps the name and stake it was listed with); after
    [player_left] no entry with the id of the message is left, so that the
    same message as [player_joined] lists the player anew, at the end. *)
Theorem players_in_room (ms : list game_message) (message : jsval)
    (g : gameState) :
  distinct_ids (playersInRoom g) ->
  let g' := fold_left handle ms g in
  let pid := get_field "playerId" message in
  distinct_ids (playersInRoom g')
  /\ (List.Exists (fun p => strict_eq (p_id p) pid = true) (playersInRoom g') ->
      handlePlayerJoined message g' = g')
  /\ playersInRoom (handlePlayerJoined message (handlePlayerLeft message g'))
     = List.filter (fun p => negb (strict_eq (p_id p) pid)) (playersInRoom g')
       ++ [Player pid (get_field "name" message) (get_field "stake" message)].
Proof.
  intros H. cbv zeta. split; [|split].
  - revert g H. induction ms as [|m ms IH]; intros g H; [exact H|].
    cbn [fold_left]. apply IH, handle_players, H.
  - intros Hex. unfold handlePlayerJoined.
    replace (existsb _ _) with true; [reflexivity|].
    symmetry. apply existsb_exists. apply List.Exists_exists in Hex. exact Hex.
  - unfold handlePlayerJoined, handlePlayerLeft. cbn [playersInRoom].
    replace (existsb _ _) with false; [reflexivity|].
    symmetry. apply not_true_is_false. intros E.
    apply existsb_exists in E. destruct E as (q & Hq & Hid).
    apply filter_In in Hq. destruct Hq as [_ Hq]. rewrite Hid in Hq.
    discriminate.
Qed.

Lemma players_in_room_witness :
  let abebe := JObject [("playerId", JString "p1"); ("name", JString "Abebe")] in
  let again := JObject [("playerId", JString "p1"); ("name", JString "Kebede")] in
  playersInRoom
    (fold_left handle [player_joined abebe; player_joined again]
       (GameState false [] []))
  = [Player (JString "p1") (JString "Abebe") JUndefined]
  /\ distinct_ids
       (playersInRoom
          (fold_left handle [player_joined abebe; player_joined again]
             (GameState false [] []))).
Proof.
  intros abebe again. split; [reflexivity|].
  apply (players_in_room [player_joined abebe; player_joined again] abebe
           (GameState false [] [])).
  constructor.
Defined.

End Part000GameFacts.
